(** * The OpenVDB CI cache scripts: download, extract, round trip, compare, clean up

    Shallow embedding of
      - [ci/download_vdb_caches.py]
      - [ci/read_write_test_compression.py]
      - [ci/read_write_blosc_compression.py]

    The three scripts share one vocabulary: a working directory, a console,
    exceptions that a [try]/[except Exception] block swallows, and calls into
    [zipfile], [pyopenvdb] and the [vdb_ax] tool.  The working directory is a
    finite map from file names to contents, the console a list of typed
    events (one constructor per [print] statement), and the libraries are
    variables of a section: nothing is assumed about what they return. *)

From Stdlib Require Import Ascii String QArith.
From stdpp Require Import gmap strings list fin_maps.

Local Open Scope string_scope.
Local Open Scope list_scope.

(** ** Python string helpers *)

Module PyStr.

(** [os.path.basename]: what follows the last slash. [cur] is the suffix
    that follows the most recent slash met so far. *)
Fixpoint after_last_slash (p cur : string) : string :=
  match p with
  | EmptyString => cur
  | String c r =>
      if Ascii.eqb c "/"%char then after_last_slash r r
      else after_last_slash r cur
  end.

Definition basename (p : string) : string := after_last_slash p p.

(** [s.split(sep)[0]] for a non-empty [sep]: the text before the first
    occurrence of [sep], all of [s] when there is none. *)
Fixpoint before_sep (sep s : string) : string :=
  match s with
  | EmptyString => EmptyString
  | String c r =>
      if String.prefix sep s then EmptyString
      else String c (before_sep sep r)
  end.

(** [s.replace(old, new)] for a non-empty [old]: left to right, occurrences
    do not overlap. [skip] counts the characters of a match still to drop. *)
Fixpoint replace_go (old new : string) (skip : nat) (s : string) : string :=
  match s with
  | EmptyString => EmptyString
  | String c r =>
      match skip with
      | S k => replace_go old new k r
      | O =>
          if String.prefix old s
          then new +:+ replace_go old new (String.length old - 1) r
          else String c (replace_go old new 0 r)
      end
  end.

Definition replace (old new s : string) : string := replace_go old new 0 s.

(** Truth value of a string: the empty string is false. *)
Definition truthy (s : string) : bool :=
  match s with EmptyString => false | _ => true end.

(** [d.get(k)] on a literal dict. *)
Fixpoint get (d : list (string * string)) (k : string) : option string :=
  match d with
  | [] => None
  | (k', v) :: d' => if String.eqb k k' then Some v else get d' k
  end.

(** [name = d.get(k); if not name: name = fallback] *)
Definition get_or (d : list (string * string)) (k fallback : string) : string :=
  match get d k with
  | Some v => if truthy v then v else fallback
  | None => fallback
  end.

End PyStr.

(** ** The job catalog

    [vdb_urls], the same literal list in [download_vdb_caches.py] and
    [read_write_test_compression.py]. *)

Definition vdb_urls : list string :=
  [
    "https://artifacts.aswf.io/io/aswf/openvdb/models/armadillo.vdb/1.0.0/armadillo.vdb-1.0.0.zip";
    "https://artifacts.aswf.io/io/aswf/openvdb/models/buddha.vdb/1.0.0/buddha.vdb-1.0.0.zip";
    "https://artifacts.aswf.io/io/aswf/openvdb/models/armadillo.vdb/1.0.0/armadillo.vdb-1.0.0.zip";
    "https://artifacts.aswf.io/io/aswf/openvdb/models/buddha.vdb/1.0.0/buddha.vdb-1.0.0.zip";
    "https://artifacts.aswf.io/io/aswf/openvdb/models/bunny.vdb/1.0.0/bunny.vdb-1.0.0.zip";
    "https://artifacts.aswf.io/io/aswf/openvdb/models/bunny_cloud.vdb/1.0.0/bunny_cloud.vdb-1.0.0.zip";
    "https://artifacts.aswf.io/io/aswf/openvdb/models/crawler.vdb/1.0.0/crawler.vdb-1.0.0.zip";
    "https://artifacts.aswf.io/io/aswf/openvdb/models/cube.vdb/1.0.0/cube.vdb-1.0.0.zip";
    "https://artifacts.aswf.io/io/aswf/openvdb/models/dragon.vdb/1.0.0/dragon.vdb-1.0.0.zip";
    "https://artifacts.aswf.io/io/aswf/openvdb/models/emu.vdb/1.0.0/emu.vdb-1.0.0.zip";
    "https://artifacts.aswf.io/io/aswf/openvdb/models/explosion.vdb/1.0.0/explosion.vdb-1.0.0.zip";
    "https://artifacts.aswf.io/io/aswf/openvdb/models/fire.vdb/1.0.0/fire.vdb-1.0.0.zip";
    "https://artifacts.aswf.io/io/aswf/openvdb/models/icosahedron.vdb/1.0.0/icosahedron.vdb-1.0.0.zip";
    "https://artifacts.aswf.io/io/aswf/openvdb/models/iss.vdb/1.0.0/iss.vdb-1.0.0.zip";
    "https://artifacts.aswf.io/io/aswf/openvdb/models/smoke1.vdb/1.0.0/smoke1.vdb-1.0.0.zip";
    "https://artifacts.aswf.io/io/aswf/openvdb/models/smoke2.vdb/1.0.0/smoke2.vdb-1.0.0.zip";
    "https://artifacts.aswf.io/io/aswf/openvdb/models/space.vdb/1.0.0/space.vdb-1.0.0.zip";
    "https://artifacts.aswf.io/io/aswf/openvdb/models/sphere.vdb/1.0.0/sphere.vdb-1.0.0.zip";
    "https://artifacts.aswf.io/io/aswf/openvdb/models/torus.vdb/1.0.0/torus.vdb-1.0.0.zip";
    "https://artifacts.aswf.io/io/aswf/openvdb/models/torus_knot.vdb/1.0.0/torus_knot.vdb-1.0.0.zip";
    "https://artifacts.aswf.io/io/aswf/openvdb/models/utahteapot.vdb/1.0.0/utahteapot.vdb-1.0.0.zip";
    "https://artifacts.aswf.io/io/aswf/openvdb/models/venusstatue.vdb/1.0.0/venusstatue.vdb-1.0.0.zip";
    "https://artifacts.aswf.io/io/aswf/openvdb/models/boat_points.vdb/1.0.0/boat_points.vdb-1.0.0.zip";
    "https://artifacts.aswf.io/io/aswf/openvdb/models/bunny_points.vdb/1.0.0/bunny_points.vdb-1.0.0.zip";
    "https://artifacts.aswf.io/io/aswf/openvdb/models/sphere_points.vdb/1.0.0/sphere_points.vdb-1.0.0.zip";
    "https://artifacts.aswf.io/io/aswf/openvdb/models/waterfall_points.vdb/1.0.0/waterfall_points.vdb-1.0.0.zip"
  ].

(** Alias tables: [read_write_test_compression.py] keys its table by archive
    name, [read_write_blosc_compression.py] by data file name. *)
Definition vdb_aliases_zip : list (string * string) :=
  [ ("torus_knot.vdb-1.0.0.zip", "torus_knot_helix");
    ("smoke1.vdb-1.0.0.zip", "smoke") ].

Definition vdb_aliases_vdb : list (string * string) :=
  [ ("torus_knot.vdb", "torus_knot_helix");
    ("smoke1.vdb", "smoke") ].

(** ** Values the scripts handle *)

(** Exceptions. The first six are raised by the scripts' own statements
    (indexing, [raise RuntimeError], the float division, [assert], and the
    [os] calls on a missing path); [External] is whatever [zipfile],
    [pyopenvdb] or [subprocess] raise, with the library's message. All of
    them derive from [Exception], so [except Exception] catches each. *)
Inductive exn : Type :=
| IndexError
| KeyError
| RuntimeError (msg : string)
| ZeroDivisionError
| AssertionError
| OSError (path : string)
| External (msg : string).

(** A grid as the scripts see it: [.name], [.valueTypeName], and voxel data
    they never look into. *)
Record Grid : Type := mkGrid {
  name : string;
  valueTypeName : string;
  voxels : list nat
}.

(** An element of the sequence [vdb.readAll] returns. The scripts apply
    [len] to the sequence, index it with [[0]], index that element with
    [[0]] again to reach an object with a [.name], and hand the element whole
    to [vdb.write]: an element is a sequence of grids, or some other
    container (a metadata dict) on which [[0]] fails. *)
Inductive item : Type :=
| GridList (gs : list Grid)
| MetaDict (kv : list (string * string)).

(** One member of an archive as [extractall] meets it: the bytes it writes
    to [m_name], and the error it raises once they are written (a bad CRC),
    if any. *)
Record member : Type := mkMember {
  m_name : string;
  m_data : string;
  m_error : option string
}.

(** What [vdb.write] does to its destination. *)
Inductive write_result : Type :=
| Written (data : string)
| WriteFailed (msg : string) (partial : option string).

(** Console output, one constructor per [print] statement of the scripts. *)
Inductive event : Type :=
| AxEnabled                      (* print('ax enabled') *)
| AxDisabled                     (* print('ax disabled') *)
| Initiating (url : string)      (* print('Initiating download "' + url + '"') *)
| Separator                      (* print('-----------------------------------------') *)
| Processing (file : string)     (* print('Processing "' + file + '"') *)
| Extracting (zip : string)      (* print('Extracting ' + zip_file + '...') *)
| CleaningArchive (zip : string) (* print('Cleaning up "' + zip_file + '"...') *)
| PrintGrids (grids : list item) (* print(grids) *)
| Successful (file : string)     (* print(file + ' read/write successful.') *)
| InputSize (n : nat)            (* print('  input size: [' + str(src_size) + ']') *)
| OutputSize (n : nat)           (* print('  outpt size: [' + str(dst_size) + ']') *)
| CompRatio (q : Q)              (* print('  comp ratio: [' + str(ratio) + ']') *)
| Caught (e : exn)               (* print(e) *)
| Comparing                      (* print('Comparing grids with AX...') *)
| Differ (src dst : string)      (* print('VDBs from "' + src + '" and "' + dst + '" differ.') *)
| CleaningFiles (name : string). (* print('Cleaning up "' + name + '" files...') *)

(** ** The world outside the scripts

    [zipfile], [pyopenvdb] and the [vdb_ax] executable are not part of the
    scripts; they are taken as they come. A parser gets the bytes of the
    file it is pointed at and answers with a message (the exception it
    raises) or a value. A request answers with the exception of
    [requests.get], or with the chunks [iter_content] delivers and the
    exception that ends the stream early, if any. The external tool sees
    the directory and its argument vector; it answers with a spawn failure
    or its two output streams, and leaves the directory as it likes. *)
Class World : Type := {
  requests_get : string -> string + list string * option string;
  zip_members : string -> string + list member;
  vdb_readAll : string -> string + list item;
  vdb_readAllGridMetadata : string -> string + list Grid;
  vdb_write : item -> write_result;
  vdb_has_ax : bool;
  vdb_ax : gmap string string -> list string ->
           (string + string * string) * gmap string string
}.

(** ** State and effects

    The working directory, the console, and the two variables
    [read_write_test_compression.py] assigns inside its [try] block and
    reads after it. *)
Record state : Type := mkState {
  fs : gmap string string;
  out : list event;
  src_file : string;
  dst_file : string
}.

Definition M (A : Type) : Type := state -> (exn + A) * state.

Definition ret {A} (a : A) : M A := fun s => (inr a, s).

Definition raise {A} (e : exn) : M A := fun s => (inl e, s).

Definition bind {A B} (m : M A) (k : A -> M B) : M B :=
  fun s => match m s with
           | (inr a, s') => k a s'
           | (inl e, s') => (inl e, s')
           end.

Declare Scope py_scope.
Delimit Scope py_scope with py.
Notation "x <- m ;; k" := (bind m (fun x => k))
  (at level 100, m at next level, right associativity) : py_scope.
Notation "m ;; k" := (bind m (fun _ => k))
  (at level 100, right associativity) : py_scope.
Local Open Scope py_scope.

(** [try: body  except Exception as e: handler(e)]: what [body] did to the
    state before it raised stays done. *)
Definition try_except (body : M unit) (handler : exn -> M unit) : M unit :=
  fun s => match body s with
           | (inl e, s') => handler e s'
           | r => r
           end.

Definition print (e : event) : M unit :=
  fun s => (inr tt, mkState (fs s) (out s ++ [e]) (src_file s) (dst_file s)).

Definition get_fs : M (gmap string string) := fun s => (inr (fs s), s).

Definition put_fs (d : gmap string string) : M unit :=
  fun s => (inr tt, mkState d (out s) (src_file s) (dst_file s)).

Definition get_src : M string := fun s => (inr (src_file s), s).
Definition get_dst : M string := fun s => (inr (dst_file s), s).

Definition set_src (p : string) : M unit :=
  fun s => (inr tt, mkState (fs s) (out s) p (dst_file s)).

Definition set_dst (p : string) : M unit :=
  fun s => (inr tt, mkState (fs s) (out s) (src_file s) p).

(** A library answer, its message turned into an exception. *)
Definition lift {A} (r : string + A) : M A :=
  match r with
  | inl msg => raise (External msg)
  | inr a => ret a
  end.

(** *** [os] *)

(** [os.path.isfile(p)]; the empty path names no file. *)
Definition is_file (d : gmap string string) (p : string) : bool :=
  PyStr.truthy p && bool_decide (is_Some (d !! p)).

Definition isfile (p : string) : M bool :=
  d <- get_fs ;; ret (is_file d p).

(** [os.remove(p)] raises on a path that is not there. *)
Definition remove (p : string) : M unit :=
  d <- get_fs ;;
  if is_file d p then put_fs (delete p d) else raise (OSError p).

(** [os.path.getsize(p)] *)
Definition getsize (p : string) : M nat :=
  d <- get_fs ;;
  match d !! p with
  | Some data => if PyStr.truthy p then ret (String.length data) else raise (OSError p)
  | None => raise (OSError p)
  end.

(** The bytes of the file at [p], for a library that opens it. *)
Definition read_file (p : string) : M string :=
  d <- get_fs ;;
  match d !! p with
  | Some data => if PyStr.truthy p then ret data else raise (OSError p)
  | None => raise (OSError p)
  end.

(** What [open(p, 'wb')] followed by writes and a close leaves behind. *)
Definition write_file (p data : string) : M unit :=
  d <- get_fs ;;
  if PyStr.truthy p then put_fs (<[p := data]> d) else raise (OSError p).

(** [if os.path.isfile(p): os.remove(p)] *)
Definition remove_if_file (p : string) : M unit :=
  b <- isfile p ;; if b then remove p else ret tt.

(** One double quote and one line feed, for the messages that contain them. *)
Definition dq : string := String (ascii_of_nat 34) EmptyString.
Definition lf : string := String (ascii_of_nat 10) EmptyString.

Section Scripts.

Context {W : World}.

(** *** [download(link, filelocation)], the body of every fetch thread *)

(** [for chunk in r.iter_content(1024): if chunk: f.write(chunk)] *)
Definition received (chunks : list string) : string :=
  foldl (fun f chunk => if PyStr.truthy chunk then f +:+ chunk else f) "" chunks.

Definition download (link filelocation : string) : M unit :=
  r <- lift (requests_get link) ;;
  write_file filelocation (received r.1) ;;
  match r.2 with
  | Some msg => raise (External msg)
  | None => ret tt
  end.

(** *** [zipfile] *)

(** [zipfile.ZipFile(p, 'r')]: open the file, then parse it. *)
Definition zip_open (p : string) : M (list member) :=
  data <- read_file p ;; lift (zip_members data).

(** [zip_ref.extractall()]: members in order; one that fails has already
    left its bytes behind, and the ones after it are not reached. *)
Fixpoint extractall (ms : list member) : M unit :=
  match ms with
  | [] => ret tt
  | m :: rest =>
      write_file (m_name m) (m_data m) ;;
      match m_error m with
      | Some msg => raise (External msg)
      | None => extractall rest
      end
  end.

Definition extract_zip (zip_file : string) : M unit :=
  ms <- zip_open zip_file ;; extractall ms.

(** *** [pyopenvdb] *)

Definition readAll (p : string) : M (list item) :=
  data <- read_file p ;; lift (vdb_readAll data).

Definition readAllGridMetadata (p : string) : M (list Grid) :=
  data <- read_file p ;; lift (vdb_readAllGridMetadata data).

Definition write (p : string) (u : item) : M unit :=
  match vdb_write u with
  | Written data => write_file p data
  | WriteFailed msg partial =>
      match partial with
      | Some data => write_file p data
      | None => ret tt
      end ;;
      raise (External msg)
  end.

(** *** The round trip, [read_write_test_compression.py] lines 135-152 and
    [read_write_blosc_compression.py] lines 64-81 (they differ in the
    label of the success message only) *)

(** [xs[0]] *)
Definition index0 {A} (xs : list A) : M A :=
  match xs with
  | x :: _ => ret x
  | [] => raise IndexError
  end.

Definition rename (g : Grid) : Grid :=
  mkGrid (name g +:+ "_output") (valueTypeName g) (voxels g).

(** [u[0].name += '_output'], answering [u] as it is afterwards (the
    element is changed in place, and [u] is what [vdb.write] is given). *)
Definition rename_first (u : item) : M item :=
  match u with
  | GridList (g :: gs) => ret (GridList (rename g :: gs))
  | GridList [] => raise IndexError
  | MetaDict _ => raise KeyError
  end.

Definition multiple_grids_msg (src : string) : string :=
  "Multiple grids in file " +:+ dq +:+ src +:+ dq +:+ ", refusing to read.".

(** [src_size/float(dst_size)] *)
Definition comp_ratio (src_size dst_size : nat) : M Q :=
  match dst_size with
  | O => raise ZeroDivisionError
  | S _ => ret (Z.of_nat src_size # Pos.of_nat dst_size)
  end.

(** [grids[0][0].name += '_output'], [vdb.write(dst_file, grids[0])] and
    the re-read [vdb.readAll(dst_file)], whose result is dropped. *)
Definition write_copy (dst : string) (grids : list item) : M unit :=
  u <- index0 grids ;;
  u' <- rename_first u ;;
  write dst u' ;;
  _ <- readAll dst ;;
  ret tt.

(** The two [os.path.getsize] calls and the four [print]s; the quotient is
    evaluated while the argument of the fourth is built. *)
Definition report_sizes (label src dst : string) : M unit :=
  src_size <- getsize src ;;
  dst_size <- getsize dst ;;
  print (Successful label) ;;
  print (InputSize src_size) ;;
  print (OutputSize dst_size) ;;
  q <- comp_ratio src_size dst_size ;;
  print (CompRatio q).

(** What follows the multiplicity check, given what [vdb.readAll(src)]
    returned. *)
Definition write_and_report (label src dst : string) (grids : list item) : M unit :=
  write_copy dst grids ;;
  report_sizes label src dst.

Definition round_trip (label src dst : string) : M unit :=
  grids <- readAll src ;;
  (if Nat.ltb 2 (length grids)
   then print (PrintGrids grids) ;; raise (RuntimeError (multiple_grids_msg src))
   else ret tt) ;;
  write_and_report label src dst grids.

(** *** [diff(src_file, dst_file)] *)

Definition fingerprint (p : string) : M string :=
  grids <- readAllGridMetadata p ;;
  g <- index0 grids ;;
  ret (valueTypeName g +:+ "@" +:+ name g).

Definition ax_code (a b : string) : string :=
  lf +:+ "        if (" +:+ a +:+ " != " +:+ b +:+ ") print(" +:+ a +:+ "-" +:+ b +:+ ");"
     +:+ lf +:+ "    ".

(** [subprocess.Popen(cmd, ...)] followed by [communicate()] *)
Definition popen (cmd : list string) : M (string * string) :=
  d <- get_fs ;;
  put_fs (vdb_ax d cmd).2 ;;
  lift (vdb_ax d cmd).1.

Definition diff (src dst : string) : M unit :=
  print Comparing ;;
  a <- fingerprint src ;;
  b <- fingerprint dst ;;
  (if String.eqb a b then raise AssertionError else ret tt) ;;
  r <- popen ["vdb_ax"; src; dst; "-s"; ax_code a b] ;;
  if PyStr.truthy r.1 then print (Differ src dst) else ret tt.

(** [if os.path.isfile(src_file) and os.path.isfile(dst_file): diff(...)] *)
Definition diff_if_both (src dst : string) : M unit :=
  b1 <- isfile src ;;
  b2 <- (if b1 then isfile dst else ret false) ;;
  if b2 then diff src dst else ret tt.

(** *** [download_vdb_caches.py], lines 73-86: one drained archive *)
Definition cache_job (zip_file : string) : M unit :=
  try_except
    (print (Extracting zip_file) ;;
     extract_zip zip_file ;;
     print (CleaningArchive zip_file) ;;
     remove_if_file zip_file)
    (fun e => print (Caught e)).

(** *** [read_write_test_compression.py], lines 110-167: one drained
    archive ([del downloads[zip_file]], between the two prints and the
    rest, is the tracker's; it touches neither console nor directory) *)

Definition cleanup3 (src dst zip_file : string) : M unit :=
  remove_if_file src ;; remove_if_file dst ;; remove_if_file zip_file.

Definition test_name (zip_file : string) : string :=
  PyStr.get_or vdb_aliases_zip zip_file (PyStr.before_sep ".vdb" zip_file).

(** Lines 110-156: the extractor and the round trip, in one [try]. *)
Definition test_validate (zip_file : string) : M unit :=
  print Separator ;;
  print (Processing zip_file) ;;
  set_src "" ;;
  set_dst "" ;;
  let name := test_name zip_file in
  try_except
    (print (Extracting zip_file) ;;
     extract_zip zip_file ;;
     set_src (name +:+ ".vdb") ;;
     set_dst (name +:+ "_blosc_compressed.vdb") ;;
     round_trip zip_file (name +:+ ".vdb") (name +:+ "_blosc_compressed.vdb"))
    (fun e => print (Caught e)).

(** Lines 158-160: [diff_with_ax] is [hasattr(vdb, 'ax')]. *)
Definition test_compare : M unit :=
  src <- get_src ;;
  dst <- get_dst ;;
  if vdb_has_ax then diff_if_both src dst else ret tt.

(** Lines 162-167. *)
Definition test_cleanup (zip_file : string) : M unit :=
  src <- get_src ;;
  dst <- get_dst ;;
  print (CleaningFiles (test_name zip_file)) ;;
  cleanup3 src dst zip_file.

Definition test_job (zip_file : string) : M unit :=
  test_validate zip_file ;;
  test_compare ;;
  test_cleanup zip_file.

(** *** [read_write_blosc_compression.py], lines 50-94: one data file *)

Definition cleanup2 (src dst : string) : M unit :=
  remove_if_file src ;; remove_if_file dst.

Definition blosc_name (src : string) : string :=
  PyStr.get_or vdb_aliases_vdb (PyStr.replace "_blosc" "" src)
               (PyStr.before_sep ".vdb" src).

Definition blosc_dst (src : string) : string :=
  blosc_name src +:+ "_output.vdb".

(** Lines 50-85. *)
Definition blosc_validate (src : string) : M unit :=
  print Separator ;;
  print (Processing src) ;;
  try_except (round_trip src src (blosc_dst src)) (fun e => print (Caught e)).

(** Lines 87-88. *)
Definition blosc_compare (src : string) : M unit :=
  diff_if_both src (blosc_dst src).

(** Lines 90-94. *)
Definition blosc_cleanup (src : string) : M unit :=
  print (CleaningFiles (blosc_name src)) ;;
  cleanup2 src (blosc_dst src).

Definition blosc_job (src : string) : M unit :=
  blosc_validate src ;;
  blosc_compare src ;;
  blosc_cleanup src.

End Scripts.

(** ** The completion tracker, [download_vdb_caches.py] lines 48-71 and
    [read_write_test_compression.py] lines 87-114

    [downloads] is a dict from archive name to thread. Threads are numbered
    in the order they are started, so thread [i] fetches [vdb_urls[i]].
    A dict keeps its keys in insertion order and an assignment to a key
    that is there replaces the value where it stands. *)

Fixpoint dict_set (k : string) (v : nat) (d : list (string * nat)) : list (string * nat) :=
  match d with
  | [] => [(k, v)]
  | (k', v') :: d' =>
      if String.eqb k k' then (k, v) :: d' else (k', v') :: dict_set k v d'
  end.

(** [del d[k]] for a key that is there. *)
Definition dict_del (k : string) (d : list (string * nat)) : list (string * nat) :=
  filter (fun kv => kv.1 ≠ k) d.

(** The loop [for url in vdb_urls], console output apart: the dict after the
    urls from thread number [next] on have been handled. *)
Fixpoint register (urls : list string) (next : nat) (d : list (string * nat))
  : list (string * nat) :=
  match urls with
  | [] => d
  | url :: rest => register rest (S next) (dict_set (PyStr.basename url) next d)
  end.

(** The threads started, one [Thread(...).start()] per url. *)
Definition started (urls : list string) : list (string * string) :=
  (fun url => (url, PyStr.basename url)) <$> urls.

Definition init_downloads (urls : list string) : M (list (string * nat)) :=
  foldr (fun url k => print (Initiating url) ;; k) (ret tt) urls ;;
  ret (register urls 0 []).

(** How a run of the main loop ends. *)
Inductive status : Type :=
| Finished              (* [while downloads] found the dict empty *)
| Hung                  (* still polling when the observation stops *)
| Crashed (e : exn).    (* an exception left the loop body *)

(** A unit handed out by the tracker: archive name, thread, and the poll
    at which the thread was seen dead. *)
Record yield : Type := mkYield {
  y_file : string;
  y_thread : nat;
  y_poll : nat
}.

(** The dict entry a yield was taken from. *)
Definition unit_of (y : yield) : string * nat := (y_file y, y_thread y).

Record run : Type := mkRun {
  yielded : list yield;
  how : status;
  final : state
}.

Section Tracker.

Context {W : World}.

(** [alive t th]: what [is_alive()] answers for thread [th] during the
    [t]-th pass over the dict (one pass per [time.sleep(1)]). *)
Variable alive : nat -> nat -> bool.

(** The [for file, thread in downloads.items()] pass: the first entry
    whose thread is not alive. *)
Definition first_done (t : nat) (d : list (string * nat)) : option (string * nat) :=
  List.find (fun kv => negb (alive t kv.2)) d.

(** [while not zip_file]: sleep, pass, again while the pass found nothing
    or found an entry whose name is falsy. [patience] bounds the passes
    observed. *)
Fixpoint wait (patience t : nat) (d : list (string * nat)) : option yield :=
  match patience with
  | O => None
  | S p =>
      match first_done (S t) d with
      | Some (file, th) =>
          if PyStr.truthy file then Some (mkYield file th (S t))
          else wait p (S t) d
      | None => wait p (S t) d
      end
  end.

Variable urls : list string.
Variable job : string -> M unit.

(** What joining thread [th] makes visible: its [download] has run, and
    an exception in it ended the thread, not the script. Each thread writes
    the one file named after its url, which the loop opens only after the
    join, so the write is placed at the join. A thread whose dict entry was
    overwritten is never joined; what it writes is not followed. *)
Definition joined (th : nat) (s : state) : state :=
  match urls !! th with
  | Some url => (download url (PyStr.basename url) s).2
  | None => s
  end.

(** [while downloads]: at most [n] turns are observed. *)
Fixpoint drain (n patience t : nat) (d : list (string * nat))
         (acc : list yield) (s : state) : run :=
  match d with
  | [] => mkRun acc Finished s
  | _ :: _ =>
      match n with
      | O => mkRun acc Hung s
      | S n' =>
          match wait patience t d with
          | None => mkRun acc Hung s
          | Some y =>
              match job (y_file y) (joined (y_thread y) s) with
              | (inl e, s') => mkRun (acc ++ [y]) (Crashed e) s'
              | (inr _, s') =>
                  drain n' patience (y_poll y) (dict_del (y_file y) d) (acc ++ [y]) s'
              end
          end
      end
  end.

Definition main_loop (n patience : nat) (s : state) : run :=
  match init_downloads urls s with
  | (inr d, s') => drain n patience 0 d [] s'
  | (inl e, s') => mkRun [] (Crashed e) s'
  end.

End Tracker.

(** [download_vdb_caches.py] *)
Definition download_vdb_caches {W : World} (alive : nat -> nat -> bool)
           (n patience : nat) (s : state) : run :=
  main_loop alive vdb_urls cache_job n patience s.

(** [read_write_test_compression.py] *)
Definition read_write_test_compression {W : World} (alive : nat -> nat -> bool)
           (n patience : nat) (s : state) : run :=
  main_loop alive vdb_urls test_job n patience
            (print (if vdb_has_ax then AxEnabled else AxDisabled) s).2.

(** [read_write_blosc_compression.py]; [vdbs] is what [glob.glob('*.vdb')]
    listed. *)
Fixpoint for_each (xs : list string) (body : string -> M unit) : M unit :=
  match xs with
  | [] => ret tt
  | x :: rest => body x ;; for_each rest body
  end.

Definition read_write_blosc_compression {W : World} (vdbs : list string) : M unit :=
  (if vdbs is [] then raise AssertionError else ret tt) ;;
  for_each vdbs blosc_job.

(** [glob.glob('*.vdb')] lists the names in the directory that end in
    [.vdb] and do not start with a dot (which [*] does not match), each
    once, in the order the operating system gives them. [glob_vdb] lists
    them in the order of the map; a run is stated for every list [vdbs]
    that is a permutation of it. *)
Definition matches_vdb (p : string) : bool :=
  negb (String.prefix "." p) &&
  String.eqb (String.substring (String.length p - 4) 4 p) ".vdb".

Definition glob_vdb (d : gmap string string) : list string :=
  filter (fun p => matches_vdb p = true) (map_to_list d).*1.

(** ** Observations *)

(** What [m] printed when started in [s]. *)
Definition said {A} (m : M A) (s : state) : list event :=
  drop (length (out s)) (out (m s).2).

(** Whether a computation returned rather than raised. *)
Definition returned {A} (r : exn + A) : bool :=
  match r with inr _ => true | inl _ => false end.

(** What [vdb.write] leaves at its destination. *)
Definition left_behind (r : write_result) : option string :=
  match r with
  | Written data => Some data
  | WriteFailed _ partial => partial
  end.

(** The directory once [vdb.write] has been asked to write to [dst] and has
    answered with [r]. *)
Definition after_write (dst : string) (r : write_result)
           (d : gmap string string) : gmap string string :=
  match left_behind r with
  | Some data => if PyStr.truthy dst then <[dst := data]> d else d
  | None => d
  end.

(** A state with nothing on the console and both variables empty. *)
Definition bare (d : gmap string string) : state := mkState d [] "" "".

(** An operation that reads and writes the directory only: it ignores the
    console and the variables and leaves them as they are. *)
Definition fs_only {A} (m : M A) : Prop :=
  ∀ s, m s = ((m (bare (fs s))).1,
              mkState (fs (m (bare (fs s))).2) (out s) (src_file s) (dst_file s)).

(** The directory once [p] is removed if it is a file. *)
Definition rm (p : string) (d : gmap string string) : gmap string string :=
  if is_file d p then delete p d else d.

(** No file outside [names]. *)
Definition only (names : list string) (d : gmap string string) : Prop :=
  ∀ q, q ∉ names -> d !! q = None.

(** A comparison tool that writes nothing. *)
Definition quiet_tool {W : World} : Prop :=
  ∀ d cmd, (vdb_ax d cmd).2 = d.

(** An archive for the job of [zip_file] that, if it can be opened at all,
    holds nothing but intact copies of the job's data file. *)
Definition tidy_archive {W : World} (zip_file data : string) : Prop :=
  ∀ ms m, zip_members data = inr ms -> m ∈ ms ->
          m_name m = test_name zip_file +:+ ".vdb" ∧ m_error m = None.

(** Every url of the catalog serves, if anything, a tidy archive. *)
Definition tidy_catalog {W : World} (urls : list string) : Prop :=
  ∀ url r, url ∈ urls -> requests_get url = inr r ->
           tidy_archive (PyStr.basename url) (received r.1).

(** Whether a path contains a slash. *)
Fixpoint has_slash (p : string) : bool :=
  match p with
  | EmptyString => false
  | String c r => Ascii.eqb c "/" || has_slash r
  end.

(** A computation that only ever adds to the console. *)
Definition appends {A} (m : M A) : Prop :=
  ∀ s, ∃ evs, out (m s).2 = out s ++ evs.

(** ** A small world to run the scripts in

    Archives are ["zip:<member>=<bytes>"], grid files ["vdb1:<name>"] (one
    float grid and the file metadata) or ["vdb3:<name>"] (a reader that
    answers with three elements); every url serves an archive of one
    single-grid data file named after the archive. *)
Module Demo.

Definition tail_from (n : nat) (s : string) : string :=
  String.substring n (String.length s - n) s.

Definition after_sep (sep s : string) : string :=
  tail_from (String.length (PyStr.before_sep sep s) + String.length sep) s.

Definition grid_named (nm : string) : Grid := mkGrid nm "float" [].

Definition readAll (data : string) : string + list item :=
  if String.prefix "vdb1:" data
  then inr [GridList [grid_named (tail_from 5 data)]; MetaDict []]
  else if String.prefix "vdb3:" data
  then inr [GridList [grid_named (tail_from 5 data)];
            GridList [grid_named "a"]; GridList [grid_named "b"]]
  else inl "not a VDB file".

Definition readAllGridMetadata (data : string) : string + list Grid :=
  if String.prefix "vdb1:" data || String.prefix "vdb3:" data
  then inr [grid_named (tail_from 5 data)]
  else inl "not a VDB file".

Definition write (u : item) : write_result :=
  match u with
  | GridList (g :: _) => Written ("vdb1:" +:+ name g)
  | _ => WriteFailed "nothing to write" None
  end.

Definition members (data : string) : string + list member :=
  if String.prefix "zip:" data
  then inr [mkMember (PyStr.before_sep "=" (tail_from 4 data))
                     (after_sep "=" (tail_from 4 data)) None]
  else inl "File is not a zip file".

Definition serve (url : string) : string + list string * option string :=
  inr (["zip:"; test_name (PyStr.basename url); ".vdb="; "vdb1:density"], None).

Definition world (ax : bool) (stdout : string) : World :=
  {| requests_get := serve;
     zip_members := members;
     vdb_readAll := readAll;
     vdb_readAllGridMetadata := readAllGridMetadata;
     vdb_write := write;
     vdb_has_ax := ax;
     vdb_ax := fun d _ => (inr (stdout, ""), d) |}.

(** The same world with a full disk: [vdb.write] fails and leaves two bytes
    behind. *)
Definition disk_full : World :=
  {| requests_get := serve;
     zip_members := members;
     vdb_readAll := readAll;
     vdb_readAllGridMetadata := readAllGridMetadata;
     vdb_write := fun _ => WriteFailed "No space left on device" (Some "vd");
     vdb_has_ax := true;
     vdb_ax := fun d _ => (inr ("", ""), d) |}.

Definition dir (files : list (string * string)) : state :=
  bare (list_to_map files).

Definition finished (_ _ : nat) : bool := false.

Definition two_models : list string :=
  [ "https://artifacts.aswf.io/io/aswf/openvdb/models/cube.vdb/1.0.0/cube.vdb-1.0.0.zip";
    "https://artifacts.aswf.io/io/aswf/openvdb/models/smoke1.vdb/1.0.0/smoke1.vdb-1.0.0.zip" ].

End Demo.

(** * Proofs *)

(** ** The helpers on the names the scripts meet *)

Example basename_of_url :
  PyStr.basename
    "https://artifacts.aswf.io/io/aswf/openvdb/models/smoke1.vdb/1.0.0/smoke1.vdb-1.0.0.zip"
  = "smoke1.vdb-1.0.0.zip".
Proof. reflexivity. Qed.

Example basename_without_slash : PyStr.basename "cube.vdb" = "cube.vdb".
Proof. reflexivity. Qed.

Example basename_trailing_slash : PyStr.basename "models/" = "".
Proof. reflexivity. Qed.

Example split_vdb : PyStr.before_sep ".vdb" "bunny_cloud.vdb-1.0.0.zip" = "bunny_cloud".
Proof. reflexivity. Qed.

Example split_without_sep : PyStr.before_sep ".vdb" "readme.txt" = "readme.txt".
Proof. reflexivity. Qed.

Example replace_blosc : PyStr.replace "_blosc" "" "smoke1_blosc.vdb" = "smoke1.vdb".
Proof. reflexivity. Qed.

Example replace_twice : PyStr.replace "ab" "c" "xababyab" = "xccyc".
Proof. reflexivity. Qed.

Example test_name_plain : test_name "armadillo.vdb-1.0.0.zip" = "armadillo".
Proof. reflexivity. Qed.

Example test_name_alias : test_name "torus_knot.vdb-1.0.0.zip" = "torus_knot_helix".
Proof. reflexivity. Qed.

Example blosc_name_alias : blosc_name "smoke1_blosc.vdb" = "smoke".
Proof. reflexivity. Qed.

Example blosc_name_plain : blosc_name "cube_blosc.vdb" = "cube_blosc".
Proof. reflexivity. Qed.

Example ax_code_text :
  ax_code "float@density" "float@density_output" =
  lf +:+ "        if (float@density != float@density_output) print(float@density-float@density_output);"
     +:+ lf +:+ "    ".
Proof. reflexivity. Qed.

Example dict_set_keeps_position :
  dict_set "a.zip" 2 [("a.zip", 0); ("b.zip", 1)] = [("a.zip", 2); ("b.zip", 1)].
Proof. reflexivity. Qed.

(** ** Running the monad *)

Lemma bind_returns {A B} (m : M A) (k : A -> M B) s a s' :
  m s = (inr a, s') -> bind m k s = k a s'.
Proof. intros H. unfold bind. now rewrite H. Qed.

Lemma bind_raises {A B} (m : M A) (k : A -> M B) s e s' :
  m s = (inl e, s') -> bind m k s = (inl e, s').
Proof. intros H. unfold bind. now rewrite H. Qed.

Lemma try_returns body handler s s' :
  body s = (inr tt, s') -> try_except body handler s = (inr tt, s').
Proof. intros H. unfold try_except. now rewrite H. Qed.

Lemma try_catches body handler s e s' :
  body s = (inl e, s') -> try_except body handler s = handler e s'.
Proof. intros H. unfold try_except. now rewrite H. Qed.

Lemma state_eta s : mkState (fs s) (out s) (src_file s) (dst_file s) = s.
Proof. now destruct s. Qed.

(** ** Files *)

Lemma is_file_empty_path d : is_file d "" = false.
Proof. reflexivity. Qed.

Lemma is_file_lookup d p :
  is_file d p = true <-> p ≠ "" ∧ is_Some (d !! p).
Proof.
  unfold is_file. rewrite andb_true_iff, bool_decide_eq_true.
  destruct p; simpl; intuition congruence.
Qed.

Lemma is_file_insert d p q data :
  p ≠ "" -> is_file (<[p := data]> d) q = is_file d q || bool_decide (q = p).
Proof.
  intros Hp. unfold is_file.
  destruct (decide (q = p)) as [->|Hne].
  - rewrite lookup_insert_eq, bool_decide_eq_true_2 by eauto.
    rewrite (bool_decide_eq_true_2 (p = p)) by done.
    destruct p; [done|]. simpl. now rewrite orb_true_r.
  - rewrite lookup_insert_ne by done.
    rewrite (bool_decide_eq_false_2 (q = p)) by done. now rewrite orb_false_r.
Qed.

Lemma is_file_delete d p q :
  is_file (delete p d) q = is_file d q && bool_decide (q ≠ p).
Proof.
  unfold is_file. destruct (decide (q = p)) as [->|Hne].
  - rewrite lookup_delete_eq.
    rewrite (bool_decide_eq_false_2 (is_Some None)) by (intros [? ?]; done).
    rewrite (bool_decide_eq_false_2 (p ≠ p)) by (intros ?; done).
    now rewrite !andb_false_r.
  - rewrite lookup_delete_ne by done.
    rewrite (bool_decide_eq_true_2 (q ≠ p)) by done. now rewrite andb_true_r.
Qed.

Lemma is_file_rm d p q :
  is_file (rm p d) q = is_file d q && bool_decide (q ≠ p).
Proof.
  unfold rm. destruct (is_file d p) eqn:Hp.
  - apply is_file_delete.
  - destruct (decide (q = p)) as [->|Hne].
    + rewrite Hp. reflexivity.
    + rewrite (bool_decide_eq_true_2 (q ≠ p)) by done. now rewrite andb_true_r.
Qed.

Lemma is_file_rm_same d p : is_file (rm p d) p = false.
Proof.
  rewrite is_file_rm, (bool_decide_eq_false_2 (p ≠ p)) by (intros ?; done).
  apply andb_false_r.
Qed.

Lemma rm_absent d p : is_file d p = false -> rm p d = d.
Proof. intros H. unfold rm. now rewrite H. Qed.

Lemma is_file_rm_absent d p q : is_file d q = false -> is_file (rm p d) q = false.
Proof. intros H. rewrite is_file_rm, H. reflexivity. Qed.

Lemma remove_if_file_spec p s :
  remove_if_file p s = (inr tt, mkState (rm p (fs s)) (out s) (src_file s) (dst_file s)).
Proof.
  unfold remove_if_file, isfile, remove, rm, bind, get_fs, ret, put_fs, raise.
  simpl. destruct (is_file (fs s) p) eqn:Hp; simpl.
  - now rewrite Hp.
  - now rewrite state_eta.
Qed.

Lemma cleanup3_spec src dst zip s :
  cleanup3 src dst zip s =
  (inr tt, mkState (rm zip (rm dst (rm src (fs s)))) (out s) (src_file s) (dst_file s)).
Proof.
  unfold cleanup3.
  rewrite (bind_returns _ _ _ _ _ (remove_if_file_spec _ _)).
  rewrite (bind_returns _ _ _ _ _ (remove_if_file_spec _ _)).
  now rewrite remove_if_file_spec.
Qed.

Lemma cleanup2_spec src dst s :
  cleanup2 src dst s =
  (inr tt, mkState (rm dst (rm src (fs s))) (out s) (src_file s) (dst_file s)).
Proof.
  unfold cleanup2.
  rewrite (bind_returns _ _ _ _ _ (remove_if_file_spec _ _)).
  now rewrite remove_if_file_spec.
Qed.


Lemma remove_absent_raises p s :
  is_file (fs s) p = false -> remove p s = (inl (OSError p), s).
Proof. intros H. unfold remove, bind, get_fs, raise. now rewrite H. Qed.

(** ** Operations that only touch the directory *)

Lemma fs_only_ret {A} (a : A) : fs_only (ret a).
Proof. intros s. unfold ret. simpl. now rewrite state_eta. Qed.

Lemma fs_only_raise {A} e : fs_only (@raise A e).
Proof. intros s. unfold raise. simpl. now rewrite state_eta. Qed.

Lemma fs_only_bind {A B} (m : M A) (k : A -> M B) :
  fs_only m -> (∀ a, fs_only (k a)) -> fs_only (bind m k).
Proof.
  intros Hm Hk s. unfold bind. rewrite (Hm s).
  destruct (m (bare (fs s))) as [[e|a] s1]; simpl; [reflexivity|].
  rewrite (Hk a (mkState _ _ _ _)). simpl.
  rewrite (Hk a s1). reflexivity.
Qed.

Lemma fs_only_get_fs : fs_only get_fs.
Proof. intros s. unfold get_fs. simpl. now rewrite state_eta. Qed.

Lemma fs_only_put_fs d : fs_only (put_fs d).
Proof. intros s. reflexivity. Qed.

Lemma fs_only_lift {A} (r : string + A) : fs_only (lift r).
Proof. destruct r; [apply fs_only_raise | apply fs_only_ret]. Qed.

Create HintDb frame.
#[local] Hint Resolve fs_only_ret fs_only_raise fs_only_get_fs fs_only_put_fs
  fs_only_lift : frame.

Ltac frame :=
  repeat first
    [ apply fs_only_bind; [|intros ?]
    | progress auto with frame
    | match goal with
      | |- fs_only (if ?b then _ else _) => destruct b
      | |- fs_only (match ?x with _ => _ end) => destruct x
      end ].

Lemma fs_only_read_file p : fs_only (read_file p).
Proof. unfold read_file. frame. Qed.

Lemma fs_only_write_file p data : fs_only (write_file p data).
Proof. unfold write_file. frame. Qed.

Lemma fs_only_getsize p : fs_only (getsize p).
Proof. unfold getsize. frame. Qed.

Lemma fs_only_isfile p : fs_only (isfile p).
Proof. unfold isfile. frame. Qed.

#[local] Hint Resolve fs_only_read_file fs_only_write_file fs_only_getsize
  fs_only_isfile : frame.

Section Frames.

Context {W : World}.

Lemma fs_only_extractall ms : fs_only (extractall ms).
Proof. induction ms as [|m rest IH]; simpl; frame. Qed.

Lemma fs_only_extract_zip zip : fs_only (extract_zip zip).
Proof.
  unfold extract_zip, zip_open. frame. apply fs_only_extractall.
Qed.

Lemma fs_only_readAll p : fs_only (readAll p).
Proof. unfold readAll. frame. Qed.

Lemma fs_only_readAllGridMetadata p : fs_only (readAllGridMetadata p).
Proof. unfold readAllGridMetadata. frame. Qed.

Lemma fs_only_write p u : fs_only (write p u).
Proof. unfold write. frame. Qed.

Lemma fs_only_download link file : fs_only (download link file).
Proof. unfold download. frame. Qed.

End Frames.

#[local] Hint Resolve fs_only_extract_zip fs_only_readAll
  fs_only_readAllGridMetadata fs_only_write fs_only_download : frame.

(** What a directory-only operation answers depends on the directory alone. *)
Lemma fs_only_result {A} (m : M A) s s' :
  fs_only m -> fs s = fs s' -> (m s).1 = (m s').1 ∧ fs (m s).2 = fs (m s').2.
Proof.
  intros Hm Heq. rewrite (Hm s), (Hm s'), Heq. simpl. split; reflexivity.
Qed.

Lemma fs_only_run {A} (m : M A) s :
  fs_only m ->
  m s = ((m s).1, mkState (fs (m s).2) (out s) (src_file s) (dst_file s)).
Proof. intros Hm. rewrite (Hm s) at 1. rewrite (Hm s). simpl. reflexivity. Qed.

(** Reading never changes the state. *)
Lemma read_file_state p s : (read_file p s).2 = s.
Proof.
  unfold read_file, bind, get_fs. simpl.
  destruct (fs s !! p); [destruct (PyStr.truthy p)|]; reflexivity.
Qed.

Lemma getsize_state p s : (getsize p s).2 = s.
Proof.
  unfold getsize, bind, get_fs. simpl.
  destruct (fs s !! p); [destruct (PyStr.truthy p)|]; reflexivity.
Qed.

Lemma readAll_state {W : World} p s : (readAll p s).2 = s.
Proof.
  unfold readAll, bind. pose proof (read_file_state p s) as H.
  destruct (read_file p s) as [[e|data] s1]; simpl in *; subst; [reflexivity|].
  destruct (vdb_readAll data); reflexivity.
Qed.

Lemma readAll_run {W : World} p s : readAll p s = ((readAll p s).1, s).
Proof. rewrite <- (readAll_state p s) at 3. now destruct (readAll p s). Qed.

Lemma getsize_run p s : getsize p s = ((getsize p s).1, s).
Proof. rewrite <- (getsize_state p s) at 3. now destruct (getsize p s). Qed.


(** ** The size report *)

Ltac tidy_out := repeat rewrite <- app_assoc; simpl.






(** ** The round trip *)

Ltac step :=
  cbv beta delta
      [bind print set_src set_dst get_src get_dst get_fs try_except ret raise];
  cbn [fs out src_file dst_file fst snd].

Section RoundTrip.

Context {W : World}.


Lemma round_trip_rejects label src dst grids s :
  (readAll src s).1 = inr grids -> (2 < length grids)%nat ->
  round_trip label src dst s =
  (inl (RuntimeError (multiple_grids_msg src)),
   mkState (fs s) (out s ++ [PrintGrids grids]) (src_file s) (dst_file s)).
Proof.
  intros Hr Hlen. unfold round_trip.
  rewrite (bind_returns _ _ s grids s) by (rewrite readAll_run, Hr; reflexivity).
  apply Nat.ltb_lt in Hlen. rewrite Hlen. reflexivity.
Qed.

Lemma round_trip_accepts label src dst grids s :
  (readAll src s).1 = inr grids -> (length grids <= 2)%nat ->
  round_trip label src dst s = write_and_report label src dst grids s.
Proof.
  intros Hr Hlen. unfold round_trip.
  rewrite (bind_returns _ _ s grids s) by (rewrite readAll_run, Hr; reflexivity).
  apply Nat.ltb_ge in Hlen. rewrite Hlen. reflexivity.
Qed.

Lemma diff_if_both_skips src dst s :
  is_file (fs s) src && is_file (fs s) dst = false ->
  diff_if_both src dst s = (inr tt, s).
Proof.
  intros H. unfold diff_if_both, isfile. step.
  destruct (is_file (fs s) src); simpl in *; [rewrite H|]; reflexivity.
Qed.

Lemma extract_zip_run zip s :
  extract_zip zip s =
  ((extract_zip zip s).1,
   mkState (fs (extract_zip zip s).2) (out s) (src_file s) (dst_file s)).
Proof. apply fs_only_run. auto with frame. Qed.

Lemma extract_zip_at zip s d o a b :
  fs s = d ->
  extract_zip zip (mkState d o a b) =
  ((extract_zip zip s).1, mkState (fs (extract_zip zip s).2) o a b).
Proof.
  intros <-. rewrite extract_zip_run. simpl.
  destruct (fs_only_result (extract_zip zip) (mkState (fs s) o a b) s)
    as [-> ->]; auto with frame.
Qed.

End RoundTrip.

Section Multiplicity.

Context {W : World}.





End Multiplicity.



(** ** What the round trip writes *)

Section Writes.

Context {W : World}.

Lemma write_spec dst u s :
  fs (write dst u s).2 = after_write dst (vdb_write u) (fs s) ∧
  out (write dst u s).2 = out s ∧
  src_file (write dst u s).2 = src_file s ∧
  dst_file (write dst u s).2 = dst_file s ∧
  (∀ msg, (write dst u s).1 ≠ inl (RuntimeError msg)).
Proof.
  unfold write, after_write, write_file, left_behind.
  destruct (vdb_write u) as [data|msg [data|]]; step;
    destruct (PyStr.truthy dst); cbn; repeat split; congruence.
Qed.

Lemma readAll_not_runtime p s msg : (readAll p s).1 ≠ inl (RuntimeError msg).
Proof.
  unfold readAll, read_file, lift. step.
  destruct (fs s !! p); [destruct (PyStr.truthy p)|]; cbn; try congruence.
  destruct (vdb_readAll s0); cbn; congruence.
Qed.

Lemma write_copy_spec dst grids s :
  fs (write_copy dst grids s).2 =
    match grids with
    | GridList (g :: gs) :: _ =>
        after_write dst (vdb_write (GridList (rename g :: gs))) (fs s)
    | _ => fs s
    end ∧
  out (write_copy dst grids s).2 = out s ∧
  src_file (write_copy dst grids s).2 = src_file s ∧
  dst_file (write_copy dst grids s).2 = dst_file s ∧
  (∀ msg, (write_copy dst grids s).1 ≠ inl (RuntimeError msg)).
Proof.
  unfold write_copy, index0, rename_first.
  destruct grids as [|[[|g gs]|kv] rest]; step;
    try (repeat split; congruence).
  destruct (write_spec dst (GridList (rename g :: gs)) s)
    as (Hfs & Hout & Hsrc & Hdst & Hrt).
  destruct (write dst (GridList (rename g :: gs)) s) as [[e|[]] s1];
    cbn [fst snd] in *.
  - repeat split; assumption.
  - rewrite readAll_run. pose proof (readAll_not_runtime dst s1) as Hnr.
    destruct (readAll dst s1).1; cbn [fst snd]; repeat split;
      try assumption; try congruence.
    intros msg H. apply (Hnr msg). congruence.
Qed.

Lemma report_sizes_frame label src dst s :
  fs (report_sizes label src dst s).2 = fs s ∧
  src_file (report_sizes label src dst s).2 = src_file s ∧
  dst_file (report_sizes label src dst s).2 = dst_file s ∧
  (∀ msg, (report_sizes label src dst s).1 ≠ inl (RuntimeError msg)).
Proof.
  unfold report_sizes. step.
  rewrite (getsize_run src s).
  destruct (getsize src s).1 as [e|n] eqn:Hn.
  { cbn. repeat split. intros msg H. injection H as ->.
    revert Hn. unfold getsize. step.
    destruct (fs s !! src); [destruct (PyStr.truthy src)|]; cbn; congruence. }
  rewrite (getsize_run dst s).
  destruct (getsize dst s).1 as [e|m] eqn:Hm.
  { cbn. repeat split. intros msg H. injection H as ->.
    revert Hm. unfold getsize. step.
    destruct (fs s !! dst); [destruct (PyStr.truthy dst)|]; cbn; congruence. }
  unfold comp_ratio. destruct m; step; cbn; repeat split; congruence.
Qed.

Lemma write_and_report_fs label src dst grids s :
  fs (write_and_report label src dst grids s).2 =
    match grids with
    | GridList (g :: gs) :: _ =>
        after_write dst (vdb_write (GridList (rename g :: gs))) (fs s)
    | _ => fs s
    end ∧
  (∀ msg, (write_and_report label src dst grids s).1 ≠ inl (RuntimeError msg)).
Proof.
  destruct (write_copy_spec dst grids s) as (Hfs & _ & _ & _ & Hrt).
  unfold write_and_report, bind.
  destruct (write_copy dst grids s) as [[e|[]] s1]; cbn in *.
  - split; [exact Hfs|]. exact Hrt.
  - destruct (report_sizes_frame label src dst s1) as (Hfs' & _ & _ & Hrt').
    split; [now rewrite Hfs'|exact Hrt'].
Qed.


End Writes.

Lemma length_append (a b : string) :
  String.length (a +:+ b) = (String.length a + String.length b)%nat.
Proof. induction a as [|c a IH]; simpl; [reflexivity|now rewrite IH]. Qed.


Lemma round_trip_cases {W : World} label src dst s :
  (∃ e, (readAll src s).1 = inl e ∧ round_trip label src dst s = (inl e, s)) ∨
  (∃ grids, (readAll src s).1 = inr grids ∧ (2 < length grids)%nat ∧
            fs (round_trip label src dst s).2 = fs s) ∨
  (∃ grids, (readAll src s).1 = inr grids ∧ (length grids <= 2)%nat ∧
            round_trip label src dst s = write_and_report label src dst grids s).
Proof.
  destruct (readAll src s).1 as [e|grids] eqn:Hr.
  - left. exists e. split; [reflexivity|].
    unfold round_trip. apply bind_raises. now rewrite readAll_run, Hr.
  - right. destruct (Nat.ltb_spec 2 (length grids)) as [Hlen|Hlen].
    + left. exists grids. repeat split; [assumption|].
      now rewrite (round_trip_rejects _ _ _ grids).
    + right. exists grids. repeat split; [assumption|].
      now apply round_trip_accepts.
Qed.





Example round_trip_two_elements :
  let W := Demo.world true "" in
  let r := round_trip "a.zip" "a.vdb" "a_blosc_compressed.vdb"
                      (Demo.dir [("a.vdb", "vdb1:density")]) in
  r.1 = inr tt ∧
  fs r.2 !! "a.vdb" = Some "vdb1:density" ∧
  fs r.2 !! "a_blosc_compressed.vdb" = Some "vdb1:density_output" ∧
  out r.2 = [Successful "a.zip"; InputSize 12; OutputSize 19; CompRatio (12 # 19)].
Proof. vm_compute. repeat split; reflexivity. Qed.

(** ** The comparison *)

Ltac not_in :=
  let H := fresh in
  intros H;
  repeat (apply elem_of_cons in H as [H|H]; [discriminate|]);
  now apply elem_of_nil in H.

Ltac is_in := rewrite ?elem_of_cons; auto.

Lemma said_app {A} (m : M A) s evs :
  out (m s).2 = out s ++ evs -> said m s = evs.
Proof. intros H. unfold said. rewrite H. apply drop_app_length. Qed.

Section Compare.

Context {W : World}.

Lemma fingerprint_run p s : fingerprint p s = ((fingerprint p s).1, s).
Proof.
  unfold fingerprint, readAllGridMetadata, read_file, index0, lift. step.
  destruct (fs s !! p); [destruct (PyStr.truthy p)|]; cbn; try reflexivity.
  destruct (vdb_readAllGridMetadata s0) as [msg|[|g gs]]; reflexivity.
Qed.

Lemma fingerprint_same_fs p s s' :
  fs s = fs s' -> (fingerprint p s).1 = (fingerprint p s').1.
Proof.
  intros H. unfold fingerprint, readAllGridMetadata, read_file, index0, lift.
  step. rewrite H.
  destruct (fs s' !! p); [destruct (PyStr.truthy p)|]; cbn; try reflexivity.
  destruct (vdb_readAllGridMetadata s0) as [msg|[|g gs]]; reflexivity.
Qed.

(** What [diff] prints, case by case. *)
Lemma diff_said src dst s :
  said (diff src dst) s =
  match (fingerprint src s).1, (fingerprint dst s).1 with
  | inr a, inr b =>
      if String.eqb a b then [Comparing]
      else match (vdb_ax (fs s) ["vdb_ax"; src; dst; "-s"; ax_code a b]).1 with
           | inr (stdout, _) =>
               if PyStr.truthy stdout then [Comparing; Differ src dst]
               else [Comparing]
           | inl _ => [Comparing]
           end
  | _, _ => [Comparing]
  end.
Proof.
  apply said_app. unfold diff. step.
  set (s1 := mkState (fs s) (out s ++ [Comparing]) (src_file s) (dst_file s)).
  rewrite (fingerprint_run src s1), (fingerprint_same_fs src s1 s) by reflexivity.
  destruct (fingerprint src s).1 as [e|a]; [reflexivity|].
  rewrite (fingerprint_run dst s1), (fingerprint_same_fs dst s1 s) by reflexivity.
  destruct (fingerprint dst s).1 as [e|b]; [reflexivity|].
  destruct (String.eqb a b); [reflexivity|].
  unfold popen, put_fs, lift. subst s1. step.
  destruct (vdb_ax (fs s) ["vdb_ax"; src; dst; "-s"; ax_code a b]) as [[msg|[o e]] d'];
    cbn; [reflexivity|].
  destruct (PyStr.truthy o); cbn; tidy_out; reflexivity.
Qed.

Lemma diff_if_both_said src dst s :
  said (diff_if_both src dst) s =
  if is_file (fs s) src && is_file (fs s) dst then said (diff src dst) s else [].
Proof.
  destruct (is_file (fs s) src && is_file (fs s) dst) eqn:Hb.
  - unfold said, diff_if_both, isfile. step.
    apply andb_true_iff in Hb as [-> ->]. reflexivity.
  - unfold said. rewrite diff_if_both_skips by assumption. cbn.
    apply drop_all.
Qed.

Lemma comparing_in_diff src dst s : Comparing ∈ said (diff src dst) s.
Proof.
  rewrite diff_said.
  repeat match goal with
         | |- context [match ?x with _ => _ end] => destruct x
         end; is_in.
Qed.

End Compare.

(** C8, as amended. A call of [diff] shows as its first [print],
    [Comparing]. In [read_write_blosc_compression.py] the comparison
    runs exactly when both files are there once the validator is done; in
    [read_write_test_compression.py] it runs exactly when, in addition,
    [pyopenvdb] has its [ax] module. A comparison prints the mismatch line
    exactly when both fingerprints could be read and differ, the tool was
    spawned, and its standard output is not empty: a tool that cannot be
    spawned, or that prints nothing, gives no mismatch line. *)
Theorem comparison_gate_and_verdict {W : World} :
  (∀ src s,
      Comparing ∈ said (blosc_compare src) s <->
      is_file (fs s) src = true ∧ is_file (fs s) (blosc_dst src) = true) ∧
  (∀ s,
      Comparing ∈ said test_compare s <->
      vdb_has_ax = true ∧
      is_file (fs s) (src_file s) = true ∧ is_file (fs s) (dst_file s) = true) ∧
  (∀ src dst s,
      Differ src dst ∈ said (diff src dst) s <->
      ∃ a b stdout stderr,
        (fingerprint src s).1 = inr a ∧
        (fingerprint dst s).1 = inr b ∧
        a ≠ b ∧
        (vdb_ax (fs s) ["vdb_ax"; src; dst; "-s"; ax_code a b]).1
          = inr (stdout, stderr) ∧
        stdout ≠ "").
Proof.
  split; [|split].
  - intros src s. unfold blosc_compare. rewrite diff_if_both_said.
    rewrite <- andb_true_iff.
    destruct (is_file (fs s) src && is_file (fs s) (blosc_dst src)).
    + split; [reflexivity|]. intros _. apply comparing_in_diff.
    + split; [|discriminate]. intros H. now apply elem_of_nil in H.
  - intros s.
    assert (Hsaid : said test_compare s =
                    if vdb_has_ax then said (diff_if_both (src_file s) (dst_file s)) s
                    else []).
    { unfold said, test_compare. step. destruct vdb_has_ax; [reflexivity|].
      cbn. apply drop_all. }
    rewrite Hsaid, diff_if_both_said.
    destruct vdb_has_ax.
    + rewrite <- andb_true_iff.
      destruct (is_file (fs s) (src_file s) && is_file (fs s) (dst_file s)).
      * split; [intros _; split; reflexivity|]. intros _. apply comparing_in_diff.
      * split; [|intros [_ ?]; discriminate]. intros H. now apply elem_of_nil in H.
    + split; [|intros [? _]; discriminate]. intros H. now apply elem_of_nil in H.
  - intros src dst s. rewrite diff_said.
    destruct (fingerprint src s).1 as [e|a].
    { split; [not_in|]. intros (? & ? & ? & ? & ? & _). discriminate. }
    destruct (fingerprint dst s).1 as [e|b].
    { split; [not_in|]. intros (? & ? & ? & ? & _ & ? & _). discriminate. }
    destruct (String.eqb_spec a b) as [->|Hne].
    { split; [not_in|]. intros (? & ? & ? & ? & Ha & Hb & Hab & _).
      congruence. }
    destruct (vdb_ax (fs s) ["vdb_ax"; src; dst; "-s"; ax_code a b]).1
      as [msg|[o e]] eqn:Hax.
    { split; [not_in|].
      intros (a' & b' & o & e & Ha & Hb & _ & Hr & _).
      injection Ha as <-. injection Hb as <-. rewrite Hax in Hr. discriminate. }
    destruct o as [|c o]; cbn [PyStr.truthy].
    + split; [not_in|].
      intros (a' & b' & o' & e' & Ha & Hb & _ & Hr & Ho).
      injection Ha as <-. injection Hb as <-. rewrite Hax in Hr.
      injection Hr as <- <-. now destruct Ho.
    + split; [|is_in]. intros _.
      exists a, b, (String c o), e. repeat split; try assumption. discriminate.
Qed.

(** C8 as stated fails in [read_write_test_compression.py]: without the
    [ax] module both files are there once the validator is done, and no
    comparison is made. *)
Lemma no_comparison_without_ax :
  let W := Demo.world false "differ" in
  let s0 := Demo.dir [("a.vdb-1.0.0.zip", "zip:a.vdb=vdb1:density")] in
  let s1 := (test_validate "a.vdb-1.0.0.zip" s0).2 in
  is_file (fs s1) (src_file s1) = true ∧
  is_file (fs s1) (dst_file s1) = true ∧
  said test_compare s1 = [] ∧
  said (test_job "a.vdb-1.0.0.zip") s0 =
    [Separator; Processing "a.vdb-1.0.0.zip"; Extracting "a.vdb-1.0.0.zip";
     Successful "a.vdb-1.0.0.zip"; InputSize 12; OutputSize 19;
     CompRatio (12 # 19); CleaningFiles "a"].
Proof. vm_compute. repeat split; reflexivity. Qed.

Example mismatch_reported :
  let W := Demo.world true "differ" in
  said (blosc_job "a.vdb") (Demo.dir [("a.vdb", "vdb1:density")]) =
    [Separator; Processing "a.vdb"; Successful "a.vdb"; InputSize 12;
     OutputSize 19; CompRatio (12 # 19); Comparing;
     Differ "a.vdb" "a_output.vdb"; CleaningFiles "a"].
Proof. vm_compute. reflexivity. Qed.

Example no_mismatch_on_empty_stdout :
  let W := Demo.world true "" in
  said (blosc_job "a.vdb") (Demo.dir [("a.vdb", "vdb1:density")]) =
    [Separator; Processing "a.vdb"; Successful "a.vdb"; InputSize 12;
     OutputSize 19; CompRatio (12 # 19); Comparing; CleaningFiles "a"].
Proof. vm_compute. reflexivity. Qed.

(** ** The archive *)

Section Archive.

Context {W : World}.

Lemma write_file_keeps p data q s :
  is_file (fs s) q = true -> is_file (fs (write_file p data s).2) q = true.
Proof.
  intros Hq. unfold write_file. step.
  destruct (PyStr.truthy p) eqn:Hp; cbn; [|assumption].
  rewrite is_file_insert, Hq by (intros ->; discriminate). reflexivity.
Qed.

Lemma extractall_keeps ms q s :
  is_file (fs s) q = true -> is_file (fs (extractall ms s).2) q = true.
Proof.
  revert s. induction ms as [|m rest IH]; intros s Hq; [assumption|].
  cbn [extractall]. unfold bind.
  pose proof (write_file_keeps (m_name m) (m_data m) q s Hq) as Hw.
  destruct (write_file (m_name m) (m_data m) s) as [[e|[]] s1]; cbn in *;
    [assumption|].
  destruct (m_error m); [assumption|]. now apply IH.
Qed.

Lemma zip_open_run p s : (zip_open p s).2 = s.
Proof.
  unfold zip_open, bind. pose proof (read_file_state p s) as H.
  destruct (read_file p s) as [[e|data] s1]; cbn in *; subst; [reflexivity|].
  destruct (zip_members data); reflexivity.
Qed.

Lemma zip_open_needs_file p s :
  is_file (fs s) p = false -> zip_open p s = (inl (OSError p), s).
Proof.
  intros H. unfold zip_open, read_file. step.
  unfold is_file in H. destruct (fs s !! p) eqn:Hl.
  - destruct (PyStr.truthy p); [|reflexivity]. exfalso.
    rewrite andb_true_l in H. apply bool_decide_eq_false in H.
    apply H. eauto.
  - reflexivity.
Qed.

Lemma extract_zip_keeps zip q s :
  is_file (fs s) q = true -> is_file (fs (extract_zip zip s).2) q = true.
Proof.
  intros Hq. unfold extract_zip, bind.
  pose proof (zip_open_run zip s) as Hs.
  destruct (zip_open zip s) as [[e|ms] s1]; cbn in *; subst; [assumption|].
  now apply extractall_keeps.
Qed.

Lemma extract_zip_needs_archive zip s :
  is_file (fs s) zip = false -> extract_zip zip s = (inl (OSError zip), s).
Proof.
  intros H. unfold extract_zip.
  now rewrite (bind_raises _ _ _ _ _ (zip_open_needs_file _ _ H)).
Qed.

(** An extraction, failed or not, leaves the archive where it was. *)
Lemma extract_zip_archive zip s :
  is_file (fs (extract_zip zip s).2) zip = is_file (fs s) zip.
Proof.
  destruct (is_file (fs s) zip) eqn:Hz.
  - now apply extract_zip_keeps.
  - now rewrite extract_zip_needs_archive.
Qed.

Lemma extracted_archive_was_there zip s :
  returned (extract_zip zip s).1 = true -> is_file (fs s) zip = true.
Proof.
  destruct (is_file (fs s) zip) eqn:Hz; [reflexivity|].
  now rewrite extract_zip_needs_archive.
Qed.

Lemma cache_job_spec zip s :
  cache_job zip s =
  (inr tt,
   match (extract_zip zip s).1 with
   | inr _ => mkState (rm zip (fs (extract_zip zip s).2))
                      (out s ++ [Extracting zip; CleaningArchive zip])
                      (src_file s) (dst_file s)
   | inl e => mkState (fs (extract_zip zip s).2)
                      (out s ++ [Extracting zip; Caught e])
                      (src_file s) (dst_file s)
   end).
Proof.
  unfold cache_job. step.
  rewrite (extract_zip_at zip s) by reflexivity.
  destruct (extract_zip zip s).1 as [e|[]]; step.
  - tidy_out. reflexivity.
  - rewrite remove_if_file_spec. cbn [fs out src_file dst_file].
    tidy_out. reflexivity.
Qed.

Lemma test_validate_returns zip s : (test_validate zip s).1 = inr tt.
Proof.
  unfold test_validate. step.
  match goal with
  | |- (let (_, _) := ?x in _).1 = _ => destruct x as [[e|[]] s1]
  end; reflexivity.
Qed.

(** When extraction fails the two variables are still empty. *)
Lemma test_validate_failed_extraction zip s e :
  (extract_zip zip s).1 = inl e ->
  test_validate zip s =
  (inr tt,
   mkState (fs (extract_zip zip s).2)
           (out s ++ [Separator; Processing zip; Extracting zip; Caught e])
           "" "").
Proof.
  intros Hx. unfold test_validate. step.
  rewrite (extract_zip_at zip s) by reflexivity. rewrite Hx. step.
  tidy_out. reflexivity.
Qed.

Lemma round_trip_variables label src dst s :
  src_file (round_trip label src dst s).2 = src_file s ∧
  dst_file (round_trip label src dst s).2 = dst_file s.
Proof.
  destruct (round_trip_cases label src dst s)
    as [(e & _ & ->)|[(grids & Hr & Hlen & _)|(grids & _ & _ & ->)]].
  - split; reflexivity.
  - rewrite (round_trip_rejects _ _ _ grids) by assumption. split; reflexivity.
  - destruct (write_copy_spec dst grids s) as (_ & _ & Hs & Hd & _).
    unfold write_and_report, bind.
    destruct (write_copy dst grids s) as [[e|[]] s1]; cbn in *; [now split|].
    destruct (report_sizes_frame label src dst s1) as (_ & Hs' & Hd' & _).
    split; congruence.
Qed.

Lemma test_validate_variables zip s :
  returned (extract_zip zip s).1 = true ->
  src_file (test_validate zip s).2 = test_name zip +:+ ".vdb" ∧
  dst_file (test_validate zip s).2 = test_name zip +:+ "_blosc_compressed.vdb".
Proof.
  intros Hx. unfold test_validate. step.
  rewrite (extract_zip_at zip s) by reflexivity.
  destruct (extract_zip zip s).1 as [e|[]]; [discriminate|]. step.
  match goal with
  | |- context [round_trip ?l ?a ?b ?st] =>
      destruct (round_trip_variables l a b st) as [Hs Hd];
      destruct (round_trip l a b st) as [[e|[]] s1]
  end; cbn in *; split; assumption.
Qed.

Lemma test_cleanup_spec zip s :
  test_cleanup zip s =
  (inr tt,
   mkState (rm zip (rm (dst_file s) (rm (src_file s) (fs s))))
           (out s ++ [CleaningFiles (test_name zip)])
           (src_file s) (dst_file s)).
Proof. unfold test_cleanup. step. now rewrite cleanup3_spec. Qed.

Lemma blosc_cleanup_spec src s :
  blosc_cleanup src s =
  (inr tt,
   mkState (rm (blosc_dst src) (rm src (fs s)))
           (out s ++ [CleaningFiles (blosc_name src)])
           (src_file s) (dst_file s)).
Proof. unfold blosc_cleanup. step. now rewrite cleanup2_spec. Qed.

(** The comparison leaves the two variables alone. *)
Lemma test_compare_variables s :
  src_file (test_compare s).2 = src_file s ∧
  dst_file (test_compare s).2 = dst_file s.
Proof.
  unfold test_compare. step. destruct vdb_has_ax; [|now split].
  unfold diff_if_both, isfile. step.
  destruct (is_file (fs s) (src_file s)); cbn; [|now split].
  destruct (is_file (fs s) (dst_file s)); cbn; [|now split].
  unfold diff. step.
  set (s1 := mkState (fs s) (out s ++ [Comparing]) (src_file s) (dst_file s)).
  rewrite (fingerprint_run (src_file s) s1).
  destruct (fingerprint (src_file s) s1).1 as [e|a]; [now split|].
  rewrite (fingerprint_run (dst_file s) s1).
  destruct (fingerprint (dst_file s) s1).1 as [e|b]; [now split|].
  destruct (String.eqb a b); [now split|].
  unfold popen, put_fs, lift. subst s1. step.
  match goal with
  | |- context [vdb_ax ?d ?c] => destruct (vdb_ax d c) as [[msg|[o e']] d']
  end; cbn; [now split|].
  destruct (PyStr.truthy o); now split.
Qed.

(** A job that returns has been through its Cleanup. *)
Lemma test_job_returned zip s :
  returned (test_job zip s).1 = true ->
  ∃ s2, test_job zip s = test_cleanup zip s2 ∧
        src_file s2 = src_file (test_validate zip s).2 ∧
        dst_file s2 = dst_file (test_validate zip s).2.
Proof.
  unfold test_job, bind. intros H.
  destruct (test_validate zip s) as [[e|[]] s1]; [discriminate|].
  cbn [snd]. pose proof (test_compare_variables s1) as Hvars.
  destruct (test_compare s1) as [[e|[]] s2]; [discriminate|].
  exists s2. split; [reflexivity|]. exact Hvars.
Qed.

Lemma blosc_job_returned src s :
  returned (blosc_job src s).1 = true ->
  ∃ s2, blosc_job src s = blosc_cleanup src s2.
Proof.
  unfold blosc_job, bind. intros H.
  destruct (blosc_validate src s) as [[e|[]] s1]; [discriminate|].
  destruct (blosc_compare src s1) as [[e|[]] s2]; [discriminate|].
  now exists s2.
Qed.

End Archive.

(** C2, as amended. Extraction itself, failed or not, leaves the archive
    where it was. [download_vdb_caches.py] deletes the archive if and only if
    the extraction succeeded: after a failed extraction the archive is as
    present as before. [read_write_test_compression.py] deletes it in
    Cleanup, whatever the extraction did: a job that returns has no archive
    left, and a job whose extraction failed does return. *)
Theorem archive_removal {W : World} (zip : string) (s : state) :
  is_file (fs (extract_zip zip s).2) zip = is_file (fs s) zip ∧
  is_file (fs (cache_job zip s).2) zip =
    (if returned (extract_zip zip s).1 then false else is_file (fs s) zip) ∧
  (returned (test_job zip s).1 = true ->
   is_file (fs (test_job zip s).2) zip = false) ∧
  (returned (extract_zip zip s).1 = false ->
   returned (test_job zip s).1 = true).
Proof.
  split; [apply extract_zip_archive|]. split; [|split].
  - rewrite cache_job_spec. cbn [snd].
    destruct (extract_zip zip s).1 as [e|[]] eqn:Hx; cbn [returned fs].
    + apply extract_zip_archive.
    + apply is_file_rm_same.
  - intros Hret. destruct (test_job_returned zip s Hret) as (s2 & -> & _).
    rewrite test_cleanup_spec. cbn [snd fs]. apply is_file_rm_same.
  - intros Hx. destruct (extract_zip zip s).1 as [e|[]] eqn:He; [|discriminate].
    unfold test_job.
    rewrite (bind_returns _ _ _ _ _ (test_validate_failed_extraction _ _ _ He)).
    unfold test_compare. step.
    assert (Hskip : ∀ s', (if vdb_has_ax then diff_if_both "" "" else λ s0, (inr tt, s0)) s'
                          = (inr tt, s')).
    { intros s'. destruct vdb_has_ax; [|reflexivity].
      now apply diff_if_both_skips. }
    rewrite Hskip. now rewrite test_cleanup_spec.
Qed.

Lemma archive_removal_witness :
  let W := Demo.world true "" in
  let good := Demo.dir [("a.vdb-1.0.0.zip", "zip:a.vdb=vdb1:density")] in
  let bad := Demo.dir [("a.vdb-1.0.0.zip", "not an archive")] in
  is_file (fs (test_job "a.vdb-1.0.0.zip" good).2) "a.vdb-1.0.0.zip" = false ∧
  returned (test_job "a.vdb-1.0.0.zip" bad).1 = true.
Proof.
  intros W good bad. split.
  - apply (@archive_removal W "a.vdb-1.0.0.zip" good). vm_compute. reflexivity.
  - apply (@archive_removal W "a.vdb-1.0.0.zip" bad). vm_compute. reflexivity.
Defined.

(** C2 as stated fails in [read_write_test_compression.py]: the archive of a
    job whose extraction failed is deleted all the same, by Cleanup. *)
Lemma archive_removed_after_failed_extraction :
  let W := Demo.world true "" in
  let s := Demo.dir [("a.vdb-1.0.0.zip", "not an archive")] in
  (extract_zip "a.vdb-1.0.0.zip" s).1 = inl (External "File is not a zip file") ∧
  is_file (fs s) "a.vdb-1.0.0.zip" = true ∧
  is_file (fs (test_job "a.vdb-1.0.0.zip" s).2) "a.vdb-1.0.0.zip" = false ∧
  said (test_job "a.vdb-1.0.0.zip") s =
    [Separator; Processing "a.vdb-1.0.0.zip"; Extracting "a.vdb-1.0.0.zip";
     Caught (External "File is not a zip file"); CleaningFiles "a"].
Proof. vm_compute. repeat split; reflexivity. Qed.

(** ** The dict of downloads *)

Lemma dict_del_elem (k : string) (d : list (string * nat)) kv :
  kv ∈ dict_del k d <-> kv.1 ≠ k ∧ kv ∈ d.
Proof. unfold dict_del. now rewrite list_elem_of_filter. Qed.

Lemma dict_del_absent (k : string) (d : list (string * nat)) :
  k ∉ d.*1 -> dict_del k d = d.
Proof.
  unfold dict_del. induction d as [|[k' v'] d IH]; intros Hk; [reflexivity|].
  rewrite filter_cons. cbn [fst].
  cbn [fmap list_fmap fst] in Hk. apply not_elem_of_cons in Hk as [Hne Hk].
  destruct (decide (k' ≠ k)) as [|Hn]; [|destruct Hn; congruence].
  f_equal. now apply IH.
Qed.

Lemma dict_del_values (k : string) (d : list (string * nat)) :
  NoDup d.*2 -> NoDup (dict_del k d).*2.
Proof.
  unfold dict_del. induction d as [|[k' v'] d IH]; [intros; constructor|].
  rewrite filter_cons. cbn [fmap list_fmap snd]. intros [Hv Hd]%NoDup_cons.
  cbn [fst]. destruct (decide (k' ≠ k)); [|now apply IH].
  cbn [fmap list_fmap snd]. apply NoDup_cons. split; [|now apply IH].
  intros Hin. apply Hv. apply list_elem_of_fmap in Hin as ([k2 v2] & -> & Hin).
  apply list_elem_of_filter in Hin as [_ Hin].
  apply list_elem_of_fmap. now exists (k2, v2).
Qed.

Lemma dict_del_keys (k : string) (d : list (string * nat)) :
  NoDup d.*1 -> NoDup (dict_del k d).*1.
Proof.
  unfold dict_del. induction d as [|[k' v'] d IH]; [intros; constructor|].
  rewrite filter_cons. cbn [fmap list_fmap fst]. intros [Hv Hd]%NoDup_cons.
  cbn [fst]. destruct (decide (k' ≠ k)); [|now apply IH].
  cbn [fmap list_fmap fst]. apply NoDup_cons. split; [|now apply IH].
  intros Hin. apply Hv. apply list_elem_of_fmap in Hin as ([k2 v2] & -> & Hin).
  apply list_elem_of_filter in Hin as [_ Hin].
  apply list_elem_of_fmap. now exists (k2, v2).
Qed.

Lemma dict_del_length (k : string) (v : nat) (d : list (string * nat)) :
  NoDup d.*1 -> (k, v) ∈ d -> length d = S (length (dict_del k d)).
Proof.
  induction d as [|[k' v'] d IH]; intros Hnd Hin.
  - now apply elem_of_nil in Hin.
  - cbn [fmap list_fmap fst] in Hnd. apply NoDup_cons in Hnd as [Hk Hd].
    unfold dict_del. rewrite filter_cons. cbn [fst length].
    destruct (decide (k' ≠ k)) as [Hne|Heq].
    + cbn [length]. f_equal. apply IH; [assumption|].
      apply elem_of_cons in Hin as [[= <- <-]|Hin]; [now destruct Hne|assumption].
    + assert (k' = k) as -> by (destruct (decide (k' = k)); [assumption|now destruct Heq]).
      f_equal. fold (dict_del k d). now rewrite dict_del_absent.
Qed.

(** Registering thread [n] under [k] in a dict that holds earlier threads
    only: still no key twice and no thread twice. *)
Lemma dict_set_tracked (k : string) (n : nat) (d : list (string * nat)) :
  NoDup d.*1 -> NoDup d.*2 -> (∀ kv, kv ∈ d -> kv.2 < n) ->
  NoDup (dict_set k n d).*1 ∧ NoDup (dict_set k n d).*2 ∧
  (∀ kv, kv ∈ dict_set k n d -> kv.2 < S n) ∧
  (∀ kv, kv ∈ dict_set k n d -> kv = (k, n) ∨ kv ∈ d) ∧
  (∀ x, x ∈ (dict_set k n d).*1 <-> x = k ∨ x ∈ d.*1).
Proof.
  induction d as [|[k' v'] d IH]; cbn [dict_set fmap list_fmap fst snd];
    intros Hk Hv Hlt.
  - repeat split; try (apply NoDup_singleton).
    + intros kv ->%list_elem_of_singleton. cbn. lia.
    + intros kv ->%list_elem_of_singleton. now left.
    + intros ->%list_elem_of_singleton. now left.
    + intros [->|[]%elem_of_nil]. apply list_elem_of_singleton. reflexivity.
  - apply NoDup_cons in Hk as [Hk' Hk]. apply NoDup_cons in Hv as [Hv' Hv].
    assert (Hlt' : ∀ kv, kv ∈ d -> kv.2 < n)
      by (intros kv Hin; apply Hlt, elem_of_cons; now right).
    destruct (String.eqb_spec k k') as [<-|Hne];
      cbn [fmap list_fmap fst snd].
    + repeat split.
      * apply NoDup_cons. now split.
      * apply NoDup_cons. split; [|assumption].
        intros ([k2 v2] & Heq & Hin)%list_elem_of_fmap. cbn in Heq. subst v2.
        specialize (Hlt' _ Hin). cbn in Hlt'. lia.
      * intros kv [->|Hin]%elem_of_cons; [cbn; lia|].
        specialize (Hlt' _ Hin). lia.
      * intros kv [->|Hin]%elem_of_cons; [now left|].
        right. apply elem_of_cons. now right.
      * intros [->|Hin]%elem_of_cons; [now left|].
        right. apply elem_of_cons. now right.
      * intros [->|[->|Hin]%elem_of_cons]; apply elem_of_cons; auto.
    + destruct (IH Hk Hv Hlt') as (IHk & IHv & IHlt & IHin & IHkeys).
      repeat split.
      * apply NoDup_cons. split; [|assumption].
        intros [->|Hin]%IHkeys; [congruence|contradiction].
      * apply NoDup_cons. split; [|assumption].
        intros ([k2 v2] & Heq & Hin)%list_elem_of_fmap. cbn in Heq. subst v2.
        destruct (IHin _ Hin) as [[= -> ->]|Hin'].
        -- specialize (Hlt (k', n)). cbn in Hlt.
           assert (n < n) by (apply Hlt, elem_of_cons; now left). lia.
        -- apply Hv'. apply list_elem_of_fmap. now exists (k2, v').
      * intros kv [->|Hin]%elem_of_cons; [|now apply IHlt].
        assert (v' < n) by (apply (Hlt (k', v')), elem_of_cons; now left).
        cbn. lia.
      * intros kv [->|Hin]%elem_of_cons.
        -- right. apply elem_of_cons. now left.
        -- destruct (IHin _ Hin) as [->|Hin']; [now left|].
           right. apply elem_of_cons. now right.
      * intros [->|Hin]%elem_of_cons.
        -- right. apply elem_of_cons. now left.
        -- apply IHkeys in Hin as [->|Hin]; [now left|].
           right. apply elem_of_cons. now right.
      * intros [->|[->|Hin]%elem_of_cons]; apply elem_of_cons.
        -- right. apply IHkeys. now left.
        -- now left.
        -- right. apply IHkeys. now right.
Qed.

Lemma register_tracked (urls : list string) (n : nat) (d : list (string * nat)) :
  NoDup d.*1 -> NoDup d.*2 -> (∀ kv, kv ∈ d -> kv.2 < n) ->
  NoDup (register urls n d).*1 ∧ NoDup (register urls n d).*2 ∧
  (∀ kv, kv ∈ register urls n d ->
         kv ∈ d ∨ ∃ i url, urls !! i = Some url ∧ kv = (PyStr.basename url, n + i)).
Proof.
  revert n d. induction urls as [|url rest IH]; intros n d Hk Hv Hlt;
    cbn [register].
  - repeat split; try assumption. intros kv Hin. now left.
  - destruct (dict_set_tracked (PyStr.basename url) n d Hk Hv Hlt)
      as (Hk' & Hv' & Hlt' & Hin' & _).
    destruct (IH (S n) _ Hk' Hv' Hlt') as (IHk & IHv & IHin).
    repeat split; try assumption.
    intros kv Hin. destruct (IHin kv Hin) as [Hd|(i & url' & Hi & ->)].
    + destruct (Hin' kv Hd) as [->|Hd']; [|now left].
      right. exists 0, url. split; [reflexivity|]. now rewrite Nat.add_0_r.
    + right. exists (S i), url'. split; [exact Hi|].
      now rewrite Nat.add_succ_r.
Qed.

(** Every entry of the initial dict is a started thread under the name of
    the archive it fetches, and no name and no thread occurs twice. *)
Lemma register_initial (urls : list string) :
  NoDup (register urls 0 []).*1 ∧ NoDup (register urls 0 []).*2 ∧
  (∀ kv, kv ∈ register urls 0 [] ->
         ∃ url, urls !! kv.2 = Some url ∧ PyStr.basename url = kv.1).
Proof.
  assert (Hnil : ∀ kv : string * nat, kv ∈ [] -> kv.2 < 0)
    by (intros kv []%elem_of_nil).
  destruct (register_tracked urls 0 [] (NoDup_nil_2 : NoDup [].*1)
              (NoDup_nil_2 : NoDup [].*2) Hnil) as (Hk & Hv & Hin).
  split; [assumption|]. split; [assumption|].
  intros kv H. destruct (Hin kv H) as [[]%elem_of_nil|(i & url & Hi & ->)].
  now exists url.
Qed.

Lemma init_downloads_spec (urls : list string) s :
  init_downloads urls s =
  (inr (register urls 0 []),
   mkState (fs s) (out s ++ (Initiating <$> urls)) (src_file s) (dst_file s)).
Proof.
  unfold init_downloads.
  assert (H : ∀ s, foldr (λ url k, bind (print (Initiating url)) (λ _, k)) (ret tt) urls s
                  = (inr tt, mkState (fs s) (out s ++ (Initiating <$> urls))
                                     (src_file s) (dst_file s))).
  { clear s. induction urls as [|url rest IH]; intros s; cbn [foldr fmap list_fmap].
    - unfold ret. now rewrite app_nil_r, state_eta.
    - step. rewrite IH. cbn [fs out src_file dst_file]. tidy_out. reflexivity. }
  now rewrite (bind_returns _ _ _ _ _ (H s)).
Qed.

Lemma thread_determines_name (l : list (string * nat)) a b v :
  NoDup l.*2 -> (a, v) ∈ l -> (b, v) ∈ l -> a = b.
Proof.
  induction l as [|[k w] l IHl]; intros Hnd Ha Hb.
  - now apply elem_of_nil in Ha.
  - cbn in Hnd. apply NoDup_cons in Hnd as [Hw Hnd].
    apply elem_of_cons in Ha as [Ha|Ha]; apply elem_of_cons in Hb as [Hb|Hb].
    + congruence.
    + injection Ha as -> ->. destruct Hw. apply list_elem_of_fmap. now exists (b, w).
    + injection Hb as -> ->. destruct Hw. apply list_elem_of_fmap. now exists (a, w).
    + now apply IHl.
Qed.

(** ** The drain loop *)

Section Drain.

Context {W : World}.
Variable alive : nat -> nat -> bool.

Lemma first_done_spec t d file th :
  first_done alive t d = Some (file, th) ->
  (file, th) ∈ d ∧ alive t th = false.
Proof.
  unfold first_done. intros [Hin Hdead]%find_some.
  split; [now apply list_elem_of_In|].
  now apply negb_true_iff in Hdead.
Qed.

Lemma wait_spec patience t d y :
  wait alive patience t d = Some y ->
  unit_of y ∈ d ∧ alive (y_poll y) (y_thread y) = false ∧
  PyStr.truthy (y_file y) = true ∧ t < y_poll y.
Proof.
  revert t. induction patience as [|p IH]; intros t; cbn [wait]; [discriminate|].
  destruct (first_done alive (S t) d) as [[file th]|] eqn:Hf.
  - destruct (PyStr.truthy file) eqn:Ht.
    + intros [= <-]. cbn. apply first_done_spec in Hf as [Hin Hdead].
      repeat split; try assumption. lia.
    + intros H. destruct (IH _ H) as (? & ? & ? & ?). repeat split; try assumption. lia.
  - intros H. destruct (IH _ H) as (? & ? & ? & ?). repeat split; try assumption. lia.
Qed.

Variable urls : list string.
Variable job : string -> M unit.

Lemma drain_yields n patience t d acc s :
  ∃ ys,
    yielded (drain alive urls job n patience t d acc s) = acc ++ ys ∧
    (∀ y, y ∈ ys -> unit_of y ∈ d ∧ alive (y_poll y) (y_thread y) = false) ∧
    NoDup (y_file <$> ys) ∧
    (NoDup d.*2 -> NoDup (y_thread <$> ys)) ∧
    (how (drain alive urls job n patience t d acc s) = Finished ->
     NoDup d.*1 -> length ys = length d).
Proof.
  assert (Hnone : ∀ (d : list (string * nat)) acc r,
             yielded r = acc ->
             (how r = Finished -> d = []) ->
             ∃ ys, yielded r = acc ++ ys ∧
                   (∀ y, y ∈ ys -> unit_of y ∈ d ∧
                                   alive (y_poll y) (y_thread y) = false) ∧
                   NoDup (y_file <$> ys) ∧
                   (NoDup d.*2 -> NoDup (y_thread <$> ys)) ∧
                   (how r = Finished -> NoDup d.*1 -> length ys = length d)).
  { clear. intros d acc r Hy Hd. exists []. rewrite app_nil_r.
    split; [assumption|]. split; [intros y []%elem_of_nil|].
    split; [apply NoDup_nil_2|]. split; [intros _; apply NoDup_nil_2|].
    intros Hf _. now rewrite (Hd Hf). }
  revert t d acc s. induction n as [|n IH]; intros t d acc s.
  { destruct d; cbn [drain].
    - apply (Hnone [] acc (mkRun acc Finished s)); reflexivity.
    - apply (Hnone _ acc (mkRun acc Hung s)); [reflexivity|discriminate]. }
  destruct d as [|kv d']; cbn [drain].
  { apply (Hnone [] acc (mkRun acc Finished s)); reflexivity. }
  set (d := kv :: d').
  destruct (wait alive patience t d) as [y|] eqn:Hw.
  2:{ apply (Hnone _ acc (mkRun acc Hung s)); [reflexivity|discriminate]. }
  apply wait_spec in Hw as (Hin & Hdead & _ & _).
  destruct (job (y_file y) (joined urls (y_thread y) s)) as [[e|[]] s'].
  { exists [y]. cbn [yielded how]. split; [reflexivity|].
    split; [intros y' ->%list_elem_of_singleton; now split|].
    split; [apply NoDup_singleton|]. split; [intros _; apply NoDup_singleton|].
    discriminate. }
  destruct (IH (y_poll y) (dict_del (y_file y) d) (acc ++ [y]) s')
    as (ys & Hy & Hall & Hfiles & Hthreads & Hlen).
  exists (y :: ys). rewrite Hy, <- app_assoc. split; [reflexivity|].
  split; [|split; [|split]].
  - intros y' [->|H]%elem_of_cons; [now split|].
    destruct (Hall _ H) as [Hd Hdd]. split; [|assumption].
    now apply dict_del_elem in Hd as [_ Hd].
  - cbn [fmap list_fmap]. apply NoDup_cons. split; [|assumption].
    intros (y' & Heq & Hy')%list_elem_of_fmap.
    destruct (Hall _ Hy') as [Hd _]. apply dict_del_elem in Hd as [Hne _].
    apply Hne. cbn. congruence.
  - intros Hv. cbn [fmap list_fmap]. apply NoDup_cons.
    split; [|now apply Hthreads, dict_del_values].
    intros (y' & Heq & Hy')%list_elem_of_fmap.
    destruct (Hall _ Hy') as [Hd _]. apply dict_del_elem in Hd as [Hne Hd].
    apply Hne. cbn.
    symmetry. apply (thread_determines_name d _ _ (y_thread y) Hv); [exact Hin|].
    unfold unit_of in Hd. now rewrite Heq.
  - intros Hfin Hk. cbn [length].
    rewrite (dict_del_length (y_file y) (y_thread y) d Hk Hin).
    f_equal. apply Hlen; [assumption|now apply dict_del_keys].
Qed.

End Drain.

Section Runs.

Context {W : World}.
Variable alive : nat -> nat -> bool.

Lemma main_loop_drain urls job n patience s :
  main_loop alive urls job n patience s =
  drain alive urls job n patience 0 (register urls 0 []) []
        (mkState (fs s) (out s ++ (Initiating <$> urls)) (src_file s) (dst_file s)).
Proof. unfold main_loop. now rewrite init_downloads_spec. Qed.

Lemma main_loop_finished_length urls job n patience s :
  how (main_loop alive urls job n patience s) = Finished ->
  length (yielded (main_loop alive urls job n patience s)) =
  length (register urls 0 []).
Proof.
  rewrite main_loop_drain. intros Hfin.
  destruct (drain_yields alive urls job n patience 0 (register urls 0 []) []
                         (mkState (fs s) (out s ++ (Initiating <$> urls))
                                  (src_file s) (dst_file s)))
    as (ys & Hy & _ & _ & _ & Hlen).
  rewrite Hy. cbn [app]. apply Hlen; [assumption|].
  apply register_initial.
Qed.

Lemma main_loop_yield_registered urls job n patience s y :
  y ∈ yielded (main_loop alive urls job n patience s) ->
  unit_of y ∈ register urls 0 [] ∧ alive (y_poll y) (y_thread y) = false.
Proof.
  rewrite main_loop_drain.
  destruct (drain_yields alive urls job n patience 0 (register urls 0 []) []
                         (mkState (fs s) (out s ++ (Initiating <$> urls))
                                  (src_file s) (dst_file s)))
    as (ys & Hy & Hall & _).
  rewrite Hy. cbn [app]. apply Hall.
Qed.

(** *** Termination: once every thread is dead, the loop ends *)

Variable T : nat.
Hypothesis all_dead : ∀ t th, T <= t -> alive t th = false.

Lemma wait_yields patience t d :
  d ≠ [] -> (∀ kv, kv ∈ d -> PyStr.truthy kv.1 = true) ->
  T <= t + patience -> 1 <= patience ->
  ∃ y, wait alive patience t d = Some y.
Proof.
  intros Hd Hkeys. revert t. induction patience as [|p IH]; intros t HT Hp; [lia|].
  cbn [wait].
  destruct (first_done alive (S t) d) as [[file th]|] eqn:Hf.
  - apply first_done_spec in Hf as [Hin _].
    specialize (Hkeys _ Hin). cbn [fst] in Hkeys. rewrite Hkeys. eauto.
  - destruct (le_lt_dec T (S t)) as [Hle|Hlt].
    + exfalso. destruct d as [|kv d']; [congruence|].
      unfold first_done in Hf. cbn [find] in Hf.
      rewrite (all_dead (S t) kv.2 Hle) in Hf. discriminate.
    + apply IH; lia.
Qed.

Lemma drain_finishes urls job n patience t d acc s :
  (∀ kv, kv ∈ d -> PyStr.truthy kv.1 = true) ->
  (∀ zip s', (job zip s').1 = inr tt) ->
  length d <= n -> T <= t + patience -> 1 <= patience ->
  how (drain alive urls job n patience t d acc s) = Finished.
Proof.
  intros Hkeys Hjob. revert t d acc s Hkeys.
  induction n as [|n IH]; intros t d acc s Hkeys Hlen HT Hp.
  { destruct d; [reflexivity|cbn in Hlen; lia]. }
  destruct d as [|kv d']; [reflexivity|]. cbn [drain].
  set (d := kv :: d') in *.
  destruct (wait_yields patience t d) as [y Hw]; try assumption; [discriminate|].
  rewrite Hw. pose proof (wait_spec alive _ _ _ _ Hw) as (Hin & _ & _ & Hpoll).
  pose proof (Hjob (y_file y) (joined urls (y_thread y) s)) as Hret.
  destruct (job (y_file y) (joined urls (y_thread y) s)) as [[e|[]] s'];
    [discriminate|].
  apply IH; try lia.
  - intros kv' [_ Hin']%dict_del_elem. now apply Hkeys.
  - assert (length (dict_del (y_file y) d) < length d); [|lia].
    unfold dict_del. apply (length_filter_lt _ _ (unit_of y)); [assumption|].
    intros Hne. now apply Hne.
Qed.

Lemma cache_job_returns zip s : (cache_job zip s).1 = inr tt.
Proof. now rewrite cache_job_spec. Qed.

(** [download_vdb_caches.py] ends as soon as every fetch thread has. *)
Lemma download_vdb_caches_finishes n patience s :
  24 <= n -> T < patience ->
  how (download_vdb_caches alive n patience s) = Finished.
Proof.
  intros Hn Hp. unfold download_vdb_caches. rewrite main_loop_drain.
  apply drain_finishes; try lia.
  - assert (Hall : forallb (λ kv : string * nat, PyStr.truthy kv.1)
                           (register vdb_urls 0 []) = true)
      by (vm_compute; reflexivity).
    intros kv Hin. rewrite forallb_forall in Hall.
    apply Hall. now apply list_elem_of_In.
  - apply cache_job_returns.
  - vm_compute. lia.
Qed.

End Runs.

(** C4. In every run of the main loop, of either script, however far it is
    observed and whatever the threads do: no thread is handed out twice, no
    archive name is handed out twice, and every unit handed out is a thread
    that was started for an entry of the catalog, under the name of the
    archive it fetches, whose [is_alive()] answered false in the pass that
    handed it out. *)
Theorem tracker_yields_each_unit_once_and_dead {W : World}
        (alive : nat -> nat -> bool) (urls : list string)
        (job : string -> M unit) (n patience : nat) (s : state) :
  let r := main_loop alive urls job n patience s in
  NoDup (y_thread <$> yielded r) ∧
  NoDup (y_file <$> yielded r) ∧
  (∀ y, y ∈ yielded r ->
        alive (y_poll y) (y_thread y) = false ∧
        ∃ url, urls !! y_thread y = Some url ∧ PyStr.basename url = y_file y).
Proof.
  cbv zeta. split; [|split].
  - rewrite main_loop_drain.
    destruct (drain_yields alive urls job n patience 0 (register urls 0 []) []
                           (mkState (fs s) (out s ++ (Initiating <$> urls))
                                    (src_file s) (dst_file s)))
      as (ys & -> & _ & _ & Hthreads & _).
    apply Hthreads, register_initial.
  - rewrite main_loop_drain.
    destruct (drain_yields alive urls job n patience 0 (register urls 0 []) []
                           (mkState (fs s) (out s ++ (Initiating <$> urls))
                                    (src_file s) (dst_file s)))
      as (ys & -> & _ & Hfiles & _).
    exact Hfiles.
  - intros y Hy.
    destruct (main_loop_yield_registered alive urls job n patience s y Hy)
      as [Hreg Hdead].
    split; [assumption|].
    destruct (register_initial urls) as (_ & _ & Hin).
    exact (Hin _ Hreg).
Qed.

Lemma catalog_registered :
  length (started vdb_urls) = 26 ∧
  length (register vdb_urls 0 []) = 24 ∧
  (∀ kv, kv ∈ register vdb_urls 0 [] -> 2 <= kv.2).
Proof.
  split; [vm_compute; reflexivity|]. split; [vm_compute; reflexivity|].
  assert (Hall : forallb (λ kv : string * nat, Nat.leb 2 kv.2)
                         (register vdb_urls 0 []) = true)
    by (vm_compute; reflexivity).
  intros kv Hin. rewrite forallb_forall in Hall.
  apply Nat.leb_le, Hall. now apply list_elem_of_In.
Qed.

Lemma download_vdb_caches_eq {W : World} alive n patience s :
  download_vdb_caches alive n patience s =
  main_loop alive vdb_urls cache_job n patience s.
Proof. reflexivity. Qed.

Lemma read_write_test_compression_eq {W : World} alive n patience s :
  read_write_test_compression alive n patience s =
  main_loop alive vdb_urls test_job n patience
            (print (if vdb_has_ax then AxEnabled else AxDisabled) s).2.
Proof. reflexivity. Qed.

Lemma catalog_main_loop {W : World} alive job n patience s :
  how (main_loop alive vdb_urls job n patience s) = Finished ->
  length (yielded (main_loop alive vdb_urls job n patience s)) = 24 ∧
  (∀ y, y ∈ yielded (main_loop alive vdb_urls job n patience s) ->
        y_thread y ≠ 0 ∧ y_thread y ≠ 1).
Proof.
  destruct catalog_registered as (_ & Hlen & Hthreads).
  intros Hfin. split.
  - rewrite main_loop_finished_length by exact Hfin. exact Hlen.
  - intros y Hy. apply main_loop_yield_registered in Hy as [Hy _].
    specialize (Hthreads _ Hy). unfold unit_of in Hthreads.
    cbn [snd] in Hthreads. lia.
Qed.

(** C1, on the catalog both scripts embed. Twenty-six threads are started,
    but [armadillo] and [buddha] are listed twice and the dict is keyed by
    archive name: a run of either script that finishes has drained
    twenty-four units, and the threads started first for the two doubled
    entries (threads 0 and 1) are never among them. *)
Theorem catalog_duplicates_lose_units {W : World}
        (alive : nat -> nat -> bool) (n patience : nat) (s : state) (r : run) :
  r = download_vdb_caches alive n patience s ∨
  r = read_write_test_compression alive n patience s ->
  how r = Finished ->
  length (started vdb_urls) = 26 ∧
  length (yielded r) = 24 ∧
  (∀ y, y ∈ yielded r -> y_thread y ≠ 0 ∧ y_thread y ≠ 1).
Proof.
  intros Hr Hfin. split; [apply catalog_registered|].
  destruct Hr as [Hr|Hr]; subst r.
  - rewrite download_vdb_caches_eq in *. now apply catalog_main_loop.
  - rewrite read_write_test_compression_eq in *. now apply catalog_main_loop.
Qed.

Lemma catalog_duplicates_lose_units_witness :
  let W := Demo.world true "" in
  let r := download_vdb_caches Demo.finished 26 1 (Demo.dir []) in
  let r' := read_write_test_compression Demo.finished 26 1 (Demo.dir []) in
  (length (started vdb_urls) = 26 ∧
   length (yielded r) = 24 ∧
   (∀ y, y ∈ yielded r -> y_thread y ≠ 0 ∧ y_thread y ≠ 1)) ∧
  (length (started vdb_urls) = 26 ∧
   length (yielded r') = 24 ∧
   (∀ y, y ∈ yielded r' -> y_thread y ≠ 0 ∧ y_thread y ≠ 1)).
Proof.
  intros W r r'. split.
  - apply (@catalog_duplicates_lose_units W Demo.finished 26 1 (Demo.dir []) r).
    + left. reflexivity.
    + vm_compute. reflexivity.
  - apply (@catalog_duplicates_lose_units W Demo.finished 26 1 (Demo.dir []) r').
    + right. reflexivity.
    + vm_compute. reflexivity.
Defined.

Example catalog_run :
  let W := Demo.world true "" in
  let r := download_vdb_caches Demo.finished 26 1 (Demo.dir []) in
  how r = Finished ∧
  y_thread <$> yielded r =
    [2; 3; 4; 5; 6; 7; 8; 9; 10; 11; 12; 13; 14; 15; 16; 17; 18; 19; 20; 21;
     22; 23; 24; 25] ∧
  (y_file <$> yielded r) !! 0 = Some "armadillo.vdb-1.0.0.zip" ∧
  (y_file <$> yielded r) !! 1 = Some "buddha.vdb-1.0.0.zip".
Proof. vm_compute. repeat split; reflexivity. Qed.

(** Without doubled names the count is right: as many units are drained as
    threads were started. *)
Lemma distinct_names_lose_nothing {W : World}
      (alive : nat -> nat -> bool) (urls : list string)
      (job : string -> M unit) (n patience : nat) (s : state) :
  NoDup (PyStr.basename <$> urls) ->
  how (main_loop alive urls job n patience s) = Finished ->
  length (yielded (main_loop alive urls job n patience s)) =
  length (started urls).
Proof.
  intros Hnd Hfin. rewrite main_loop_finished_length by assumption.
  unfold started. rewrite length_fmap.
  assert (Hgen : ∀ (us : list string) k (d : list (string * nat)),
             NoDup ((PyStr.basename <$> us) ++ d.*1) ->
             length (register us k d) = length us + length d).
  { clear. induction us as [|u us IH]; intros k d Hnd; [reflexivity|].
    cbn [register fmap list_fmap app length] in *.
    apply NoDup_cons in Hnd as [Hu Hnd].
    assert (Hset : ∀ (d : list (string * nat)) key v,
               key ∉ d.*1 -> dict_set key v d = d ++ [(key, v)]).
    { clear. induction d as [|[k' v'] d IHd]; intros key v Hk; [reflexivity|].
      cbn [dict_set fmap list_fmap fst] in *.
      apply not_elem_of_cons in Hk as [Hne Hk].
      destruct (String.eqb_spec key k'); [congruence|].
      cbn [app]. f_equal. now apply IHd. }
    rewrite Hset by (intros H; apply Hu, elem_of_app; now right).
    rewrite IH.
    - rewrite length_app. cbn. lia.
    - rewrite fmap_app. cbn [fmap list_fmap fst].
      apply NoDup_app in Hnd as (Hus & Hdis & Hd).
      apply NoDup_app. split; [assumption|]. split.
      + intros x Hx [Hin|Hin%list_elem_of_singleton]%elem_of_app.
        * now apply (Hdis x).
        * subst x. apply Hu, elem_of_app. now left.
      + apply NoDup_app. split; [assumption|]. split; [|apply NoDup_singleton].
        intros x Hx ->%list_elem_of_singleton.
        apply Hu, elem_of_app. now right. }
  rewrite Hgen; [cbn; lia|]. cbn. now rewrite app_nil_r.
Qed.

(** ** The whole run of [read_write_test_compression.py] *)

Lemma only_subseteq (xs ys : list string) d :
  (∀ q, q ∈ xs -> q ∈ ys) -> only xs d -> only ys d.
Proof. intros Hsub Hd q Hq. apply Hd. intros Hin. apply Hq, Hsub, Hin. Qed.

Lemma only_insert (xs : list string) d p data :
  p ∈ xs -> only xs d -> only xs (<[p := data]> d).
Proof.
  intros Hp Hd q Hq. rewrite lookup_insert_ne; [now apply Hd|].
  intros ->. contradiction.
Qed.

Lemma only_rm (xs : list string) d p : only xs d -> only xs (rm p d).
Proof.
  intros Hd q Hq. unfold rm. destruct (is_file d p); [|now apply Hd].
  destruct (decide (p = q)) as [->|Hne].
  - apply lookup_delete_eq.
  - rewrite lookup_delete_ne by assumption. now apply Hd.
Qed.

Lemma rm_lookup_same d p : p ≠ "" -> rm p d !! p = None.
Proof.
  intros Hp. unfold rm. destruct (is_file d p) eqn:Hf.
  - apply lookup_delete_eq.
  - destruct (d !! p) eqn:Hl; [|reflexivity].
    assert (is_file d p = true); [|congruence].
    apply is_file_lookup. split; [assumption|]. rewrite Hl. eauto.
Qed.

Lemma rm_lookup_none d p q : d !! q = None -> rm p d !! q = None.
Proof.
  intros Hq. unfold rm. destruct (is_file d p); [|assumption].
  destruct (decide (p = q)) as [->|Hne].
  - apply lookup_delete_eq.
  - now rewrite lookup_delete_ne.
Qed.

(** Cleanup empties a directory that holds files of the job only. *)
Lemma cleanup_empties zip src dst (xs : list string) d :
  (∀ q, q ∈ xs -> q ≠ "" ∧ (q = zip ∨ q = src ∨ q = dst)) ->
  only xs d ->
  rm zip (rm dst (rm src d)) = ∅.
Proof.
  intros Hxs Hd. apply map_eq. intros q. rewrite lookup_empty.
  destruct (decide (q ∈ xs)) as [Hin|Hout].
  - destruct (Hxs q Hin) as [Hq [->| [->| ->]]].
    + now apply rm_lookup_same.
    + now apply rm_lookup_none, rm_lookup_none, rm_lookup_same.
    + now apply rm_lookup_none, rm_lookup_same.
  - do 3 apply rm_lookup_none. now apply Hd.
Qed.

Section CleanExit.

Context {W : World}.

Lemma download_fs url file s :
  fs (download url file s).2 =
  match requests_get url with
  | inr r => if PyStr.truthy file then <[file := received r.1]> (fs s) else fs s
  | inl _ => fs s
  end.
Proof.
  unfold download, lift, write_file. step.
  destruct (requests_get url) as [msg|r]; [reflexivity|]. step.
  destruct (PyStr.truthy file); [|reflexivity]. cbn.
  destruct r.2; reflexivity.
Qed.

(** Tidy members are all written, under the one name. *)
Lemma extractall_tidy ms src s :
  src ≠ "" ->
  (∀ m, m ∈ ms -> m_name m = src ∧ m_error m = None) ->
  (extractall ms s).1 = inr tt ∧
  (∀ xs, src ∈ xs -> only xs (fs s) -> only xs (fs (extractall ms s).2)).
Proof.
  intros Hsrc. revert s. induction ms as [|m rest IH]; intros s Hms.
  { split; [reflexivity|]. intros xs _ H. exact H. }
  cbn [extractall]. unfold write_file. step.
  destruct (Hms m) as [-> ->]; [apply elem_of_cons; now left|].
  destruct src as [|c src']; [congruence|]. cbn [PyStr.truthy]. cbn.
  destruct (IH (mkState (<[String c src' := m_data m]> (fs s)) (out s)
                        (src_file s) (dst_file s))) as [Hok Honly].
  { intros m' Hm'. apply Hms, elem_of_cons. now right. }
  split; [exact Hok|].
  intros xs Hin Hd. apply Honly; [assumption|]. cbn [fs].
  now apply only_insert.
Qed.

Lemma extract_zip_tidy zip s :
  (∀ data, fs s !! zip = Some data -> tidy_archive zip data) ->
  (returned (extract_zip zip s).1 = false -> fs (extract_zip zip s).2 = fs s) ∧
  (∀ xs, test_name zip +:+ ".vdb" ∈ xs -> only xs (fs s) ->
         only xs (fs (extract_zip zip s).2)).
Proof.
  intros Htidy. unfold extract_zip, zip_open, read_file, lift. step.
  destruct (fs s !! zip) as [data|] eqn:Hl;
    [|split; [reflexivity|intros xs _ H; exact H]].
  specialize (Htidy data eq_refl).
  destruct (PyStr.truthy zip); [|split; [reflexivity|intros xs _ H; exact H]].
  cbn. destruct (zip_members data) as [msg|ms] eqn:Hms; cbn;
    [split; [reflexivity|intros xs _ H; exact H]|].
  assert (Hsrc : test_name zip +:+ ".vdb" ≠ "").
  { intros H. apply (f_equal String.length) in H.
    rewrite length_append in H. cbn in H. lia. }
  destruct (extractall_tidy ms (test_name zip +:+ ".vdb") s Hsrc) as [Hok Honly].
  { intros m Hm. exact (Htidy ms m Hms Hm). }
  split; [|exact Honly]. rewrite Hok. discriminate.
Qed.

Lemma after_write_only (xs : list string) dst r d :
  dst ∈ xs -> only xs d -> only xs (after_write dst r d).
Proof.
  intros Hin Hd. unfold after_write.
  destruct (left_behind r); [|assumption].
  destruct (PyStr.truthy dst); [|assumption]. now apply only_insert.
Qed.

Lemma round_trip_only (xs : list string) label src dst s :
  dst ∈ xs -> only xs (fs s) -> only xs (fs (round_trip label src dst s).2).
Proof.
  intros Hin Hd.
  destruct (round_trip_cases label src dst s)
    as [(e & _ & ->)|[(grids & _ & _ & ->)|(grids & _ & _ & ->)]];
    try assumption.
  destruct (write_and_report_fs label src dst grids s) as [-> _].
  destruct grids as [|[[|g gs]|kv] rest]; try assumption.
  now apply after_write_only.
Qed.

Lemma test_validate_tidy zip s :
  (∀ data, fs s !! zip = Some data -> tidy_archive zip data) ->
  let s' := (test_validate zip s).2 in
  (src_file s' = "" ∧ dst_file s' = "" ∧ fs s' = fs s) ∨
  (src_file s' = test_name zip +:+ ".vdb" ∧
   dst_file s' = test_name zip +:+ "_blosc_compressed.vdb" ∧
   ∀ xs, test_name zip +:+ ".vdb" ∈ xs ->
         test_name zip +:+ "_blosc_compressed.vdb" ∈ xs ->
         only xs (fs s) -> only xs (fs s')).
Proof.
  intros Htidy. cbv zeta.
  destruct (extract_zip_tidy zip s Htidy) as [Hfail Honly].
  unfold test_validate. step.
  rewrite (extract_zip_at zip s) by reflexivity.
  destruct (extract_zip zip s).1 as [e|[]] eqn:Hx; step.
  - left. repeat split. now apply Hfail.
  - right.
    match goal with
    | |- context [round_trip ?l ?a ?b ?st] =>
        destruct (round_trip_variables l a b st) as [Hs Hd];
        pose proof (λ xs H, round_trip_only xs l a b st H) as Hrt;
        destruct (round_trip l a b st) as [[e|[]] s1]
    end; cbn [fst snd fs out src_file dst_file] in *;
      (split; [assumption|]); (split; [assumption|]);
      intros xs Hsrc Hdst Hd0; apply Hrt; try assumption; now apply Honly.
Qed.

Hypothesis quiet : quiet_tool.

Lemma diff_fs src dst s : fs (diff src dst s).2 = fs s.
Proof.
  unfold diff. step.
  set (s1 := mkState (fs s) (out s ++ [Comparing]) (src_file s) (dst_file s)).
  rewrite (fingerprint_run src s1).
  destruct (fingerprint src s1).1 as [e|a]; [reflexivity|].
  rewrite (fingerprint_run dst s1).
  destruct (fingerprint dst s1).1 as [e|b]; [reflexivity|].
  destruct (String.eqb a b); [reflexivity|].
  unfold popen, put_fs, lift. subst s1. step.
  pose proof (quiet (fs s) ["vdb_ax"; src; dst; "-s"; ax_code a b]) as Hq.
  destruct (vdb_ax (fs s) ["vdb_ax"; src; dst; "-s"; ax_code a b])
    as [[msg|[o e]] d']; cbn in *; [assumption|].
  destruct (PyStr.truthy o); assumption.
Qed.

Lemma test_compare_fs s : fs (test_compare s).2 = fs s.
Proof.
  unfold test_compare. step. destruct vdb_has_ax; [|reflexivity].
  unfold diff_if_both, isfile. step.
  destruct (is_file (fs s) (src_file s)); cbn; [|reflexivity].
  destruct (is_file (fs s) (dst_file s)); cbn; [|reflexivity].
  apply diff_fs.
Qed.

(** A job that starts with nothing but, at most, its own tidy archive, and
    that returns, leaves nothing. *)
Lemma test_job_leaves_nothing zip s :
  zip ≠ "" ->
  only [zip] (fs s) ->
  (∀ data, fs s !! zip = Some data -> tidy_archive zip data) ->
  returned (test_job zip s).1 = true ->
  fs (test_job zip s).2 = ∅.
Proof.
  intros Hz Hd Htidy Hret.
  assert (Hne : ∀ a b : string, b ≠ "" -> a +:+ b ≠ "").
  { intros a b Hb H. apply (f_equal String.length) in H.
    rewrite length_append in H. destruct b; [congruence|]. cbn in H. lia. }
  unfold test_job, bind in *.
  pose proof (test_validate_tidy zip s Htidy) as Hv. cbv zeta in Hv.
  destruct (test_validate zip s) as [[e|[]] s1]; [discriminate|].
  cbn [snd] in Hv.
  pose proof (test_compare_fs s1) as Hc.
  destruct (test_compare_variables s1) as [Hcs Hcd].
  destruct (test_compare s1) as [[e|[]] s2]; [discriminate|].
  cbn [snd] in *. rewrite test_cleanup_spec. cbn [snd fs].
  rewrite Hcs, Hcd, Hc.
  destruct Hv as [(-> & -> & ->)|(-> & -> & Honly)].
  - apply (cleanup_empties _ _ _ [zip]); [|assumption].
    intros q ->%list_elem_of_singleton. split; [assumption|now left].
  - apply (cleanup_empties _ _ _ [zip; test_name zip +:+ ".vdb";
                                  test_name zip +:+ "_blosc_compressed.vdb"]).
    + intros q Hq. rewrite !elem_of_cons in Hq.
      destruct Hq as [->|[->|[->|[]%elem_of_nil]]].
      * split; [assumption|now left].
      * split; [now apply Hne|right; now left].
      * split; [now apply Hne|right; now right].
    + apply Honly.
      * rewrite !elem_of_cons. auto.
      * rewrite !elem_of_cons. auto.
      * apply (only_subseteq [zip]); [|assumption].
        intros q ->%list_elem_of_singleton. apply elem_of_cons. now left.
Qed.

Variable alive : nat -> nat -> bool.
Variable urls : list string.
Hypothesis tidy : tidy_catalog urls.

Lemma joined_fs th url s :
  urls !! th = Some url -> fs s = ∅ ->
  only [PyStr.basename url] (fs (joined urls th s)) ∧
  (∀ data, fs (joined urls th s) !! PyStr.basename url = Some data ->
           tidy_archive (PyStr.basename url) data).
Proof.
  intros Hth Hs. unfold joined. rewrite Hth, download_fs, Hs.
  destruct (requests_get url) as [msg|r] eqn:Hr.
  - split; [intros q _; apply lookup_empty|].
    intros data. now rewrite lookup_empty.
  - destruct (PyStr.truthy (PyStr.basename url)).
    + split.
      * apply only_insert; [apply elem_of_cons; now left|].
        intros q _. apply lookup_empty.
      * intros data. rewrite lookup_insert_eq. intros [= <-].
        apply tidy; [|assumption]. now apply list_elem_of_lookup_2 in Hth.
    + split; [intros q _; apply lookup_empty|].
      intros data. now rewrite lookup_empty.
Qed.

Lemma drain_clean n patience t d acc s :
  (∀ kv, kv ∈ d -> ∃ url, urls !! kv.2 = Some url ∧ PyStr.basename url = kv.1) ->
  fs s = ∅ ->
  how (drain alive urls test_job n patience t d acc s) = Finished ->
  fs (final (drain alive urls test_job n patience t d acc s)) = ∅.
Proof.
  revert t d acc s. induction n as [|n IH]; intros t d acc s Hd Hs.
  { destruct d; cbn [drain how final]; [intros _; assumption|discriminate]. }
  destruct d as [|kv d']; cbn [drain]; [intros _; assumption|].
  set (d := kv :: d') in *.
  destruct (wait alive patience t d) as [y|] eqn:Hw; [|discriminate].
  apply wait_spec in Hw as (Hin & _ & Hname & _).
  destruct (Hd _ Hin) as (url & Hurl & Hbase). cbn [unit_of fst snd] in *.
  destruct (joined_fs (y_thread y) url s Hurl Hs) as [Honly Htidy].
  rewrite Hbase in *.
  pose proof (test_job_leaves_nothing (y_file y) (joined urls (y_thread y) s)) as Hjob.
  destruct (test_job (y_file y) (joined urls (y_thread y) s)) as [[e|[]] s'];
    [discriminate|].
  apply IH.
  - intros kv' [_ Hin']%dict_del_elem. now apply Hd.
  - apply Hjob; try assumption; [|reflexivity].
    intros Heq. rewrite Heq in Hname. discriminate.
Qed.

End CleanExit.

(** With no archive name repeated in the catalog (every thread is then
    joined), a comparison tool that writes nothing, and archives that hold
    their data file and nothing else, a run of the main loop of
    [read_write_test_compression.py] that starts in an empty directory and
    finishes leaves the directory empty, whichever downloads, extractions
    and round trips failed on the way. *)
Lemma main_loop_clean_exit {W : World} (alive : nat -> nat -> bool) (urls : list string)
      (n patience : nat) (s : state) :
  NoDup (PyStr.basename <$> urls) ->
  quiet_tool -> tidy_catalog urls -> fs s = ∅ ->
  how (main_loop alive urls test_job n patience s) = Finished ->
  fs (final (main_loop alive urls test_job n patience s)) = ∅.
Proof.
  intros _ Hquiet Htidy Hs. rewrite main_loop_drain.
  apply drain_clean; try assumption.
  intros kv Hkv. now apply register_initial.
Qed.

(** C3, as amended. A job of [read_write_test_compression.py] that returns
    leaves no archive, and no file under the names its two variables hold at
    Cleanup; after a successful extraction these are the data file
    [<name>.vdb] and the output file [<name>_blosc_compressed.vdb], whether
    or not the validator failed. A job of [read_write_blosc_compression.py]
    that returns leaves neither its data file nor its output file. And at
    the exit of a run of [read_write_test_compression.py]'s main loop that
    finishes, the directory is empty if it was so at the start, no archive
    name is repeated in the catalog, the comparison tool writes nothing and
    every archive holds its data file and nothing else. *)
Theorem job_files_removed {W : World} :
  (∀ zip s,
      returned (test_job zip s).1 = true ->
      let s' := (test_job zip s).2 in
      is_file (fs s') zip = false ∧
      is_file (fs s') (src_file s') = false ∧
      is_file (fs s') (dst_file s') = false ∧
      (returned (extract_zip zip s).1 = true ->
       src_file s' = test_name zip +:+ ".vdb" ∧
       dst_file s' = test_name zip +:+ "_blosc_compressed.vdb")) ∧
  (∀ src s,
      returned (blosc_job src s).1 = true ->
      let s' := (blosc_job src s).2 in
      is_file (fs s') src = false ∧
      is_file (fs s') (blosc_dst src) = false) ∧
  (∀ alive urls n patience s,
      NoDup (PyStr.basename <$> urls) ->
      quiet_tool -> tidy_catalog urls -> fs s = ∅ ->
      how (main_loop alive urls test_job n patience s) = Finished ->
      fs (final (main_loop alive urls test_job n patience s)) = ∅).
Proof.
  split; [|split].
  - intros zip s Hret. cbv zeta.
    destruct (test_job_returned zip s Hret) as (s2 & -> & Hs & Hd).
    rewrite test_cleanup_spec. cbn [snd fs src_file dst_file].
    split; [apply is_file_rm_same|].
    split; [do 2 apply is_file_rm_absent; apply is_file_rm_same|].
    split; [apply is_file_rm_absent, is_file_rm_same|].
    intros Hx. rewrite Hs, Hd. now apply test_validate_variables.
  - intros src s Hret. cbv zeta.
    destruct (blosc_job_returned src s Hret) as (s2 & ->).
    rewrite blosc_cleanup_spec. cbn [snd fs].
    split; [apply is_file_rm_absent, is_file_rm_same|apply is_file_rm_same].
  - intros alive urls n patience s. apply main_loop_clean_exit.
Qed.

Lemma demo_catalog_tidy :
  @quiet_tool (Demo.world true "") ∧
  @tidy_catalog (Demo.world true "") Demo.two_models.
Proof.
  split; [intros d cmd; reflexivity|].
  intros url r Hurl Hr ms m Hms Hm.
  unfold Demo.two_models in Hurl. rewrite !elem_of_cons in Hurl.
  destruct Hurl as [->|[->|[]%elem_of_nil]];
    vm_compute in Hr; injection Hr as <-;
    vm_compute in Hms; injection Hms as <-;
    apply list_elem_of_singleton in Hm as ->;
    vm_compute; split; reflexivity.
Qed.

Lemma job_files_removed_witness :
  let W := Demo.world true "" in
  let s := Demo.dir [("a.vdb-1.0.0.zip", "zip:a.vdb=vdb3:density")] in
  let s' := (test_job "a.vdb-1.0.0.zip" s).2 in
  (is_file (fs s') "a.vdb-1.0.0.zip" = false ∧
   is_file (fs s') (src_file s') = false ∧
   is_file (fs s') (dst_file s') = false ∧
   (returned (extract_zip "a.vdb-1.0.0.zip" s).1 = true ->
    src_file s' = test_name "a.vdb-1.0.0.zip" +:+ ".vdb" ∧
    dst_file s' = test_name "a.vdb-1.0.0.zip" +:+ "_blosc_compressed.vdb")) ∧
  (let t' := (blosc_job "a_blosc.vdb" (Demo.dir [("a_blosc.vdb", "vdb1:x")])).2 in
   is_file (fs t') "a_blosc.vdb" = false ∧
   is_file (fs t') (blosc_dst "a_blosc.vdb") = false) ∧
  fs (final (main_loop Demo.finished Demo.two_models test_job 2 1 (Demo.dir [])))
    = ∅.
Proof.
  intros W s s'. destruct (@job_files_removed W) as (Htest & Hblosc & Hexit).
  split; [|split].
  - apply (Htest "a.vdb-1.0.0.zip" s). vm_compute. reflexivity.
  - apply (Hblosc "a_blosc.vdb" (Demo.dir [("a_blosc.vdb", "vdb1:x")])).
    vm_compute. reflexivity.
  - apply Hexit.
    + vm_compute. repeat constructor; rewrite ?elem_of_cons, ?elem_of_nil;
        intuition discriminate.
    + apply demo_catalog_tidy.
    + apply demo_catalog_tidy.
    + reflexivity.
    + vm_compute. reflexivity.
Defined.

(** C3 as stated fails in [download_vdb_caches.py]: what it extracts is what
    it is run for and stays, and so does an archive it could not extract.
    It also fails in [read_write_test_compression.py] when the comparison
    raises, which nothing catches: with a write that fails and leaves a
    stub behind, the script ends in the first job, before Cleanup, with the
    archive, the data file and the stub in place. *)
Lemma cache_keeps_extracted_files :
  let W := Demo.world true "" in
  let good := Demo.dir [("a.vdb-1.0.0.zip", "zip:a.vdb=vdb1:density")] in
  let bad := Demo.dir [("a.vdb-1.0.0.zip", "not an archive")] in
  ((cache_job "a.vdb-1.0.0.zip" good).1 = inr tt ∧
   is_file (fs (cache_job "a.vdb-1.0.0.zip" good).2) "a.vdb" = true ∧
   (cache_job "a.vdb-1.0.0.zip" bad).1 = inr tt ∧
   is_file (fs (cache_job "a.vdb-1.0.0.zip" bad).2) "a.vdb-1.0.0.zip" = true) ∧
  (let r := download_vdb_caches Demo.finished 26 1 (Demo.dir []) in
   how r = Finished ∧ is_file (fs (final r)) "armadillo.vdb" = true) ∧
  (let r := @read_write_test_compression Demo.disk_full Demo.finished 26 1
                                         (Demo.dir []) in
   how r = Crashed (External "not a VDB file") ∧
   is_file (fs (final r)) "armadillo.vdb-1.0.0.zip" = true ∧
   is_file (fs (final r)) "armadillo.vdb" = true ∧
   is_file (fs (final r)) "armadillo_blosc_compressed.vdb" = true).
Proof. vm_compute. repeat split; reflexivity. Qed.


(** * Further properties of the scripts *)

(** ** Names *)

Lemma append_cons (c : ascii) (a b : string) :
  String c a +:+ b = String c (a +:+ b).
Proof. reflexivity. Qed.

Lemma append_nil (b : string) : "" +:+ b = b.
Proof. reflexivity. Qed.

Lemma append_assoc (a b c : string) : (a +:+ b) +:+ c = a +:+ (b +:+ c).
Proof.
  induction a as [|x a IH]; rewrite ?append_cons, ?append_nil; congruence.
Qed.

Lemma append_empty_r (a : string) : a +:+ "" = a.
Proof.
  induction a as [|x a IH]; rewrite ?append_cons, ?append_nil; congruence.
Qed.

Lemma append_inj_l (a b c : string) : a +:+ b = a +:+ c -> b = c.
Proof.
  induction a as [|x a IH]; rewrite ?append_cons, ?append_nil; [auto|].
  intros [= H]. auto.
Qed.

Lemma has_slash_append (a b : string) :
  has_slash (a +:+ b) = has_slash a || has_slash b.
Proof.
  induction a as [|c a IH]; rewrite ?append_cons, ?append_nil; [reflexivity|].
  cbn [has_slash]. now rewrite IH, orb_assoc.
Qed.

Lemma after_last_slash_past (a f cur : string) :
  PyStr.after_last_slash (a +:+ String "/" f) cur = PyStr.after_last_slash f f.
Proof.
  revert cur. induction a as [|c a IH]; intros cur;
    rewrite ?append_cons, ?append_nil; cbn [PyStr.after_last_slash].
  - reflexivity.
  - destruct (Ascii.eqb c "/"); apply IH.
Qed.

Lemma after_last_slash_clean (p x : string) :
  has_slash x = false ->
  has_slash (PyStr.after_last_slash p (x +:+ p)) = false.
Proof.
  revert x. induction p as [|c r IH]; intros x Hx;
    cbn [PyStr.after_last_slash].
  - now rewrite append_empty_r.
  - destruct (Ascii.eqb c "/") eqn:Hc.
    + apply (IH ""). reflexivity.
    + replace (x +:+ String c r) with ((x +:+ String c "") +:+ r)
        by (rewrite append_assoc; reflexivity).
      apply IH. rewrite has_slash_append, Hx. cbn [has_slash orb]. now rewrite Hc.
Qed.

Lemma after_last_slash_none (p cur : string) :
  has_slash p = false -> PyStr.after_last_slash p cur = cur.
Proof.
  revert cur. induction p as [|c r IH]; intros cur;
    cbn [PyStr.after_last_slash has_slash]; [reflexivity|].
  destruct (Ascii.eqb c "/"); cbn [orb]; [discriminate|]. apply IH.
Qed.

(** X1. [os.path.basename] as the downloading scripts use it on a url: the
    archive name is the last segment of the path. Whatever precedes a slash
    plays no part, the name never contains a slash, and a path is its own
    name exactly when it contains none. *)
Theorem archive_name_is_last_segment (dir f p : string) :
  PyStr.basename (dir +:+ "/" +:+ f) = PyStr.basename f ∧
  has_slash (PyStr.basename p) = false ∧
  (has_slash f = false <-> PyStr.basename f = f).
Proof.
  split; [|split].
  - unfold PyStr.basename. rewrite append_cons, append_nil.
    apply after_last_slash_past.
  - apply (after_last_slash_clean p ""). reflexivity.
  - split.
    + intros H. unfold PyStr.basename. now apply after_last_slash_none.
    + intros H. rewrite <- H. apply (after_last_slash_clean f ""). reflexivity.
Qed.

Lemma before_sep_split (sep s : string) :
  ∃ rest, s = PyStr.before_sep sep s +:+ rest ∧
          (rest = "" ∨ String.prefix sep rest = true).
Proof.
  induction s as [|c r IH]; cbn [PyStr.before_sep].
  - exists "". split; [reflexivity|now left].
  - destruct (String.prefix sep (String c r)) eqn:Hp.
    + exists (String c r). split; [reflexivity|now right].
    + destruct IH as (rest & Hr & Hrest). exists rest. split; [|assumption].
      rewrite append_cons. now f_equal.
Qed.

Lemma alias_vdb_values (k v : string) :
  PyStr.get vdb_aliases_vdb k = Some v ->
  (k = "torus_knot.vdb" ∧ v = "torus_knot_helix") ∨ (k = "smoke1.vdb" ∧ v = "smoke").
Proof.
  unfold vdb_aliases_vdb. cbn [PyStr.get].
  destruct (String.eqb_spec k "torus_knot.vdb") as [->|_]; [intros [= <-]; now left|].
  destruct (String.eqb_spec k "smoke1.vdb") as [->|_]; [intros [= <-]; now right|].
  discriminate.
Qed.

Lemma append_nonempty (a b : string) : b ≠ "" -> a +:+ b ≠ "".
Proof.
  intros Hb H. apply (f_equal String.length) in H.
  rewrite length_append in H. destruct b; [congruence|]. cbn in H. lia.
Qed.

Lemma blosc_dst_differs (src : string) : blosc_dst src ≠ src.
Proof.
  unfold blosc_dst, blosc_name, PyStr.get_or.
  destruct (PyStr.get vdb_aliases_vdb (PyStr.replace "_blosc" "" src)) as [v|] eqn:Hget.
  - apply alias_vdb_values in Hget as [[Hk ->]|[Hk ->]]; cbn [PyStr.truthy];
      intros <-; vm_compute in Hk; discriminate.
  - destruct (before_sep_split ".vdb" src) as (rest & Hsrc & Hrest).
    intros H. rewrite Hsrc in H at 2. apply append_inj_l in H. subst rest.
    destruct Hrest as [Hrest|Hrest]; discriminate.
Qed.

(** X2. The output path never is the input path, in either script, and
    neither is empty: [read_write_test_compression.py] derives both from one
    name with two different endings, and in
    [read_write_blosc_compression.py] no file name is its own derived name
    followed by [_output.vdb]. *)
Theorem output_path_differs_from_input (zip src : string) :
  (test_name zip +:+ ".vdb" ≠ test_name zip +:+ "_blosc_compressed.vdb" ∧
   test_name zip +:+ ".vdb" ≠ "" ∧
   test_name zip +:+ "_blosc_compressed.vdb" ≠ "") ∧
  (blosc_dst src ≠ src ∧ blosc_dst src ≠ "").
Proof.
  split; [split; [|split]|split].
  - intros H. apply append_inj_l in H. discriminate.
  - now apply append_nonempty.
  - now apply append_nonempty.
  - apply blosc_dst_differs.
  - unfold blosc_dst. now apply append_nonempty.
Qed.

(** ** What a round trip and a job touch *)

Lemma after_write_other dst r d q :
  q ≠ dst -> after_write dst r d !! q = d !! q.
Proof.
  intros Hq. unfold after_write.
  destruct (left_behind r); [|reflexivity].
  destruct (PyStr.truthy dst); [|reflexivity].
  now rewrite lookup_insert_ne by congruence.
Qed.

Lemma round_trip_other {W : World} label src dst q s :
  q ≠ dst -> fs (round_trip label src dst s).2 !! q = fs s !! q.
Proof.
  intros Hq.
  destruct (round_trip_cases label src dst s)
    as [(e & _ & ->)|[(grids & _ & _ & ->)|(grids & _ & _ & ->)]];
    [reflexivity|reflexivity|].
  destruct (write_and_report_fs label src dst grids s) as [-> _].
  destruct grids as [|[[|g gs]|kv] rest]; try reflexivity.
  now apply after_write_other.
Qed.

Lemma blosc_validate_fs {W : World} src s :
  (blosc_validate src s).1 = inr tt ∧
  fs (blosc_validate src s).2 =
  fs (round_trip src src (blosc_dst src)
        (mkState (fs s) ((out s ++ [Separator]) ++ [Processing src])
                 (src_file s) (dst_file s))).2.
Proof.
  unfold blosc_validate. step.
  match goal with
  | |- context [round_trip ?l ?a ?b ?st] =>
      destruct (round_trip l a b st) as [[e|[]] s1]
  end; split; reflexivity.
Qed.

Lemma blosc_validate_other {W : World} src q s :
  q ≠ blosc_dst src -> fs (blosc_validate src s).2 !! q = fs s !! q.
Proof.
  intros Hq. destruct (blosc_validate_fs src s) as [_ ->].
  now rewrite round_trip_other.
Qed.

(** X3. The round trip writes to its output path and nowhere else: whatever
    it read, wrote or raised, every other file of the directory is as it
    was. In [read_write_blosc_compression.py] this covers the data file
    itself, which validation therefore never changes. *)
Theorem round_trip_writes_output_only {W : World}
        (label src dst q : string) (s : state) :
  q ≠ dst ->
  fs (round_trip label src dst s).2 !! q = fs s !! q ∧
  fs (blosc_validate src s).2 !! src = fs s !! src.
Proof.
  intros Hq. split; [now apply round_trip_other|].
  apply blosc_validate_other. intros H. now apply (blosc_dst_differs src).
Qed.

Lemma round_trip_writes_output_only_witness :
  let W := Demo.world true "" in
  let s := Demo.dir [("a.vdb", "vdb1:x"); ("b.vdb", "vdb1:y")] in
  fs (round_trip "a" "a.vdb" "a_output.vdb" s).2 !! "b.vdb" = Some "vdb1:y" ∧
  fs (blosc_validate "a.vdb" s).2 !! "a.vdb" = Some "vdb1:x".
Proof.
  intros W s.
  destruct (@round_trip_writes_output_only W "a" "a.vdb" "a_output.vdb" "b.vdb" s)
    as [H1 H2]; [discriminate|].
  split; [rewrite H1|rewrite H2]; vm_compute; reflexivity.
Defined.

(** ** A job whose archive is not there *)

Lemma test_job_failed_extraction {W : World} zip s e :
  (extract_zip zip s).1 = inl e ->
  test_job zip s =
  (inr tt,
   mkState (rm zip (fs (extract_zip zip s).2))
           (out s ++ [Separator; Processing zip; Extracting zip;
                      Caught e; CleaningFiles (test_name zip)])
           "" "").
Proof.
  intros Hx. unfold test_job.
  rewrite (bind_returns _ _ _ _ _ (test_validate_failed_extraction zip s e Hx)).
  set (s1 := mkState _ _ "" "").
  assert (Hc : test_compare s1 = (inr tt, s1)).
  { unfold test_compare. step. destruct vdb_has_ax; [|reflexivity].
    apply diff_if_both_skips. cbn [src_file]. now rewrite is_file_empty_path. }
  rewrite (bind_returns _ _ _ _ _ Hc).
  rewrite test_cleanup_spec. subst s1. cbn [fs out src_file dst_file].
  rewrite !(rm_absent _ "") by apply is_file_empty_path.
  tidy_out. reflexivity.
Qed.

Lemma test_job_without_archive {W : World} zip s :
  is_file (fs s) zip = false ->
  test_job zip s =
  (inr tt,
   mkState (fs s)
           (out s ++ [Separator; Processing zip; Extracting zip;
                      Caught (OSError zip); CleaningFiles (test_name zip)])
           "" "").
Proof.
  intros Hz.
  assert (Hx : extract_zip zip s = (inl (OSError zip), s))
    by now apply extract_zip_needs_archive.
  rewrite (test_job_failed_extraction zip s (OSError zip)) by now rewrite Hx.
  rewrite Hx. cbn [snd]. now rewrite rm_absent.
Qed.

(** X4. An archive that is not in the directory (its download failed
    before anything was written) is logged and skipped. In
    [download_vdb_caches.py] the job prints that it extracts and then the
    error; in [read_write_test_compression.py] it goes on to Cleanup with
    both variables still empty, whether or not the comparison is enabled.
    Either way the job returns and the directory is as it was. *)
Theorem missing_archive_is_skipped {W : World} (zip : string) (s : state) :
  is_file (fs s) zip = false ->
  cache_job zip s =
    (inr tt,
     mkState (fs s) (out s ++ [Extracting zip; Caught (OSError zip)])
             (src_file s) (dst_file s)) ∧
  test_job zip s =
    (inr tt,
     mkState (fs s)
             (out s ++ [Separator; Processing zip; Extracting zip;
                        Caught (OSError zip); CleaningFiles (test_name zip)])
             "" "").
Proof.
  intros Hz. split; [|now apply test_job_without_archive].
  rewrite cache_job_spec, extract_zip_needs_archive by assumption.
  reflexivity.
Qed.

Lemma missing_archive_is_skipped_witness :
  let W := Demo.world true "" in
  let s := Demo.dir [("other.txt", "x")] in
  said (cache_job "cube.vdb-1.0.0.zip") s =
    [Extracting "cube.vdb-1.0.0.zip"; Caught (OSError "cube.vdb-1.0.0.zip")] ∧
  fs (test_job "cube.vdb-1.0.0.zip" s).2 !! "other.txt" = Some "x".
Proof.
  intros W s.
  destruct (@missing_archive_is_skipped W "cube.vdb-1.0.0.zip" s) as [H1 H2];
    [vm_compute; reflexivity|].
  split.
  - apply said_app. now rewrite H1.
  - rewrite H2. vm_compute. reflexivity.
Defined.

(** X18. When extraction fails in [read_write_test_compression.py], the
    two variables are still empty at Cleanup, so the job removes the
    archive and nothing else: whatever the failed extraction had written
    stays in the directory. The job returns, and no comparison is made. *)
Theorem failed_extraction_removes_the_archive_only {W : World}
        (zip : string) (s : state) (e : exn) :
  (extract_zip zip s).1 = inl e ->
  test_job zip s =
  (inr tt,
   mkState (rm zip (fs (extract_zip zip s).2))
           (out s ++ [Separator; Processing zip; Extracting zip;
                      Caught e; CleaningFiles (test_name zip)])
           "" "").
Proof. apply test_job_failed_extraction. Qed.

Lemma failed_extraction_removes_the_archive_only_witness :
  let W := Demo.world true "" in
  let s := Demo.dir [("a.vdb-1.0.0.zip", "not an archive"); ("a.vdb", "old")] in
  fs (test_job "a.vdb-1.0.0.zip" s).2 !! "a.vdb-1.0.0.zip" = None ∧
  fs (test_job "a.vdb-1.0.0.zip" s).2 !! "a.vdb" = Some "old".
Proof.
  intros W s.
  rewrite (@failed_extraction_removes_the_archive_only W "a.vdb-1.0.0.zip" s
             (External "File is not a zip file")) by (vm_compute; reflexivity).
  vm_compute. split; reflexivity.
Defined.

(** ** Where a job can fail *)

Lemma diff_if_both_runs {W : World} src dst s e :
  (diff_if_both src dst s).1 = inl e ->
  is_file (fs s) src = true ∧ is_file (fs s) dst = true ∧
  diff_if_both src dst s = diff src dst s.
Proof.
  unfold diff_if_both, isfile. step.
  destruct (is_file (fs s) src); cbn; [|discriminate].
  destruct (is_file (fs s) dst); cbn; [|discriminate].
  auto.
Qed.

Lemma test_job_raised {W : World} zip s e :
  (test_job zip s).1 = inl e ->
  vdb_has_ax = true ∧
  is_file (fs (test_validate zip s).2) (src_file (test_validate zip s).2) = true ∧
  is_file (fs (test_validate zip s).2) (dst_file (test_validate zip s).2) = true ∧
  test_job zip s =
  diff (src_file (test_validate zip s).2) (dst_file (test_validate zip s).2)
       (test_validate zip s).2.
Proof.
  unfold test_job, bind.
  pose proof (test_validate_returns zip s) as Hv.
  destruct (test_validate zip s) as [[e1|[]] s1]; [discriminate|]. cbn [snd].
  destruct (test_compare s1) as [[e2|[]] s2] eqn:Hc.
  2:{ rewrite test_cleanup_spec. discriminate. }
  intros _. revert Hc. unfold test_compare. step.
  destruct vdb_has_ax; [|discriminate]. intros Hc.
  destruct (diff_if_both_runs (src_file s1) (dst_file s1) s1 e2)
    as (Hs & Hd & Heq); [now rewrite Hc|].
  repeat split; try assumption. now rewrite <- Heq.
Qed.

Lemma blosc_job_raised {W : World} src s e :
  (blosc_job src s).1 = inl e ->
  is_file (fs (blosc_validate src s).2) src = true ∧
  is_file (fs (blosc_validate src s).2) (blosc_dst src) = true ∧
  blosc_job src s = diff src (blosc_dst src) (blosc_validate src s).2.
Proof.
  unfold blosc_job, bind.
  destruct (blosc_validate_fs src s) as [Hv _].
  destruct (blosc_validate src s) as [[e1|[]] s1]; [discriminate|]. cbn [snd].
  destruct (blosc_compare src s1) as [[e2|[]] s2] eqn:Hc.
  2:{ rewrite blosc_cleanup_spec. discriminate. }
  intros _. unfold blosc_compare in Hc.
  destruct (diff_if_both_runs src (blosc_dst src) s1 e2)
    as (Hs & Hd & Heq); [now rewrite Hc|].
  repeat split; try assumption. now rewrite <- Heq.
Qed.

(** X6. A job can fail in one place only, the comparison, which is outside
    the [try]. If a job of [read_write_test_compression.py] raises, the
    comparison is enabled, both files were there after validation, and the
    job ended as [diff] did: with its exception and in the state it left,
    Cleanup not reached. The same holds for a job of
    [read_write_blosc_compression.py], where the comparison is always
    enabled. *)
Theorem job_fails_only_in_comparison {W : World} (p : string) (s : state) (e : exn) :
  ((test_job p s).1 = inl e ->
   let s1 := (test_validate p s).2 in
   vdb_has_ax = true ∧
   is_file (fs s1) (src_file s1) = true ∧
   is_file (fs s1) (dst_file s1) = true ∧
   test_job p s = diff (src_file s1) (dst_file s1) s1) ∧
  ((blosc_job p s).1 = inl e ->
   let s1 := (blosc_validate p s).2 in
   is_file (fs s1) p = true ∧
   is_file (fs s1) (blosc_dst p) = true ∧
   blosc_job p s = diff p (blosc_dst p) s1).
Proof.
  split; intros H; cbv zeta;
    [now apply (test_job_raised p s e)|now apply (blosc_job_raised p s e)].
Qed.

Lemma job_fails_only_in_comparison_witness :
  let s := Demo.dir [("a.vdb-1.0.0.zip", "zip:a.vdb=vdb1:density")] in
  let t := Demo.dir [("a.vdb", "vdb1:density")] in
  (fs (@test_job Demo.disk_full "a.vdb-1.0.0.zip" s).2 !! "a.vdb-1.0.0.zip"
     = Some "zip:a.vdb=vdb1:density" ∧
   fs (@test_job Demo.disk_full "a.vdb-1.0.0.zip" s).2 !! "a_blosc_compressed.vdb"
     = Some "vd") ∧
  fs (@blosc_job Demo.disk_full "a.vdb" t).2 !! "a.vdb" = Some "vdb1:density".
Proof.
  intros s t.
  destruct (@job_fails_only_in_comparison Demo.disk_full "a.vdb-1.0.0.zip" s
              (External "not a VDB file")) as [H1 _].
  destruct (@job_fails_only_in_comparison Demo.disk_full "a.vdb" t
              (External "not a VDB file")) as [_ H2].
  destruct H1 as (_ & _ & _ & ->); [vm_compute; reflexivity|].
  destruct H2 as (_ & _ & ->); [vm_compute; reflexivity|].
  vm_compute. repeat split; reflexivity.
Defined.

(** ** The assertion in [diff] *)





(** ** More on the dict of downloads *)

Lemma truthy_nonempty (p : string) : PyStr.truthy p = true <-> p ≠ "".
Proof. destruct p; cbn; split; congruence. Qed.

Lemma dict_set_keys (k : string) (n : nat) (d : list (string * nat)) x :
  x ∈ (dict_set k n d).*1 <-> x = k ∨ x ∈ d.*1.
Proof.
  induction d as [|[k' v'] d IH]; cbn [dict_set].
  - rewrite fmap_cons, fmap_nil, list_elem_of_singleton, elem_of_nil. cbn. tauto.
  - destruct (String.eqb_spec k k') as [<-|Hne];
      rewrite !fmap_cons, !elem_of_cons; cbn [fst]; [tauto|].
    rewrite IH. tauto.
Qed.

Lemma dict_set_NoDup (k : string) (n : nat) (d : list (string * nat)) :
  NoDup d.*1 -> NoDup (dict_set k n d).*1.
Proof.
  induction d as [|[k' v'] d IH]; cbn [dict_set]; intros Hnd.
  - apply NoDup_singleton.
  - rewrite fmap_cons in Hnd. cbn [fst] in Hnd.
    apply NoDup_cons in Hnd as [Hk Hnd].
    destruct (String.eqb_spec k k') as [<-|Hne]; rewrite fmap_cons; cbn [fst].
    + apply NoDup_cons. now split.
    + apply NoDup_cons. split; [|now apply IH].
      intros [->|Hin]%dict_set_keys; [congruence|contradiction].
Qed.

Lemma dict_set_elem (k : string) (n : nat) (d : list (string * nat)) kv :
  NoDup d.*1 ->
  kv ∈ dict_set k n d <-> kv = (k, n) ∨ (kv.1 ≠ k ∧ kv ∈ d).
Proof.
  induction d as [|[k' v'] d IH]; cbn [dict_set]; intros Hnd.
  - rewrite list_elem_of_singleton, elem_of_nil. tauto.
  - rewrite fmap_cons in Hnd. cbn [fst] in Hnd.
    apply NoDup_cons in Hnd as [Hk Hnd].
    assert (Hkeys : ∀ x : string * nat, x ∈ d -> x.1 ≠ k').
    { intros x Hx Heq. apply Hk, list_elem_of_fmap. exists x.
      split; [now symmetry|assumption]. }
    destruct (String.eqb_spec k k') as [<-|Hne]; rewrite !elem_of_cons.
    + split.
      * intros [->|Hin]; [now left|]. right. split; [now apply Hkeys|now right].
      * intros [->|[Hne [->|Hin]]]; [now left|now destruct Hne|now right].
    + rewrite (IH Hnd). split.
      * intros [->|[->|[H1 H2]]]; [right|now left|right].
        -- split; [cbn; congruence|now left].
        -- split; [assumption|now right].
      * intros [->|[H1 [->|H2]]]; [right; now left|now left|].
        right. right. now split.
Qed.

Lemma dict_set_length (k : string) (n : nat) (d : list (string * nat)) :
  length (dict_set k n d) <= S (length d).
Proof.
  induction d as [|[k' v'] d IH]; cbn [dict_set length]; [lia|].
  destruct (String.eqb k k'); cbn [length]; lia.
Qed.

Lemma register_keys (urls : list string) (n : nat) (d : list (string * nat)) x :
  x ∈ (register urls n d).*1 <-> x ∈ d.*1 ∨ x ∈ PyStr.basename <$> urls.
Proof.
  revert n d. induction urls as [|url rest IH]; intros n d; cbn [register].
  - rewrite fmap_nil, elem_of_nil. tauto.
  - rewrite IH, dict_set_keys, fmap_cons, elem_of_cons. tauto.
Qed.

Lemma register_length (urls : list string) (n : nat) (d : list (string * nat)) :
  length (register urls n d) <= length urls + length d.
Proof.
  revert n d. induction urls as [|url rest IH]; intros n d;
    cbn [register length]; [lia|].
  pose proof (IH (S n) (dict_set (PyStr.basename url) n d)).
  pose proof (dict_set_length (PyStr.basename url) n d). lia.
Qed.

(** The entries of the dict once the urls are registered: for each name,
    the last thread started under it. *)
Lemma register_elem (urls : list string) (n : nat) (d : list (string * nat)) k v :
  NoDup d.*1 ->
  (k, v) ∈ register urls n d <->
  (∃ i url, urls !! i = Some url ∧ PyStr.basename url = k ∧ v = n + i ∧
            ∀ j url', urls !! j = Some url' -> PyStr.basename url' = k -> j <= i) ∨
  ((k, v) ∈ d ∧ k ∉ PyStr.basename <$> urls).
Proof.
  revert n d. induction urls as [|url rest IH]; intros n d Hnd;
    cbn [register]; rewrite ?fmap_nil, ?fmap_cons.
  - split.
    + intros H. right. split; [assumption|apply not_elem_of_nil].
    + intros [(i & url & Hi & _)|[H _]]; [discriminate|assumption].
  - rewrite (IH (S n) _ (dict_set_NoDup _ n d Hnd)).
    rewrite (dict_set_elem _ n d (k, v) Hnd). cbn [fst]. split.
    + intros [(i & url' & Hi & Hb & -> & Hlast)|[[[= -> ->]|[Hne Hin]] Hrest]].
      * left. exists (S i), url'. repeat split; [assumption..|lia|].
        intros [|j] u Hj Hu; [lia|]. specialize (Hlast j u Hj Hu). lia.
      * left. exists 0, url. repeat split; [lia|].
        intros [|j] u Hj Hu; [lia|]. destruct Hrest.
        apply list_elem_of_fmap. exists u. split; [now symmetry|].
        exact (list_elem_of_lookup_2 rest j u Hj).
      * right. split; [assumption|].
        intros [Heq|Hin']%elem_of_cons; [congruence|contradiction].
    + intros [(i & url' & Hi & Hb & -> & Hlast)|[Hin Hk]].
      * destruct i as [|i].
        -- injection Hi as ->. right. split.
           ++ left. f_equal; [now symmetry|lia].
           ++ intros (u & Hu & Hin)%list_elem_of_fmap.
              apply list_elem_of_lookup_1 in Hin as [j Hj].
              specialize (Hlast (S j) u Hj (eq_sym Hu)). lia.
        -- left. exists i, url'. repeat split; [assumption..|lia|].
           intros j u Hj Hu. specialize (Hlast (S j) u Hj Hu). lia.
      * apply not_elem_of_cons in Hk as [Hne Hk]. right. split; [|assumption].
        right. split; [congruence|assumption].
Qed.

Lemma register_last (urls : list string) k v :
  (k, v) ∈ register urls 0 [] <->
  ∃ url, urls !! v = Some url ∧ PyStr.basename url = k ∧
         ∀ j url', urls !! j = Some url' -> PyStr.basename url' = k -> j <= v.
Proof.
  rewrite (register_elem urls 0 [] k v (NoDup_nil_2 : NoDup [].*1)). split.
  - intros [(i & url & Hi & Hb & -> & Hlast)|[[]%elem_of_nil _]].
    exists url. repeat split; assumption.
  - intros (url & Hv & Hb & Hlast). left. exists v, url. repeat split; assumption.
Qed.

(** X10. The dict keeps one thread per archive name, the last one started
    under it: an entry [(k, v)] is in the dict after the start-up loop
    exactly when url number [v] has the name [k] and no later url has. So
    every unit the main loop hands out is the last thread of its name; an
    earlier one is never joined. *)
Theorem last_thread_of_a_name_is_kept {W : World}
        (alive : nat -> nat -> bool) (urls : list string)
        (job : string -> M unit) (n patience : nat) (s : state) :
  (∀ k v, (k, v) ∈ register urls 0 [] <->
          ∃ url, urls !! v = Some url ∧ PyStr.basename url = k ∧
                 ∀ j url', urls !! j = Some url' ->
                           PyStr.basename url' = k -> j <= v) ∧
  (∀ y j url', y ∈ yielded (main_loop alive urls job n patience s) ->
               urls !! j = Some url' -> PyStr.basename url' = y_file y ->
               j <= y_thread y).
Proof.
  split; [apply register_last|].
  intros y j url' Hy Hj Hb.
  apply main_loop_yield_registered in Hy as [Hy _].
  apply register_last in Hy as (url & _ & _ & Hlast). now apply (Hlast j url').
Qed.

Lemma register_count (urls : list string) :
  length (register urls 0 []) = length (remove_dups (PyStr.basename <$> urls)).
Proof.
  rewrite <- (length_fmap fst (register urls 0 [])).
  apply Permutation_length, NoDup_Permutation.
  - apply register_initial.
  - apply NoDup_remove_dups.
  - intros x. rewrite register_keys, elem_of_remove_dups, elem_of_nil. tauto.
Qed.

(** X11. A run of the main loop that finishes has handed out one unit per
    distinct archive name of the catalog, which is at most one per url. *)
Theorem finished_run_drains_one_unit_per_name {W : World}
        (alive : nat -> nat -> bool) (urls : list string)
        (job : string -> M unit) (n patience : nat) (s : state) :
  how (main_loop alive urls job n patience s) = Finished ->
  length (yielded (main_loop alive urls job n patience s)) =
    length (remove_dups (PyStr.basename <$> urls)) ∧
  length (yielded (main_loop alive urls job n patience s)) <= length urls.
Proof.
  intros Hfin. rewrite main_loop_finished_length by assumption.
  split; [apply register_count|].
  pose proof (register_length urls 0 []). cbn [length] in *. lia.
Qed.

Lemma finished_run_drains_one_unit_per_name_witness :
  let W := Demo.world true "" in
  let urls := Demo.two_models ++ Demo.two_models in
  length (yielded (main_loop Demo.finished urls cache_job 4 1 (Demo.dir []))) = 2.
Proof.
  intros W urls.
  destruct (@finished_run_drains_one_unit_per_name W Demo.finished urls cache_job 4 1
              (Demo.dir [])) as [H _]; [vm_compute; reflexivity|].
  rewrite H. vm_compute. reflexivity.
Defined.

(** ** How the main loop ends *)

Lemma drain_never_crashes {W : World} (alive : nat -> nat -> bool)
      (urls : list string) (job : string -> M unit) n patience t d acc s e :
  (∀ zip s', (job zip s').1 = inr tt) ->
  how (drain alive urls job n patience t d acc s) ≠ Crashed e.
Proof.
  intros Hjob. revert t d acc s.
  induction n as [|n IH]; intros t d acc s; destruct d as [|kv d'];
    cbn [drain]; try discriminate.
  destruct (wait alive patience t (kv :: d')) as [y|]; [|discriminate].
  pose proof (Hjob (y_file y) (joined urls (y_thread y) s)) as Hret.
  destruct (job (y_file y) (joined urls (y_thread y) s)) as [[e'|[]] s'];
    [discriminate|].
  apply IH.
Qed.

(** X5. [download_vdb_caches.py] never ends in an exception: everything its
    loop body does after the join is inside the [try], and what a fetch
    thread raises ends the thread only. However far the run is observed,
    it has finished or is still polling. *)
Theorem download_script_never_crashes {W : World}
        (alive : nat -> nat -> bool) (n patience : nat) (s : state) (e : exn) :
  how (download_vdb_caches alive n patience s) ≠ Crashed e.
Proof.
  rewrite download_vdb_caches_eq, main_loop_drain.
  apply drain_never_crashes. intros zip s'. now rewrite cache_job_spec.
Qed.

Lemma register_names_truthy (urls : list string) :
  (∀ url, url ∈ urls -> PyStr.basename url ≠ "") ->
  ∀ kv, kv ∈ register urls 0 [] -> PyStr.truthy kv.1 = true.
Proof.
  intros Hurls kv Hkv.
  destruct (register_initial urls) as (_ & _ & Hin).
  destruct (Hin kv Hkv) as (url & Hurl & <-).
  apply truthy_nonempty, Hurls. now apply list_elem_of_lookup_2 in Hurl.
Qed.

(** X8. The main loop ends once the threads have: if every thread is dead
    from poll [T] on, no url has an empty archive name and the job never
    raises, then a run observed for one turn per url, each waiting more
    than [T] polls, has finished. *)
Theorem loop_ends_once_threads_have {W : World}
        (alive : nat -> nat -> bool) (urls : list string)
        (job : string -> M unit) (T n patience : nat) (s : state) :
  (∀ t th, T <= t -> alive t th = false) ->
  (∀ url, url ∈ urls -> PyStr.basename url ≠ "") ->
  (∀ zip s', (job zip s').1 = inr tt) ->
  length urls <= n -> T < patience ->
  how (main_loop alive urls job n patience s) = Finished.
Proof.
  intros Hdead Hurls Hjob Hn Hp. rewrite main_loop_drain.
  apply (drain_finishes alive T Hdead); try assumption; try lia.
  - now apply register_names_truthy.
  - pose proof (register_length urls 0 []). cbn [length] in *. lia.
Qed.

Lemma loop_ends_once_threads_have_witness :
  let W := Demo.world true "" in
  how (main_loop (fun t th => Nat.ltb t (3 - th))
         Demo.two_models cache_job 2 4 (Demo.dir [])) = Finished.
Proof.
  intros W.
  apply (@loop_ends_once_threads_have W
           (fun t th => Nat.ltb t (3 - th)) Demo.two_models cache_job 3 2 4).
  - intros t th Ht. apply Nat.ltb_ge. lia.
  - intros url Hurl. unfold Demo.two_models in Hurl.
    rewrite !elem_of_cons in Hurl.
    destruct Hurl as [->|[->|[]%elem_of_nil]]; vm_compute; discriminate.
  - intros zip s'. now rewrite cache_job_spec.
  - cbn. lia.
  - lia.
Defined.

Lemma drain_blocked {W : World} (alive : nat -> nat -> bool)
      (urls : list string) (job : string -> M unit) n patience t d acc s :
  "" ∈ d.*1 ->
  how (drain alive urls job n patience t d acc s) ≠ Finished.
Proof.
  revert t d acc s.
  induction n as [|n IH]; intros t d acc s Hin; destruct d as [|kv d'];
    cbn [drain]; try discriminate; try (now apply elem_of_nil in Hin).
  destruct (wait alive patience t (kv :: d')) as [y|] eqn:Hw; [|discriminate].
  apply wait_spec in Hw as (_ & _ & Hname & _).
  destruct (job (y_file y) (joined urls (y_thread y) s)) as [[e'|[]] s'];
    [discriminate|].
  apply IH.
  apply list_elem_of_fmap in Hin as (kv' & Hk & Hin).
  apply list_elem_of_fmap. exists kv'. split; [assumption|].
  apply dict_del_elem. split; [|assumption].
  intros Heq. rewrite <- Heq, <- Hk in Hname. discriminate.
Qed.

(** X9. A url whose archive name is empty (it ends in a slash) keeps the
    main loop from ever finishing: its entry is in the dict, the inner
    loop takes an empty name for no name and polls again, and the entry is
    never deleted. However far such a run is observed and whatever the
    threads and the jobs do, it has not finished. *)
Theorem empty_archive_name_blocks_the_loop {W : World}
        (alive : nat -> nat -> bool) (urls : list string)
        (job : string -> M unit) (n patience : nat) (s : state) (url : string) :
  url ∈ urls -> PyStr.basename url = "" ->
  how (main_loop alive urls job n patience s) ≠ Finished.
Proof.
  intros Hurl Hb. rewrite main_loop_drain. apply drain_blocked.
  apply register_keys. right. apply list_elem_of_fmap. now exists url.
Qed.

Lemma empty_archive_name_blocks_the_loop_witness :
  let W := Demo.world true "" in
  how (main_loop Demo.finished
         ["https://artifacts.aswf.io/models/cube.vdb-1.0.0.zip";
          "https://artifacts.aswf.io/models/"]
         cache_job 5 5 (Demo.dir [])) ≠ Finished.
Proof.
  intros W.
  apply (@empty_archive_name_blocks_the_loop W Demo.finished
           _ cache_job 5 5 (Demo.dir []) "https://artifacts.aswf.io/models/").
  - apply elem_of_cons. right. apply elem_of_cons. now left.
  - vm_compute. reflexivity.
Defined.

(** ** The polls *)

Lemma drain_polls {W : World} (alive : nat -> nat -> bool)
      (urls : list string) (job : string -> M unit) n patience t d acc s :
  ∃ ys,
    yielded (drain alive urls job n patience t d acc s) = acc ++ ys ∧
    (∀ i y, ys !! i = Some y -> t + i < y_poll y) ∧
    (∀ i j yi yj, ys !! i = Some yi -> ys !! j = Some yj -> i < j ->
                  y_poll yi < y_poll yj).
Proof.
  assert (Hnone : ∀ t acc r, yielded r = acc ->
             ∃ ys : list yield, yielded r = acc ++ ys ∧
               (∀ i y, ys !! i = Some y -> t + i < y_poll y) ∧
               (∀ i j yi yj, ys !! i = Some yi -> ys !! j = Some yj -> i < j ->
                             y_poll yi < y_poll yj)).
  { intros t' acc' r Hr. exists []. rewrite app_nil_r.
    split; [assumption|]. split; intros; discriminate. }
  revert t d acc s. induction n as [|n IH]; intros t d acc s.
  { destruct d; cbn [drain]; now apply Hnone. }
  destruct d as [|kv d']; cbn [drain]; [now apply Hnone|].
  destruct (wait alive patience t (kv :: d')) as [y|] eqn:Hw; [|now apply Hnone].
  apply wait_spec in Hw as (_ & _ & _ & Hpoll).
  destruct (job (y_file y) (joined urls (y_thread y) s)) as [[e|[]] s'].
  { exists [y]. cbn [yielded]. split; [reflexivity|]. split.
    - intros [|i] y' Hy'; [|discriminate]. injection Hy' as <-. lia.
    - intros [|i] [|j] yi yj Hi Hj Hlt; try lia; discriminate. }
  destruct (IH (y_poll y) (dict_del (y_file y) (kv :: d')) (acc ++ [y]) s')
    as (ys & Hy & Hlow & Hinc).
  exists (y :: ys). rewrite Hy, <- app_assoc. split; [reflexivity|]. split.
  - intros [|i] y' Hy'.
    + injection Hy' as <-. lia.
    + specialize (Hlow i y' Hy'). lia.
  - intros [|i] [|j] yi yj Hi Hj Hlt; try lia.
    + injection Hi as <-. specialize (Hlow j yj Hj). lia.
    + apply (Hinc i j); [assumption..|lia].
Qed.

(** X12. Every unit costs a poll, and so a second of sleep: the [i]-th unit
    handed out (counting from 0) is handed out at poll [i + 1] at the
    earliest, and the polls at which units are handed out increase
    strictly. Archives that are all downloaded already are still drained
    one per second. *)
Theorem each_unit_costs_a_poll {W : World}
        (alive : nat -> nat -> bool) (urls : list string)
        (job : string -> M unit) (n patience : nat) (s : state) :
  let r := main_loop alive urls job n patience s in
  (∀ i y, yielded r !! i = Some y -> i < y_poll y) ∧
  (∀ i j yi yj, yielded r !! i = Some yi -> yielded r !! j = Some yj ->
                i < j -> y_poll yi < y_poll yj).
Proof.
  cbv zeta. rewrite main_loop_drain.
  destruct (drain_polls alive urls job n patience 0 (register urls 0 []) []
              (mkState (fs s) (out s ++ (Initiating <$> urls))
                       (src_file s) (dst_file s)))
    as (ys & -> & Hlow & Hinc).
  cbn [app]. split; [|exact Hinc].
  intros i y Hy. specialize (Hlow i y Hy). lia.
Qed.

(** ** Which unit is handed out, and when *)

Lemma find_first {A} (f : A -> bool) (l : list A) x :
  List.find f l = Some x ->
  ∃ l1 l2, l = l1 ++ x :: l2 ∧ ∀ z, z ∈ l1 -> f z = false.
Proof.
  induction l as [|a l IH]; cbn [List.find]; [discriminate|].
  destruct (f a) eqn:Ha.
  - intros [= ->]. exists [], l. split; [reflexivity|].
    intros z []%elem_of_nil.
  - intros H. destruct (IH H) as (l1 & l2 & -> & Hl1).
    exists (a :: l1), l2. split; [reflexivity|].
    intros z [->|Hz]%elem_of_cons; [assumption|now apply Hl1].
Qed.

Lemma wait_first_done (alive : nat -> nat -> bool) patience t d y :
  wait alive patience t d = Some y ->
  first_done alive (y_poll y) d = Some (unit_of y).
Proof.
  revert t. induction patience as [|p IH]; intros t; cbn [wait]; [discriminate|].
  destruct (first_done alive (S t) d) as [[file th]|] eqn:Hf; [|apply IH].
  destruct (PyStr.truthy file); [|apply IH].
  intros [= <-]. exact Hf.
Qed.

Lemma wait_earliest (alive : nat -> nat -> bool) patience t d y :
  wait alive patience t d = Some y ->
  (∀ kv, kv ∈ d -> PyStr.truthy kv.1 = true) ->
  ∀ t' kv, t < t' < y_poll y -> kv ∈ d -> alive t' kv.2 = true.
Proof.
  intros Hw Hkeys. revert t Hw.
  induction patience as [|p IH]; intros t; cbn [wait]; [discriminate|].
  destruct (first_done alive (S t) d) as [[file th]|] eqn:Hf.
  - pose proof (first_done_spec alive _ _ _ _ Hf) as [Hin _].
    specialize (Hkeys _ Hin). cbn [fst] in Hkeys. rewrite Hkeys.
    intros [= <-] t' kv Ht'. cbn [y_poll] in Ht'. lia.
  - intros Hw t' kv Ht' Hkv.
    destruct (decide (t' = S t)) as [->|Hne].
    + unfold first_done in Hf.
      pose proof (find_none _ _ Hf kv) as Hz. cbv beta in Hz.
      apply negb_false_iff, Hz. now apply list_elem_of_In.
    + apply (IH (S t) Hw t' kv); [lia|assumption].
Qed.

(** X14. The inner loop hands out the first dead thread, at the first
    poll that finds one. At the poll of a unit every entry that stands
    before it in the dict is still alive; and, no name in the dict being
    empty, at every earlier poll of this wait all threads of the dict were
    alive. *)
Theorem tracker_hands_out_the_first_dead_thread
        (alive : nat -> nat -> bool) (patience t : nat)
        (d : list (string * nat)) (y : yield) :
  wait alive patience t d = Some y ->
  (∃ d1 d2, d = d1 ++ unit_of y :: d2 ∧
            ∀ kv, kv ∈ d1 -> alive (y_poll y) kv.2 = true) ∧
  ((∀ kv, kv ∈ d -> PyStr.truthy kv.1 = true) ->
   ∀ t' kv, t < t' < y_poll y -> kv ∈ d -> alive t' kv.2 = true).
Proof.
  intros Hw. split; [|now apply (wait_earliest alive patience)].
  apply wait_first_done in Hw. unfold first_done in Hw.
  apply find_first in Hw as (d1 & d2 & -> & Hd1).
  exists d1, d2. split; [reflexivity|].
  intros kv Hkv. specialize (Hd1 kv Hkv). now apply negb_false_iff in Hd1.
Qed.

Lemma tracker_hands_out_the_first_dead_thread_witness :
  let alive := fun t th => Nat.ltb t (3 - th) in
  let d := [("a.zip", 0); ("b.zip", 1)] in
  wait alive 5 0 d = Some (mkYield "b.zip" 1 2) ∧
  alive 2 0 = true ∧ alive 1 0 = true ∧ alive 1 1 = true.
Proof.
  intros alive d.
  assert (Hw : wait alive 5 0 d = Some (mkYield "b.zip" 1 2))
    by (vm_compute; reflexivity).
  destruct (tracker_hands_out_the_first_dead_thread alive 5 0 d _ Hw)
    as [(d1 & d2 & Hd & Hbefore) Hearlier].
  split; [exact Hw|]. split; [|split].
  - destruct d1 as [|kv d1]; [discriminate|].
    injection Hd as <- _. apply (Hbefore ("a.zip", 0)).
    apply elem_of_cons. now left.
  - apply (Hearlier (fun kv Hkv => ltac:(
             unfold d in Hkv; rewrite !elem_of_cons in Hkv;
             destruct Hkv as [->|[->|[]%elem_of_nil]]; reflexivity))
             1 ("a.zip", 0)); [cbn; lia|apply elem_of_cons; now left].
  - apply (Hearlier (fun kv Hkv => ltac:(
             unfold d in Hkv; rewrite !elem_of_cons in Hkv;
             destruct Hkv as [->|[->|[]%elem_of_nil]]; reflexivity))
             1 ("b.zip", 1)); [cbn; lia|].
    apply elem_of_cons. right. apply elem_of_cons. now left.
Defined.

Lemma dict_del_head (k : string) (v : nat) (d : list (string * nat)) :
  k ∉ d.*1 -> dict_del k ((k, v) :: d) = d.
Proof.
  intros Hk. unfold dict_del. rewrite filter_cons. cbn [fst].
  destruct (decide (k ≠ k)) as [Hne|_]; [now destruct Hne|].
  now apply dict_del_absent.
Qed.

Lemma drain_in_order {W : World} (alive : nat -> nat -> bool)
      (urls : list string) (job : string -> M unit) n patience t d acc s :
  (∀ t th, 1 <= t -> alive t th = false) ->
  (∀ zip s', (job zip s').1 = inr tt) ->
  (∀ kv, kv ∈ d -> PyStr.truthy kv.1 = true) ->
  NoDup d.*1 -> length d <= n -> 1 <= patience ->
  unit_of <$> yielded (drain alive urls job n patience t d acc s) =
    (unit_of <$> acc) ++ d ∧
  y_poll <$> yielded (drain alive urls job n patience t d acc s) =
    (y_poll <$> acc) ++ seq (S t) (length d).
Proof.
  intros Hdead Hjob Hkeys Hnd Hn Hp. revert n t acc s Hkeys Hnd Hn.
  induction d as [|[k v] d IH]; intros n t acc s Hkeys Hnd Hn.
  { destruct n; cbn [drain yielded length seq]; rewrite !app_nil_r; now split. }
  destruct n as [|n]; [cbn in Hn; lia|]. cbn [drain].
  destruct patience as [|p]; [lia|]. cbn [wait].
  unfold first_done. cbn [List.find snd].
  rewrite (Hdead (S t) v) by lia. cbn [negb].
  assert (Hkt : PyStr.truthy k = true)
    by (apply (Hkeys (k, v)), elem_of_cons; now left).
  rewrite Hkt.
  cbn [y_file y_thread y_poll].
  pose proof (Hjob k (joined urls v s)) as Hret.
  destruct (job k (joined urls v s)) as [[e|[]] s']; [discriminate|].
  rewrite fmap_cons in Hnd. cbn [fst] in Hnd.
  apply NoDup_cons in Hnd as [Hk Hnd].
  rewrite (dict_del_head k v d Hk).
  destruct (IH n (S t) (acc ++ [mkYield k v (S t)]) s') as [-> ->].
  - intros kv Hkv. apply Hkeys, elem_of_cons. now right.
  - assumption.
  - cbn [length] in Hn. lia.
  - rewrite !fmap_app, <- !app_assoc. cbn. split; reflexivity.
Qed.

(** X13. When every download is over before the first poll, the archives
    are processed in the order of the dict, one at each poll from the
    first on: with no empty archive name, a job that never raises and the
    run observed for a turn per url, the units handed out are the entries
    of the dict after start-up, in its order, at polls 1, 2, 3, ... *)
Theorem finished_downloads_are_drained_in_order {W : World}
        (alive : nat -> nat -> bool) (urls : list string)
        (job : string -> M unit) (n patience : nat) (s : state) :
  (∀ t th, 1 <= t -> alive t th = false) ->
  (∀ url, url ∈ urls -> PyStr.basename url ≠ "") ->
  (∀ zip s', (job zip s').1 = inr tt) ->
  length urls <= n -> 1 <= patience ->
  let r := main_loop alive urls job n patience s in
  unit_of <$> yielded r = register urls 0 [] ∧
  y_poll <$> yielded r = seq 1 (length (register urls 0 [])).
Proof.
  intros Hdead Hurls Hjob Hn Hp. cbv zeta. rewrite main_loop_drain.
  apply (drain_in_order alive urls job n patience 0 (register urls 0 []) []);
    try assumption.
  - now apply register_names_truthy.
  - apply register_initial.
  - pose proof (register_length urls 0 []). cbn [length] in *. lia.
Qed.

Lemma finished_downloads_are_drained_in_order_witness :
  let W := Demo.world true "" in
  let r := main_loop Demo.finished Demo.two_models cache_job 2 1 (Demo.dir []) in
  unit_of <$> yielded r = [("cube.vdb-1.0.0.zip", 0); ("smoke1.vdb-1.0.0.zip", 1)] ∧
  y_poll <$> yielded r = [1; 2].
Proof.
  intros W r.
  destruct (@finished_downloads_are_drained_in_order W Demo.finished
              Demo.two_models cache_job 2 1 (Demo.dir [])) as [H1 H2].
  - reflexivity.
  - intros url Hurl. unfold Demo.two_models in Hurl.
    rewrite !elem_of_cons in Hurl.
    destruct Hurl as [->|[->|[]%elem_of_nil]]; vm_compute; discriminate.
  - intros zip s'. now rewrite cache_job_spec.
  - cbn. lia.
  - lia.
  - subst r. rewrite H1, H2. vm_compute. split; reflexivity.
Defined.

(** ** What a download leaves *)

Lemma received_from (acc : string) (chunks : list string) :
  foldl (fun f chunk => if PyStr.truthy chunk then f +:+ chunk else f) acc chunks =
  acc +:+ foldr String.append "" chunks.
Proof.
  revert acc. induction chunks as [|c rest IH]; intros acc; cbn [foldl foldr].
  - now rewrite append_empty_r.
  - rewrite IH. destruct c as [|x c]; cbn [PyStr.truthy].
    + now rewrite append_nil.
    + now rewrite append_assoc.
Qed.

Lemma received_concat (chunks : list string) :
  received chunks = foldr String.append "" chunks.
Proof. unfold received. now rewrite received_from, append_nil. Qed.

(** X17. What [download] leaves behind. If the request itself fails,
    nothing is created. Otherwise the file holds the chunks that were
    delivered, in order (skipping empty chunks changes nothing), also when
    the stream breaks off: the error then surfaces after the incomplete
    file has been written. No other file is touched and nothing is
    printed. *)
Theorem download_leaves_what_was_received {W : World}
        (link file : string) (s : state) :
  file ≠ "" ->
  match requests_get link with
  | inl msg => download link file s = (inl (External msg), s)
  | inr (chunks, err) =>
      download link file s =
      (match err with Some msg => inl (External msg) | None => inr tt end,
       mkState (<[file := foldr String.append "" chunks]> (fs s))
               (out s) (src_file s) (dst_file s))
  end.
Proof.
  intros Hfile. apply truthy_nonempty in Hfile.
  unfold download, lift, write_file. step.
  destruct (requests_get link) as [msg|[chunks err]]; [reflexivity|].
  step. rewrite Hfile. cbn. rewrite received_concat.
  destruct err; reflexivity.
Qed.

Lemma download_leaves_what_was_received_witness :
  fs (@download (Demo.world true "")
        "https://artifacts.aswf.io/models/cube.vdb-1.0.0.zip"
        "cube.vdb-1.0.0.zip" (Demo.dir [])).2 !! "cube.vdb-1.0.0.zip"
  = Some "zip:cube.vdb=vdb1:density".
Proof.
  pose proof (@download_leaves_what_was_received (Demo.world true "")
                "https://artifacts.aswf.io/models/cube.vdb-1.0.0.zip"
                "cube.vdb-1.0.0.zip" (Demo.dir [])) as H.
  cbn [requests_get Demo.world Demo.serve] in H.
  rewrite H by discriminate. vm_compute. reflexivity.
Defined.

(** ** [read_write_blosc_compression.py]: what a job and a run touch *)

Lemma rm_lookup_other d p q : q ≠ p -> rm p d !! q = d !! q.
Proof.
  intros Hq. unfold rm. destruct (is_file d p); [|reflexivity].
  now rewrite lookup_delete_ne by congruence.
Qed.

Section Blosc.

Context {W : World}.
Hypothesis quiet : quiet_tool.

Lemma diff_if_both_fs src dst s : fs (diff_if_both src dst s).2 = fs s.
Proof.
  unfold diff_if_both, isfile. step.
  destruct (is_file (fs s) src); cbn; [|reflexivity].
  destruct (is_file (fs s) dst); cbn; [|reflexivity].
  now apply diff_fs.
Qed.

Lemma blosc_job_other src q s :
  q ≠ src -> q ≠ blosc_dst src ->
  fs (blosc_job src s).2 !! q = fs s !! q.
Proof.
  intros Hs Hd. unfold blosc_job, bind.
  pose proof (blosc_validate_other src q s Hd) as Hv.
  destruct (blosc_validate src s) as [[e|[]] s1]; cbn [snd] in *; [assumption|].
  pose proof (diff_if_both_fs src (blosc_dst src) s1) as Hc.
  fold (blosc_compare src s1) in Hc.
  destruct (blosc_compare src s1) as [[e|[]] s2]; cbn [snd] in *.
  - now rewrite Hc.
  - rewrite blosc_cleanup_spec. cbn [snd fs].
    rewrite !rm_lookup_other by assumption. now rewrite Hc.
Qed.

Lemma blosc_job_own src s :
  src ≠ "" -> returned (blosc_job src s).1 = true ->
  fs (blosc_job src s).2 !! src = None ∧
  fs (blosc_job src s).2 !! blosc_dst src = None.
Proof.
  intros Hsrc Hret.
  destruct (blosc_job_returned src s Hret) as (s2 & ->).
  rewrite blosc_cleanup_spec. cbn [snd fs]. split.
  - now apply rm_lookup_none, rm_lookup_same.
  - apply rm_lookup_same. unfold blosc_dst. now apply append_nonempty.
Qed.

Lemma for_each_blosc_job xs s :
  (∀ x, x ∈ xs -> x ≠ "") ->
  returned (for_each xs blosc_job s).1 = true ->
  (∀ x, x ∈ xs -> fs (for_each xs blosc_job s).2 !! x = None) ∧
  (∀ x, x ∈ xs -> fs (for_each xs blosc_job s).2 !! blosc_dst x = None) ∧
  (∀ q, fs (for_each xs blosc_job s).2 !! q = None ∨
        fs (for_each xs blosc_job s).2 !! q = fs s !! q).
Proof.
  revert s. induction xs as [|x rest IH]; intros s Hxs; cbn [for_each].
  - intros _. split; [intros x []%elem_of_nil|].
    split; [intros x []%elem_of_nil|]. intros q. now right.
  - unfold bind.
    pose proof (blosc_job_own x s) as Hown.
    pose proof (fun q => blosc_job_other x q s) as Hother.
    destruct (blosc_job x s) as [[e|[]] s1]; [discriminate|]. cbn [fst snd] in *.
    intros Hret.
    destruct Hown as [Hx Hdx]; [apply Hxs, elem_of_cons; now left|reflexivity|].
    destruct (IH s1) as (Hsrc & Hdst & Hall);
      [intros y Hy; apply Hxs, elem_of_cons; now right|assumption|].
    split; [|split].
    + intros y [->|Hy]%elem_of_cons; [|now apply Hsrc].
      destruct (Hall x) as [H|H]; [assumption|now rewrite H].
    + intros y [->|Hy]%elem_of_cons; [|now apply Hdst].
      destruct (Hall (blosc_dst x)) as [H|H]; [assumption|now rewrite H].
    + intros q. destruct (Hall q) as [H|H]; [now left|]. rewrite H.
      destruct (decide (q = x)) as [->|Hqx]; [now left|].
      destruct (decide (q = blosc_dst x)) as [->|Hqd]; [now left|].
      right. now apply Hother.
Qed.

End Blosc.

Lemma glob_vdb_elem (d : gmap string string) (p : string) :
  p ∈ glob_vdb d <-> matches_vdb p = true ∧ is_Some (d !! p).
Proof.
  unfold glob_vdb. rewrite list_elem_of_filter, list_elem_of_fmap. split.
  - intros [Hm ([k v] & -> & Hin)]. split; [assumption|].
    apply elem_of_map_to_list in Hin. cbn. eauto.
  - intros [Hm [v Hv]]. split; [assumption|].
    exists (p, v). split; [reflexivity|]. now apply elem_of_map_to_list.
Qed.

Lemma matches_vdb_nonempty (p : string) : matches_vdb p = true -> p ≠ "".
Proof. intros H ->. discriminate. Qed.

(** ** The console only grows *)

Lemma appends_ret {A} (a : A) : appends (ret a).
Proof. intros s. exists []. cbn. now rewrite app_nil_r. Qed.

Lemma appends_raise {A} e : appends (@raise A e).
Proof. intros s. exists []. cbn. now rewrite app_nil_r. Qed.

Lemma appends_print ev : appends (print ev).
Proof. intros s. now exists [ev]. Qed.

Lemma appends_same {A} (m : M A) : (∀ s, out (m s).2 = out s) -> appends m.
Proof. intros H s. exists []. now rewrite H, app_nil_r. Qed.

Lemma appends_bind {A B} (m : M A) (k : A -> M B) :
  appends m -> (∀ a, appends (k a)) -> appends (bind m k).
Proof.
  intros Hm Hk s. unfold bind. destruct (Hm s) as [evs Hevs].
  destruct (m s) as [[e|a] s1]; cbn [snd] in *; [now exists evs|].
  destruct (Hk a s1) as [evs' Hevs']. exists (evs ++ evs').
  now rewrite Hevs', Hevs, app_assoc.
Qed.

Lemma appends_try body handler :
  appends body -> (∀ e, appends (handler e)) -> appends (try_except body handler).
Proof.
  intros Hm Hk s. unfold try_except. destruct (Hm s) as [evs Hevs].
  destruct (body s) as [[e|a] s1]; cbn [snd] in *; [|now exists evs].
  destruct (Hk e s1) as [evs' Hevs']. exists (evs ++ evs').
  now rewrite Hevs', Hevs, app_assoc.
Qed.

Lemma appends_fs_only {A} (m : M A) : fs_only m -> appends m.
Proof. intros H. apply appends_same. intros s. now rewrite (H s). Qed.

Section Console.

Context {W : World}.

Lemma appends_round_trip label src dst : appends (round_trip label src dst).
Proof.
  unfold round_trip, write_and_report, write_copy, report_sizes.
  apply appends_bind; [apply appends_fs_only, fs_only_readAll|]. intros grids.
  apply appends_bind.
  { destruct (Nat.ltb 2 (length grids)); [|apply appends_ret].
    apply appends_bind; [apply appends_print|intros; apply appends_raise]. }
  intros _. apply appends_bind.
  { apply appends_bind.
    { destruct grids; [apply appends_raise|apply appends_ret]. }
    intros u. apply appends_bind.
    { destruct u as [[|g gs]|kv]; [apply appends_raise|apply appends_ret|
                                    apply appends_raise]. }
    intros u'. apply appends_bind; [apply appends_fs_only, fs_only_write|].
    intros _. apply appends_bind; [apply appends_fs_only, fs_only_readAll|].
    intros _. apply appends_ret. }
  intros _. apply appends_bind; [apply appends_fs_only, fs_only_getsize|].
  intros a. apply appends_bind; [apply appends_fs_only, fs_only_getsize|].
  intros b. repeat (apply appends_bind; [apply appends_print|intros _]).
  apply appends_bind; [|intros; apply appends_print].
  unfold comp_ratio. destruct b; [apply appends_raise|apply appends_ret].
Qed.

Lemma appends_diff_if_both src dst : appends (diff_if_both src dst).
Proof.
  intros s. exists (said (diff_if_both src dst) s). unfold said.
  assert (H : ∃ evs, out (diff_if_both src dst s).2 = out s ++ evs).
  { unfold diff_if_both, isfile. step.
    destruct (is_file (fs s) src); cbn;
      [|exists []; now rewrite app_nil_r].
    destruct (is_file (fs s) dst); cbn;
      [|exists []; now rewrite app_nil_r].
    unfold diff. step.
    set (s1 := mkState (fs s) (out s ++ [Comparing]) (src_file s) (dst_file s)).
    rewrite (fingerprint_run src s1).
    destruct (fingerprint src s1).1 as [e|a]; [now exists [Comparing]|].
    rewrite (fingerprint_run dst s1).
    destruct (fingerprint dst s1).1 as [e|b]; [now exists [Comparing]|].
    destruct (String.eqb a b); [now exists [Comparing]|].
    unfold popen, put_fs, lift. subst s1. step.
    destruct (vdb_ax (fs s) ["vdb_ax"; src; dst; "-s"; ax_code a b])
      as [[msg|[o e]] d']; cbn; [now exists [Comparing]|].
    destruct (PyStr.truthy o); cbn; [|now exists [Comparing]].
    exists [Comparing; Differ src dst]. now rewrite <- app_assoc. }
  destruct H as [evs ->]. now rewrite drop_app_length.
Qed.

Lemma appends_blosc_rest src :
  appends (try_except (round_trip src src (blosc_dst src))
                      (fun e => print (Caught e)) ;;
           blosc_compare src ;; blosc_cleanup src).
Proof.
  apply appends_bind.
  { apply appends_try; [apply appends_round_trip|intros; apply appends_print]. }
  intros _. apply appends_bind; [apply appends_diff_if_both|].
  intros _. intros s. rewrite blosc_cleanup_spec. cbn [snd out]. eauto.
Qed.

Lemma blosc_job_announces src s :
  ∃ evs, out (blosc_job src s).2 = out s ++ Separator :: Processing src :: evs.
Proof.
  pose proof (appends_blosc_rest src
                (mkState (fs s) ((out s ++ [Separator]) ++ [Processing src])
                         (src_file s) (dst_file s))) as [evs Hevs].
  exists evs. unfold blosc_job, blosc_validate.
  unfold bind at 1 2 3. unfold print at 1 2. cbn [fs out src_file dst_file].
  unfold bind in Hevs. cbn [out] in Hevs.
  unfold bind.
  match goal with
  | H : out ?a = _ |- out ?b = _ => change b with a; rewrite H
  end.
  now rewrite <- !app_assoc.
Qed.

End Console.

(** ** The whole run of [read_write_blosc_compression.py] *)

Lemma prefix_dot_append (a b : string) :
  String.prefix "." a = false -> String.prefix "." b = false ->
  String.prefix "." (a +:+ b) = false.
Proof.
  destruct a as [|c r]; [now rewrite append_nil|].
  rewrite append_cons. cbn [String.prefix].
  destruct (ascii_dec "." c); [|reflexivity].
  destruct r; discriminate.
Qed.

Lemma substring_append_skip (a b : string) (n m : nat) :
  String.substring (String.length a + n) m (a +:+ b) = String.substring n m b.
Proof.
  induction a as [|c a IH]; [now rewrite append_nil|].
  rewrite append_cons. cbn [String.length Nat.add String.substring]. exact IH.
Qed.

Lemma before_sep_no_dot (sep s : string) :
  String.prefix "." s = false ->
  String.prefix "." (PyStr.before_sep sep s) = false.
Proof.
  destruct s as [|c r]; [reflexivity|]. cbn [PyStr.before_sep].
  destruct (String.prefix sep (String c r)); [reflexivity|].
  cbn [String.prefix]. destruct (ascii_dec "." c); [|reflexivity].
  destruct r; discriminate.
Qed.

Lemma blosc_name_no_dot (src : string) :
  String.prefix "." src = false -> String.prefix "." (blosc_name src) = false.
Proof.
  intros Hsrc. unfold blosc_name, PyStr.get_or.
  destruct (PyStr.get vdb_aliases_vdb (PyStr.replace "_blosc" "" src))
    as [v|] eqn:Hget; [|now apply before_sep_no_dot].
  apply alias_vdb_values in Hget as [[_ ->]|[_ ->]]; reflexivity.
Qed.

(** The output path of a data file that [glob] lists would be listed too. *)
Lemma matches_blosc_dst (src : string) :
  matches_vdb src = true -> matches_vdb (blosc_dst src) = true.
Proof.
  unfold matches_vdb. intros [Hdot _]%andb_true_iff.
  apply negb_true_iff in Hdot. apply andb_true_iff. split.
  - apply negb_true_iff. unfold blosc_dst.
    apply prefix_dot_append; [now apply blosc_name_no_dot|reflexivity].
  - unfold blosc_dst. rewrite length_append.
    replace (String.length (blosc_name src) + String.length "_output.vdb" - 4)
      with (String.length (blosc_name src) + 7) by (cbn; lia).
    now rewrite substring_append_skip.
Qed.

Section BloscRun.

Context {W : World}.

Lemma appends_for_each_blosc xs : appends (for_each xs blosc_job).
Proof.
  induction xs as [|x rest IH]; cbn [for_each]; [apply appends_ret|].
  apply appends_bind; [|intros _; exact IH].
  intros s. destruct (blosc_job_announces x s) as [evs ->]. eauto.
Qed.

Lemma blosc_run_eq vdbs s :
  vdbs ≠ [] -> read_write_blosc_compression vdbs s = for_each vdbs blosc_job s.
Proof. destruct vdbs; [congruence|reflexivity]. Qed.

Lemma blosc_run_prints x rest s :
  out (read_write_blosc_compression (x :: rest) s).2 ≠ out s.
Proof.
  rewrite blosc_run_eq by discriminate. cbn [for_each]. unfold bind.
  destruct (blosc_job_announces x s) as [evs Hevs].
  destruct (blosc_job x s) as [[e|[]] s1]; cbn [snd] in *.
  - rewrite Hevs. intros H. apply (f_equal length) in H.
    rewrite length_app in H. cbn in H. lia.
  - destruct (appends_for_each_blosc rest s1) as [evs' ->]. rewrite Hevs.
    intros H. apply (f_equal length) in H.
    rewrite !length_app in H. cbn in H. lia.
Qed.

Hypothesis quiet : quiet_tool.

Lemma for_each_blosc_other xs q s :
  (∀ x, x ∈ xs -> q ≠ x ∧ q ≠ blosc_dst x) ->
  fs (for_each xs blosc_job s).2 !! q = fs s !! q.
Proof.
  revert s. induction xs as [|x rest IH]; intros s Hq; [reflexivity|].
  cbn [for_each]. unfold bind.
  destruct (Hq x) as [Hx Hd]; [apply elem_of_cons; now left|].
  pose proof (blosc_job_other quiet x q s Hx Hd) as Hjob.
  destruct (blosc_job x s) as [[e|[]] s1]; cbn [snd] in *; [assumption|].
  rewrite IH; [assumption|].
  intros y Hy. apply Hq, elem_of_cons. now right.
Qed.

Lemma blosc_run_fs vdbs s q :
  vdbs ≡ₚ glob_vdb (fs s) ->
  returned (read_write_blosc_compression vdbs s).1 = true ->
  fs (read_write_blosc_compression vdbs s).2 !! q =
  if matches_vdb q then None else fs s !! q.
Proof.
  intros Hperm.
  assert (Hin : ∀ x, x ∈ vdbs <-> matches_vdb x = true ∧ is_Some (fs s !! x)).
  { intros x. rewrite Hperm. apply glob_vdb_elem. }
  destruct vdbs as [|x rest] eqn:Hvdbs; [discriminate|].
  rewrite blosc_run_eq by discriminate. rewrite <- Hvdbs in *. intros Hret.
  assert (Hne : ∀ x, x ∈ vdbs -> x ≠ "").
  { intros y [Hy _]%Hin. now apply matches_vdb_nonempty. }
  destruct (for_each_blosc_job quiet _ s Hne Hret) as (Hsrc & _ & Hall).
  destruct (matches_vdb q) eqn:Hq.
  - destruct (fs s !! q) as [v|] eqn:Hv.
    + apply Hsrc, Hin. split; [assumption|]. rewrite Hv. eauto.
    + destruct (Hall q) as [H|H]; [assumption|]. now rewrite H.
  - apply for_each_blosc_other. intros y [Hy _]%Hin. split.
    + intros ->. congruence.
    + intros ->. apply matches_blosc_dst in Hy. congruence.
Qed.

End BloscRun.

(** X15. A run of [read_write_blosc_compression.py] that returns, with a
    comparison tool that writes nothing, leaves no file that [*.vdb]
    matches, the outputs it wrote included, and leaves every other file of
    the directory as it was, in whatever order [glob] listed the data
    files. *)
Theorem blosc_run_removes_the_data_files {W : World}
        (vdbs : list string) (s : state) (q : string) :
  vdbs ≡ₚ glob_vdb (fs s) ->
  quiet_tool ->
  returned (read_write_blosc_compression vdbs s).1 = true ->
  fs (read_write_blosc_compression vdbs s).2 !! q =
  if matches_vdb q then None else fs s !! q.
Proof. intros Hperm Hquiet. now apply blosc_run_fs. Qed.

Lemma blosc_run_removes_the_data_files_witness :
  let W := Demo.world true "" in
  let s := Demo.dir [("a.vdb", "vdb1:x"); ("b_blosc.vdb", "vdb3:y");
                     ("notes.txt", "keep")] in
  let vdbs := ["b_blosc.vdb"; "a.vdb"] in
  fs (read_write_blosc_compression vdbs s).2 !! "a.vdb" = None ∧
  fs (read_write_blosc_compression vdbs s).2 !! "notes.txt" = Some "keep".
Proof.
  intros W s vdbs.
  assert (Hperm : vdbs ≡ₚ glob_vdb (fs s)).
  { apply NoDup_Permutation.
    - vm_compute. repeat constructor; rewrite ?elem_of_cons, ?elem_of_nil;
        intuition discriminate.
    - unfold glob_vdb. apply NoDup_filter, NoDup_fst_map_to_list.
    - intros x. rewrite glob_vdb_elem. unfold vdbs.
      rewrite !elem_of_cons, elem_of_nil. split.
      + intros [->|[->|[]]]; (split; [reflexivity|vm_compute; eauto]).
      + intros [Hm [v Hv]]. unfold s, Demo.dir, bare in Hv. cbn [fs] in Hv.
        apply elem_of_list_to_map_2 in Hv.
        rewrite !elem_of_cons, elem_of_nil in Hv.
        destruct Hv as [[= -> _]|[[= -> _]|[[= -> _]|[]]]]; auto.
        discriminate. }
  split.
  - rewrite (@blosc_run_removes_the_data_files W vdbs s "a.vdb" Hperm);
      [reflexivity|intros d cmd; reflexivity|vm_compute; reflexivity].
  - rewrite (@blosc_run_removes_the_data_files W vdbs s "notes.txt" Hperm);
      [vm_compute; reflexivity|intros d cmd; reflexivity|vm_compute; reflexivity].
Defined.

(** X16. [read_write_blosc_compression.py] stops at its first assertion,
    with nothing printed and nothing touched, exactly when the directory
    holds no file that [*.vdb] matches. *)
Theorem blosc_script_needs_a_data_file {W : World}
        (vdbs : list string) (s : state) :
  vdbs ≡ₚ glob_vdb (fs s) ->
  (read_write_blosc_compression vdbs s = (inl AssertionError, s) <->
   ∀ p, is_Some (fs s !! p) -> matches_vdb p = false).
Proof.
  intros Hperm.
  assert (Hin : ∀ x, x ∈ vdbs <-> matches_vdb x = true ∧ is_Some (fs s !! x)).
  { intros x. rewrite Hperm. apply glob_vdb_elem. }
  destruct vdbs as [|x rest].
  - split; [|reflexivity]. intros _ p Hp.
    destruct (matches_vdb p) eqn:Hm; [|reflexivity].
    assert (Hp' : p ∈ []) by now apply Hin. now apply elem_of_nil in Hp'.
  - split.
    + intros H. apply (f_equal (fun r => out r.2)) in H. cbn [snd] in H.
      now apply blosc_run_prints in H.
    + intros Hnone.
      assert (Hx : x ∈ x :: rest) by (apply elem_of_cons; now left).
      apply Hin in Hx as [Hm Hp]. rewrite (Hnone x Hp) in Hm. discriminate.
Qed.

Lemma blosc_script_needs_a_data_file_witness :
  let W := Demo.world true "" in
  let s := Demo.dir [("notes.txt", "keep"); (".hidden.vdb", "vdb1:x")] in
  read_write_blosc_compression (glob_vdb (fs s)) s = (inl AssertionError, s).
Proof.
  intros W s.
  apply (@blosc_script_needs_a_data_file W (glob_vdb (fs s)) s); [reflexivity|].
  intros p [v Hv]. unfold s, Demo.dir, bare in Hv. cbn [fs] in Hv.
  apply elem_of_list_to_map_2 in Hv.
  rewrite !elem_of_cons, elem_of_nil in Hv.
  destruct Hv as [[= -> _]|[[= -> _]|[]]]; reflexivity.
Defined.

(** ** What a job of the downloading scripts touches *)

Section JobFrames.

Context {W : World}.

Lemma test_validate_other zip q s :
  q ≠ test_name zip +:+ "_blosc_compressed.vdb" ->
  fs (test_validate zip s).2 !! q = fs (extract_zip zip s).2 !! q ∧
  (src_file (test_validate zip s).2 = "" ∨
   src_file (test_validate zip s).2 = test_name zip +:+ ".vdb") ∧
  (dst_file (test_validate zip s).2 = "" ∨
   dst_file (test_validate zip s).2 = test_name zip +:+ "_blosc_compressed.vdb").
Proof.
  intros Hq. unfold test_validate. step.
  rewrite (extract_zip_at zip s) by reflexivity.
  destruct (extract_zip zip s).1 as [e|[]]; step; [repeat split; now left|].
  match goal with
  | |- context [round_trip ?l ?a ?b ?st] =>
      destruct (round_trip_variables l a b st) as [Hs Hd];
      pose proof (round_trip_other l a b q st Hq) as Hrt;
      destruct (round_trip l a b st) as [[e|[]] s1]
  end; cbn [fst snd fs out src_file dst_file] in *;
    (split; [assumption|]); split; now right.
Qed.

Hypothesis quiet : quiet_tool.

Lemma test_job_other zip q s :
  q ≠ zip -> q ≠ test_name zip +:+ ".vdb" ->
  q ≠ test_name zip +:+ "_blosc_compressed.vdb" ->
  fs (test_job zip s).2 !! q = fs (extract_zip zip s).2 !! q.
Proof.
  intros Hz Hs Hd. unfold test_job, bind.
  destruct (test_validate_other zip q s Hd) as (Hv & Hsrc & Hdst).
  destruct (test_validate zip s) as [[e|[]] s1]; cbn [snd] in *; [assumption|].
  pose proof (test_compare_fs quiet s1) as Hc.
  destruct (test_compare_variables s1) as [Hcs Hcd].
  destruct (test_compare s1) as [[e|[]] s2]; cbn [snd] in *.
  - now rewrite Hc.
  - rewrite test_cleanup_spec. cbn [snd fs]. rewrite Hcs, Hcd, Hc.
    rewrite (rm_lookup_other _ zip q Hz).
    assert (Hrm : ∀ d p, p = "" ∨ q ≠ p -> rm p d !! q = d !! q).
    { intros d p [->|Hp]; [|now apply rm_lookup_other].
      now rewrite rm_absent by apply is_file_empty_path. }
    rewrite !Hrm; [assumption| |].
    + destruct Hsrc as [->| ->]; [now left|now right].
    + destruct Hdst as [->| ->]; [now left|now right].
Qed.

End JobFrames.

(** X19. A job touches its own files only. In
    [read_write_test_compression.py], with a comparison tool that writes
    nothing, every file other than the archive, the data file and the
    output file is after the job as extraction left it, whether the job
    returned or raised. In [download_vdb_caches.py] every file other than
    the archive is as extraction left it. In
    [read_write_blosc_compression.py], with such a tool, every file other
    than the data file and its output file is as it was. *)
Theorem job_touches_its_own_files_only {W : World} (p q : string) (s : state) :
  (quiet_tool -> q ≠ p -> q ≠ test_name p +:+ ".vdb" ->
   q ≠ test_name p +:+ "_blosc_compressed.vdb" ->
   fs (test_job p s).2 !! q = fs (extract_zip p s).2 !! q) ∧
  (q ≠ p -> fs (cache_job p s).2 !! q = fs (extract_zip p s).2 !! q) ∧
  (quiet_tool -> q ≠ p -> q ≠ blosc_dst p ->
   fs (blosc_job p s).2 !! q = fs s !! q).
Proof.
  split; [|split].
  - intros Hquiet. now apply test_job_other.
  - intros Hq. rewrite cache_job_spec. cbn [snd].
    destruct (extract_zip p s).1; cbn [fs]; [reflexivity|].
    now apply rm_lookup_other.
  - intros Hquiet. now apply blosc_job_other.
Qed.

Lemma job_touches_its_own_files_only_witness :
  let W := Demo.world true "" in
  let s := Demo.dir [("a.vdb-1.0.0.zip", "zip:a.vdb=vdb1:density");
                     ("notes.txt", "keep")] in
  let t := Demo.dir [("a.vdb", "vdb1:density"); ("notes.txt", "keep")] in
  fs (test_job "a.vdb-1.0.0.zip" s).2 !! "notes.txt" = Some "keep" ∧
  fs (cache_job "a.vdb-1.0.0.zip" s).2 !! "notes.txt" = Some "keep" ∧
  fs (blosc_job "a.vdb" t).2 !! "notes.txt" = Some "keep".
Proof.
  intros W s t.
  destruct (@job_touches_its_own_files_only W "a.vdb-1.0.0.zip" "notes.txt" s)
    as (H1 & H2 & _).
  destruct (@job_touches_its_own_files_only W "a.vdb" "notes.txt" t)
    as (_ & _ & H3).
  assert (Hquiet : quiet_tool) by (intros d cmd; reflexivity).
  split; [|split].
  - rewrite H1; [vm_compute; reflexivity|assumption|discriminate..].
  - rewrite H2; [vm_compute; reflexivity|discriminate].
  - rewrite H3; [vm_compute; reflexivity|assumption|discriminate..].
Defined.

(** ** An exception that ends the run *)

Lemma drain_crash_source {W : World} (alive : nat -> nat -> bool)
      (urls : list string) (job : string -> M unit) n patience t d acc s e :
  how (drain alive urls job n patience t d acc s) = Crashed e ->
  ∃ zip s', (job zip s').1 = inl e.
Proof.
  revert t d acc s.
  induction n as [|n IH]; intros t d acc s; destruct d as [|kv d'];
    cbn [drain]; try discriminate.
  destruct (wait alive patience t (kv :: d')) as [y|]; [|discriminate].
  destruct (job (y_file y) (joined urls (y_thread y) s)) as [[e'|[]] s'] eqn:Hj.
  - intros [= <-]. exists (y_file y), (joined urls (y_thread y) s).
    now rewrite Hj.
  - apply IH.
Qed.

(** X20. [read_write_test_compression.py] can end in an exception only
    when the comparison is enabled: without [vdb.ax] every run has
    finished or is still polling, whatever the downloads, the archives and
    the round trips did. *)
Theorem test_script_crashes_only_with_ax {W : World}
        (alive : nat -> nat -> bool) (n patience : nat) (s : state) (e : exn) :
  how (read_write_test_compression alive n patience s) = Crashed e ->
  vdb_has_ax = true.
Proof.
  rewrite read_write_test_compression_eq, main_loop_drain.
  intros (zip & s' & Hjob)%drain_crash_source.
  now apply test_job_raised in Hjob as [Hax _].
Qed.

Lemma test_script_crashes_only_with_ax_witness :
  @vdb_has_ax Demo.disk_full = true.
Proof.
  apply (@test_script_crashes_only_with_ax Demo.disk_full Demo.finished 26 1
           (Demo.dir []) (External "not a VDB file")).
  vm_compute. reflexivity.
Defined.

(** ** What the success message stands for *)

Lemma said_same_out {A} (m : M A) s s' :
  out s = out s' -> said m s' = drop (length (out s)) (out (m s').2).
Proof. intros H. unfold said. now rewrite H. Qed.

Section Success.

Context {W : World}.

Lemma report_sizes_out label src dst s :
  out (report_sizes label src dst s).2 =
  out s ++
  match (getsize src s).1, (getsize dst s).1 with
  | inr a, inr b =>
      [Successful label; InputSize a; OutputSize b] ++
      match b with
      | O => []
      | S _ => [CompRatio (Z.of_nat a # Pos.of_nat b)]
      end
  | _, _ => []
  end.
Proof.
  unfold report_sizes. step.
  rewrite (getsize_run src s).
  destruct (getsize src s).1 as [e|a]; cbn [fst snd]; [now rewrite app_nil_r|].
  rewrite (getsize_run dst s).
  destruct (getsize dst s).1 as [e|b]; cbn [fst snd]; [now rewrite app_nil_r|].
  unfold comp_ratio. destruct b; step; cbn [out]; tidy_out; reflexivity.
Qed.

Lemma write_and_report_out label src dst grids s :
  out (write_and_report label src dst grids s).2 =
  match write_copy dst grids s with
  | (inr _, s1) => out (report_sizes label src dst s1).2
  | (inl _, _) => out s
  end ∧
  (∀ s1, write_copy dst grids s = (inr tt, s1) -> out s1 = out s).
Proof.
  destruct (write_copy_spec dst grids s) as (_ & Hout & _).
  unfold write_and_report, bind.
  destruct (write_copy dst grids s) as [[e|[]] s1]; cbn [snd] in *.
  - split; [assumption|discriminate].
  - split; [reflexivity|]. now intros s1' [= <-].
Qed.

End Success.

(** X21. The line [read/write successful] is printed exactly when the
    round trip did succeed: [vdb.readAll] returned at most two elements,
    the renamed first element was written and read back without an
    exception, and the sizes of both files could be taken. It says
    nothing about the ratio, which is computed after it. *)
Theorem success_message_is_sound {W : World} (label src dst : string) (s : state) :
  Successful label ∈ said (round_trip label src dst) s <->
  ∃ grids s1 a b,
    (readAll src s).1 = inr grids ∧ length grids <= 2 ∧
    write_copy dst grids s = (inr tt, s1) ∧
    (getsize src s1).1 = inr a ∧ (getsize dst s1).1 = inr b.
Proof.
  destruct (round_trip_cases label src dst s)
    as [(e & Hr & Heq)|[(grids & Hr & Hlen & _)|(grids & Hr & Hlen & Heq)]].
  - unfold said. rewrite Heq. cbn [snd]. rewrite drop_all. split.
    + intros []%elem_of_nil.
    + intros (grids & _ & _ & _ & Hr' & _). congruence.
  - rewrite (said_app _ _ [PrintGrids grids])
      by now rewrite (round_trip_rejects _ _ _ grids).
    split.
    + intros [=]%list_elem_of_singleton.
    + intros (grids' & _ & _ & _ & Hr' & Hlen' & _).
      assert (grids' = grids) by congruence. subst. lia.
  - unfold said. rewrite Heq.
    destruct (write_and_report_out label src dst grids s) as [Hout Hsame].
    rewrite Hout. clear Hout.
    destruct (write_copy dst grids s) as [[e|[]] s1] eqn:Hw.
    + rewrite drop_all. split; [intros []%elem_of_nil|].
      intros (grids' & s1' & _ & _ & Hr' & _ & Hw' & _).
      assert (grids' = grids) by congruence. subst. congruence.
    + rewrite report_sizes_out, (Hsame s1 eq_refl), drop_app_length. split.
      * intros Hin. exists grids, s1.
        destruct (getsize src s1).1 as [e|a];
          [now apply elem_of_nil in Hin|].
        destruct (getsize dst s1).1 as [e|b];
          [now apply elem_of_nil in Hin|].
        exists a, b. repeat split; assumption.
      * intros (grids' & s1' & a & b & Hr' & _ & Hw' & Ha & Hb).
        assert (grids' = grids) by congruence. subst.
        assert (s1' = s1) by congruence. subst.
        rewrite Ha, Hb. apply elem_of_cons. now left.
Qed.

Lemma success_message_is_sound_witness :
  let W := Demo.world true "" in
  let s := Demo.dir [("a.vdb", "vdb1:x")] in
  Successful "a" ∈ said (round_trip "a" "a.vdb" "a_out.vdb") s.
Proof.
  intros W s.
  apply (@success_message_is_sound W "a" "a.vdb" "a_out.vdb" s).
  exists [GridList [Demo.grid_named "x"]; MetaDict []].
  exists (write_copy "a_out.vdb" [GridList [Demo.grid_named "x"]; MetaDict []] s).2.
  exists 6, 13.
  split; [vm_compute; reflexivity|]. split; [cbn; lia|].
  split; [vm_compute; reflexivity|]. split; vm_compute; reflexivity.
Defined.

(** X22. A data file without a first grid is turned away before anything
    is written or printed: when [vdb.readAll] returns at most two
    elements and the first one is missing, is an empty list of grids, or
    is not a list, the round trip raises [IndexError] (or [KeyError] for a
    dict) from [grids[0][0]] and leaves the state as it was. *)
Theorem file_without_a_first_grid_is_turned_away {W : World}
        (label src dst : string) (s : state) (grids : list item) :
  (readAll src s).1 = inr grids -> length grids <= 2 ->
  (∀ g gs rest, grids ≠ GridList (g :: gs) :: rest) ->
  round_trip label src dst s =
  (inl (match grids with MetaDict _ :: _ => KeyError | _ => IndexError end), s).
Proof.
  intros Hr Hlen Hfirst. rewrite (round_trip_accepts _ _ _ grids) by assumption.
  unfold write_and_report, write_copy, index0, rename_first.
  destruct grids as [|[[|g gs]|kv] rest]; try reflexivity.
  now destruct (Hfirst g gs rest).
Qed.

Lemma file_without_a_first_grid_is_turned_away_witness :
  let W' := {| requests_get := Demo.serve; zip_members := Demo.members;
               vdb_readAll := fun _ => inr [GridList []; MetaDict []];
               vdb_readAllGridMetadata := Demo.readAllGridMetadata;
               vdb_write := Demo.write; vdb_has_ax := true;
               vdb_ax := fun d _ => (inr ("", ""), d) |} in
  let s := Demo.dir [("a.vdb", "vdb1:x")] in
  @round_trip W' "a" "a.vdb" "a_out.vdb" s = (inl IndexError, s).
Proof.
  intros W' s.
  apply (@file_without_a_first_grid_is_turned_away W' "a" "a.vdb" "a_out.vdb" s
           [GridList []; MetaDict []]).
  - vm_compute. reflexivity.
  - cbn. lia.
  - intros g gs rest. discriminate.
Defined.

(** ** The head of the log *)

Section Log.

Context {W : World}.

Lemma appends_cache_job zip : appends (cache_job zip).
Proof.
  intros s. rewrite cache_job_spec. cbn [snd].
  destruct (extract_zip zip s).1; cbn [out]; eauto.
Qed.

Lemma appends_test_job zip : appends (test_job zip).
Proof.
  unfold test_job, test_validate, test_compare.
  apply appends_bind.
  { repeat (apply appends_bind; [apply appends_print|intros _]).
    apply appends_bind; [now apply appends_same|intros _].
    apply appends_bind; [now apply appends_same|intros _].
    apply appends_try; [|intros; apply appends_print].
    apply appends_bind; [apply appends_print|intros _].
    apply appends_bind; [apply appends_fs_only, fs_only_extract_zip|intros _].
    apply appends_bind; [now apply appends_same|intros _].
    apply appends_bind; [now apply appends_same|intros _].
    apply appends_round_trip. }
  intros _. apply appends_bind.
  { apply appends_bind; [now apply appends_same|intros src].
    apply appends_bind; [now apply appends_same|intros dst].
    destruct vdb_has_ax; [apply appends_diff_if_both|apply appends_ret]. }
  intros _ s. rewrite test_cleanup_spec. cbn [snd out]. eauto.
Qed.

Variable alive : nat -> nat -> bool.
Variable urls : list string.
Variable job : string -> M unit.
Hypothesis job_appends : ∀ zip, appends (job zip).

Lemma joined_out th s : out (joined urls th s) = out s.
Proof.
  unfold joined. destruct (urls !! th) as [url|]; [|reflexivity].
  now rewrite (fs_only_download url (PyStr.basename url) s).
Qed.

Lemma drain_appends n patience t d acc s :
  ∃ evs, out (final (drain alive urls job n patience t d acc s)) = out s ++ evs.
Proof.
  revert t d acc s.
  induction n as [|n IH]; intros t d acc s; destruct d as [|kv d'];
    cbn [drain final]; try (exists []; now rewrite app_nil_r).
  destruct (wait alive patience t (kv :: d')) as [y|];
    [|exists []; now rewrite app_nil_r].
  destruct (job_appends (y_file y) (joined urls (y_thread y) s)) as [evs Hevs].
  rewrite joined_out in Hevs.
  destruct (job (y_file y) (joined urls (y_thread y) s)) as [[e|[]] s'];
    cbn [snd final] in *; [now exists evs|].
  destruct (IH (y_poll y) (dict_del (y_file y) (kv :: d')) (acc ++ [y]) s')
    as [evs' ->].
  exists (evs ++ evs'). now rewrite Hevs, app_assoc.
Qed.

Lemma main_loop_announces n patience s :
  ∃ evs, out (final (main_loop alive urls job n patience s)) =
         out s ++ (Initiating <$> urls) ++ evs.
Proof.
  rewrite main_loop_drain.
  destruct (drain_appends n patience 0 (register urls 0 []) []
              (mkState (fs s) (out s ++ (Initiating <$> urls))
                       (src_file s) (dst_file s))) as [evs ->].
  exists evs. cbn [out]. now rewrite app_assoc.
Qed.

End Log.

(** X23. Every download is announced, in the order of the catalog and
    before any archive is processed, doubled entries included: the log of
    [download_vdb_caches.py] begins with one [Initiating download] line
    per url, and the log of [read_write_test_compression.py] with the line
    that tells whether [vdb.ax] is there, followed by the same lines.
    Nothing printed before the run is changed. *)
Theorem every_download_is_announced {W : World}
        (alive : nat -> nat -> bool) (n patience : nat) (s : state) :
  (∃ evs, out (final (download_vdb_caches alive n patience s)) =
          out s ++ (Initiating <$> vdb_urls) ++ evs) ∧
  (∃ evs, out (final (read_write_test_compression alive n patience s)) =
          out s ++ (if vdb_has_ax then AxEnabled else AxDisabled)
                :: (Initiating <$> vdb_urls) ++ evs).
Proof.
  split.
  - rewrite download_vdb_caches_eq.
    apply main_loop_announces, appends_cache_job.
  - rewrite read_write_test_compression_eq.
    destruct (main_loop_announces alive vdb_urls test_job appends_test_job
                n patience
                (print (if vdb_has_ax then AxEnabled else AxDisabled) s).2)
      as [evs ->].
    exists evs. cbn [print snd out]. now rewrite <- app_assoc.
Qed.
